(** * springbootplusplus_data: annotation detection and code injection

    A shallow embedding of the text-processing core of the annotation
    processor (the Python scripts under
    [springbootplusplus_data_scripts/springbootplusplus_data_core]) together
    with the properties stated about it.

    Conventions.
    - A Python [str] is a list of characters; a character is a code point
      in U+0000..U+00FF, carried by [ascii].
    - A file is [option str]: [None] is a path that cannot be opened for
      reading, [Some text] is the text of the file as it is read in text
      mode, which is [universal_newlines] of its bytes.  Whether the file
      can be opened for writing is the argument [writable] of the functions
      that write; writing puts the text into the file as it is (the line
      separator of the system is the newline).
    - Regular expressions are kept as syntax trees and run by a backtracking
      matcher that enumerates the matches in the order Python's [re] tries
      them; [re.search] and [re.match] return the first one. *)

From Stdlib Require Import Ascii String List Bool Arith Lia NArith ZArith.
Import ListNotations.

Set Implicit Arguments.

(** ** Characters and strings *)

Definition str := list ascii.

Definition py (s : string) : str := list_ascii_of_string s.

Definition code (c : ascii) : N := N_of_ascii c.

Definition between (lo hi : N) (c : ascii) : bool :=
  (N.leb lo (code c) && N.leb (code c) hi)%bool.

Definition chr_eqb (a b : ascii) : bool := Ascii.eqb a b.

(** [str.isspace] on one character (also what [\s] matches). *)
Definition isspace (c : ascii) : bool :=
  between 9 13 c || between 28 32 c || N.eqb (code c) 133 || N.eqb (code c) 160.

(** [str.isupper] on one character. *)
Definition isupper (c : ascii) : bool :=
  between 65 90 c || between 192 214 c || between 216 222 c.

(** [str.lower] on one character. *)
Definition lower_chr (c : ascii) : ascii :=
  if isupper c then ascii_of_N (code c + 32) else c.

Definition lower (s : str) : str := map lower_chr s.

(** What [\w] matches: alphanumerics and the underscore. *)
Definition isword (c : ascii) : bool :=
  between 48 57 c || between 65 90 c || between 97 122 c || N.eqb (code c) 95
  || N.eqb (code c) 170 || between 178 179 c || N.eqb (code c) 181
  || between 185 186 c || between 188 190 c
  || between 192 214 c || between 216 246 c || between 248 255 c.

Fixpoint str_eqb (a b : str) : bool :=
  match a, b with
  | [], [] => true
  | x :: a', y :: b' => chr_eqb x y && str_eqb a' b'
  | _, _ => false
  end.

(** [s.startswith(p)] *)
Fixpoint startswith (p s : str) : bool :=
  match p, s with
  | [], _ => true
  | x :: p', y :: s' => chr_eqb x y && startswith p' s'
  | _ :: _, [] => false
  end.

(** [sub in s] *)
Fixpoint contains (sub s : str) : bool :=
  startswith sub s ||
  match s with
  | [] => false
  | _ :: t => contains sub t
  end.

(** [s.count(c)] for a one-character [c]. *)
Fixpoint count_chr (c : ascii) (s : str) : nat :=
  match s with
  | [] => 0
  | x :: t => (if chr_eqb c x then 1 else 0) + count_chr c t
  end.

Fixpoint dropwhile (p : ascii -> bool) (s : str) : str :=
  match s with
  | [] => []
  | c :: t => if p c then dropwhile p t else s
  end.

Definition lstrip (s : str) : str := dropwhile isspace s.
Definition rstrip (s : str) : str := rev (dropwhile isspace (rev s)).
Definition strip (s : str) : str := lstrip (rstrip s).

Definition spaces (n : nat) : str := repeat " "%char n.

Definition nl : ascii := "010"%char.

(** [file.readlines()]: the lines of a text, each with its terminator. *)
Fixpoint readlines_aux (cur : str) (s : str) : list str :=
  match s with
  | [] => match cur with [] => [] | _ => [rev cur] end
  | c :: t =>
      if chr_eqb c nl then rev (c :: cur) :: readlines_aux [] t
      else readlines_aux (c :: cur) t
  end.

Definition readlines (s : str) : list str := readlines_aux [] s.

(** [file.writelines(lines)] *)
Definition writelines (lines : list str) : str := concat lines.

(** [s.split('\n')] *)
Fixpoint split_aux (cur : str) (s : str) : list str :=
  match s with
  | [] => [rev cur]
  | c :: t =>
      if chr_eqb c nl then rev cur :: split_aux [] t
      else split_aux (c :: cur) t
  end.

Definition split_nl (s : str) : list str := split_aux [] s.

(** [sep.join(parts)] *)
Fixpoint join (sep : str) (parts : list str) : str :=
  match parts with
  | [] => []
  | [x] => x
  | x :: rest => x ++ sep ++ join sep rest
  end.

(** ** Regular expressions *)

Inductive regex : Type :=
| Eps
| Chr (p : ascii -> bool)
| Cat (a b : regex)
| Alt (a b : regex)
| Star (greedy : bool) (a : regex)
| Grp (n : nat) (a : regex)
| Bol
| Eol (multiline : bool)
| Wb.

(** A position of the matcher: the character before it ([None] at the start
    of the subject), the text after it, and the groups captured so far. *)
Record mstate : Type := MS {
  ms_prev : option ascii;
  ms_rest : str;
  ms_caps : list (nat * str)
}.

Definition progress (st st' : mstate) : bool :=
  Nat.ltb (length (ms_rest st')) (length (ms_rest st)).

Definition consumed (st st' : mstate) : str :=
  firstn (length (ms_rest st) - length (ms_rest st')) (ms_rest st).

Definition set_cap (n : nat) (st st' : mstate) : mstate :=
  MS (ms_prev st') (ms_rest st') ((n, consumed st st') :: ms_caps st').

Definition at_eol (multiline : bool) (st : mstate) : bool :=
  match ms_rest st with
  | [] => true
  | c :: t => chr_eqb c nl && (multiline || match t with [] => true | _ => false end)
  end.

Definition at_wb (st : mstate) : bool :=
  xorb (match ms_prev st with Some c => isword c | None => false end)
       (match ms_rest st with c :: _ => isword c | [] => false end).

Fixpoint star_run (step : mstate -> list mstate) (greedy : bool)
         (fuel : nat) (st : mstate) : list mstate :=
  match fuel with
  | O => [st]
  | S f =>
      let more := flat_map (star_run step greedy f)
                           (filter (progress st) (step st)) in
      if greedy then more ++ [st] else st :: more
  end.

(** All the ways [r] matches at [st], in the order a backtracking matcher
    finds them. *)
Fixpoint run (r : regex) (st : mstate) : list mstate :=
  match r with
  | Eps => [st]
  | Chr p =>
      match ms_rest st with
      | c :: t => if p c then [MS (Some c) t (ms_caps st)] else []
      | [] => []
      end
  | Cat a b => flat_map (run b) (run a st)
  | Alt a b => run a st ++ run b st
  | Star g a => star_run (run a) g (length (ms_rest st)) st
  | Grp n a => map (set_cap n st) (run a st)
  | Bol => match ms_prev st with None => [st] | Some _ => [] end
  | Eol m => if at_eol m st then [st] else []
  | Wb => if at_wb st then [st] else []
  end.

(** [re.match(r, s)] *)
Definition re_match (r : regex) (s : str) : option mstate :=
  hd_error (run r (MS None s [])).

Fixpoint search_from (r : regex) (prev : option ascii) (s : str)
  : option mstate :=
  match run r (MS prev s []) with
  | st :: _ => Some st
  | [] =>
      match s with
      | [] => None
      | c :: t => search_from r (Some c) t
      end
  end.

(** [re.search(r, s)] *)
Definition re_search (r : regex) (s : str) : option mstate :=
  search_from r None s.

Definition found (m : option mstate) : bool :=
  match m with Some _ => true | None => false end.

Fixpoint assoc (n : nat) (l : list (nat * str)) : option str :=
  match l with
  | [] => None
  | (k, v) :: t => if Nat.eqb n k then Some v else assoc n t
  end.

(** [m.group(n)] *)
Definition group (n : nat) (st : mstate) : str :=
  match assoc n (ms_caps st) with Some v => v | None => [] end.

(** Pattern builders. *)
Definition chr (c : ascii) : regex := Chr (chr_eqb c).
Definition chri (c : ascii) : regex :=
  Chr (fun x => chr_eqb (lower_chr x) (lower_chr c)).

Fixpoint lit (s : str) : regex :=
  match s with
  | [] => Eps
  | [c] => chr c
  | c :: t => Cat (chr c) (lit t)
  end.

Fixpoint liti (s : str) : regex :=
  match s with
  | [] => Eps
  | [c] => chri c
  | c :: t => Cat (chri c) (liti t)
  end.

Definition plus (g : bool) (a : regex) : regex := Cat a (Star g a).
Definition opt (a : regex) : regex := Alt a Eps.
Definition ws : regex := Chr isspace.
Definition ws_star : regex := Star true ws.
Definition ws_plus : regex := plus true ws.

Fixpoint seq (l : list regex) : regex :=
  match l with
  | [] => Eps
  | [a] => a
  | a :: t => Cat a (seq t)
  end.

Fixpoint alts (l : list regex) : regex :=
  match l with
  | [] => Chr (fun _ => false)
  | [a] => a
  | a :: t => Alt a (alts t)
  end.

Definition is_upper_az (c : ascii) : bool := between 65 90 c.
Definition is_lower_az (c : ascii) : bool := between 97 122 c.
Definition is_digit (c : ascii) : bool := between 48 57 c.
Definition is_alpha_ (c : ascii) : bool :=
  is_upper_az c || is_lower_az c || chr_eqb c "_"%char.
Definition is_ident (c : ascii) : bool := is_alpha_ c || is_digit c.

(** An identifier: [A-Za-z_] followed by any number of [A-Za-z0-9_]. *)
Definition ident : regex := Cat (Chr is_alpha_) (Star true (Chr is_ident)).

Definition dq : ascii := "034"%char.

Definition one_of (cs : str) (c : ascii) : bool := existsb (chr_eqb c) cs.

(** [.]: any character except a newline. *)
Definition dot : regex := Chr (fun c => negb (chr_eqb c nl)).

(** [.] under [re.DOTALL]. *)
Definition dot_all : regex := Chr (fun _ => true).

(** [re.sub(r, '', s)] for a pattern [r] that matches no empty text. *)
Fixpoint sub_empty_aux (r : regex) (fuel : nat) (prev : option ascii)
         (s : str) : str :=
  match fuel with
  | O => s
  | S f =>
      let skip :=
        match s with
        | [] => []
        | c :: t => c :: sub_empty_aux r f (Some c) t
        end in
      match run r (MS prev s []) with
      | st :: _ =>
          if progress (MS prev s []) st
          then sub_empty_aux r f (ms_prev st) (ms_rest st)
          else skip
      | [] => skip
      end
  end.

Definition re_sub_empty (r : regex) (s : str) : str :=
  sub_empty_aux r (S (length s)) None s.

(** Exceptions that escape a function, and results of calls that may raise. *)
Inductive exn : Type :=
| UnboundLocalError.

Inductive result (A : Type) : Type :=
| Ret (a : A)
| Raise (e : exn).

Arguments Ret {A} a.
Arguments Raise {A} e.

Definition bind {A B : Type} (m : result A) (k : A -> result B) : result B :=
  match m with
  | Ret a => k a
  | Raise e => Raise e
  end.

Notation "x <- m ;; k" := (bind m (fun x => k))
  (at level 61, m at next level, right associativity).

(** A file on disk: [None] cannot be opened for reading, [Some text] is
    its text as [open(file_path, 'r', encoding='utf-8')] gives it. *)
Definition file := option str.

Definition cr : ascii := "013"%char.

(** What reading in text mode makes of the bytes of a file: a carriage
    return, with the newline that follows it when there is one, is read as
    one newline. *)
Fixpoint universal_newlines (bytes : str) : str :=
  match bytes with
  | [] => []
  | c :: t =>
      if chr_eqb c cr then
        nl :: match t with
              | [] => []
              | c' :: t' =>
                  if chr_eqb c' nl then universal_newlines t'
                  else universal_newlines t
              end
      else c :: universal_newlines t
  end.

(** The bytes hold no carriage return. *)
Definition no_cr (bytes : str) : bool :=
  forallb (fun c => negb (chr_eqb c cr)) bytes.

(** [open(file_path, 'w')] and the write that follows it, with the new
    state of the file and whether the write went through.  [writable] says
    whether the file can be opened for writing; when it cannot, the open
    raises and the file is left as it was. *)
Definition write_file (writable : bool) (f : file) (text : str)
  : file * bool :=
  if writable then (Some text, true) else (f, false).

(** ** repository/extract_method_action.py *)

Module ExtractMethodAction.

Definition STANDARD_ACTIONS : list str :=
  [py "Find"; py "Delete"; py "Save"; py "Update"; py "Exists"; py "Count"].

(** The pattern ^([A-Z][a-z]+)By *)
Definition pattern : regex :=
  seq [Bol;
       Grp 1 (Cat (Chr is_upper_az) (plus true (Chr is_lower_az)));
       lit (py "By")].

Definition is_in (x : str) (l : list str) : bool := existsb (str_eqb x) l.

Definition standalone (method_name action : str) : bool :=
  str_eqb method_name action
  || str_eqb method_name (action ++ py "All")
  || str_eqb method_name (action ++ py "ById").

Definition extract_method_action (method_name : str) : option str :=
  match method_name with
  | [] => None
  | _ =>
      let by_action :=
        match re_match pattern method_name with
        | Some m =>
            let action := group 1 m in
            if is_in action STANDARD_ACTIONS then Some action else None
        | None => None
        end in
      match by_action with
      | Some action => Some action
      | None => find (standalone method_name) STANDARD_ACTIONS
      end
  end.

End ExtractMethodAction.

(** ** repository/extract_findby_variable_name.py *)

Module ExtractFindby.

Definition pascal_to_camel (pascal_case : str) : str :=
  match pascal_case with
  | [] => []
  | c :: t => if isupper c then lower_chr c :: t else pascal_case
  end.

(** The class A-Za-z0-9_<>:&*,\s *)
Definition ret_chr (c : ascii) : bool :=
  is_ident c || one_of (py "<>:&*,") c || isspace c.

(** The pattern, with blanks added inside the capturing group:
    (?:Public|Private|Protected|Virtual)?\s*(?:Virtual\s+|Static\s+)?
    [A-Za-z_][A-Za-z0-9_<>:&*,\s]+\s+( [A-Za-z_][A-Za-z0-9_]* )\s*\( *)
Definition declaration_pattern : regex :=
  seq [opt (alts [lit (py "Public"); lit (py "Private");
                  lit (py "Protected"); lit (py "Virtual")]);
       ws_star;
       opt (Alt (Cat (lit (py "Virtual")) ws_plus)
                (Cat (lit (py "Static")) ws_plus));
       Chr is_alpha_;
       plus true (Chr ret_chr);
       ws_plus;
       Grp 1 ident;
       ws_star;
       chr "("%char].

Definition extract_method_name_from_declaration (method_declaration : str)
  : option str :=
  match method_declaration with
  | [] => None
  | _ =>
      match re_search declaration_pattern method_declaration with
      | Some m => Some (group 1 m)
      | None => None
      end
  end.

(** The pattern ^FindBy(.+)$ under re.IGNORECASE. *)
Definition findby_pattern : regex :=
  seq [Bol; liti (py "FindBy"); Grp 1 (plus true dot); Eol false].

Definition extract_findby_variable_name (method_input : str) : option str :=
  match method_input with
  | [] => None
  | _ =>
      let method_name :=
        match extract_method_name_from_declaration method_input with
        | Some n => match n with [] => strip method_input | _ => n end
        | None => strip method_input
        end in
      match re_match findby_pattern method_name with
      | None => None
      | Some m => Some (pascal_to_camel (group 1 m))
      end
  end.

End ExtractFindby.

(** ** repository/detect_repository.py *)

Module DetectRepository.

(** The pattern //.*?$ under re.MULTILINE, then the block-comment pattern
    (slash, star, lazily anything, star, slash) under re.DOTALL. *)
Definition line_comment : regex :=
  seq [lit (py "//"); Star false dot; Eol true].

Definition block_comment : regex :=
  seq [lit (py "/*"); Star false dot_all; lit (py "*/")].

Definition remove_comments (content : str) : str :=
  re_sub_empty block_comment (re_sub_empty line_comment content).

(** The pattern ///\s*@Repository\b *)
Definition pattern : regex :=
  seq [lit (py "///"); ws_star; lit (py "@Repository"); Wb].

(** The processed marker: slash, star, \s*, @Repository, \s*, star, slash. *)
Definition processed_pattern : regex :=
  seq [lit (py "/*"); ws_star; lit (py "@Repository"); ws_star; lit (py "*/")].

Definition find_repository_annotation (content : str) : bool :=
  if found (re_search pattern content) then
    if found (re_search processed_pattern content) then false else true
  else false.

(** The pattern DefineStandardPointers\s*\(\s*(\w+)\s*\) *)
Definition define_pattern : regex :=
  seq [lit (py "DefineStandardPointers"); ws_star; chr "("%char; ws_star;
       Grp 1 (plus true (Chr isword)); ws_star; chr ")"%char].

Definition extract_class_name_from_define_standard_pointers (content : str)
  : option str :=
  match re_search define_pattern content with
  | Some m => Some (group 1 m)
  | None => None
  end.

Definition not_sep (c : ascii) : bool := negb (one_of (py ",<>") c).

(** The pattern class\s+NAME\s+(?:final\s+)?:\s*public\s+(?:virtual\s+)?
    CpaRepository\s*<\s*([^,<>]+)\s*,\s*([^,<>]+)\s*> *)
Definition cpa_pattern (class_name : str) : regex :=
  seq [lit (py "class"); ws_plus; lit class_name; ws_plus;
       opt (Cat (lit (py "final")) ws_plus);
       chr ":"%char; ws_star; lit (py "public"); ws_plus;
       opt (Cat (lit (py "virtual")) ws_plus);
       lit (py "CpaRepository"); ws_star; chr "<"%char; ws_star;
       Grp 1 (plus true (Chr not_sep)); ws_star; chr ","%char; ws_star;
       Grp 2 (plus true (Chr not_sep)); ws_star; chr ">"%char].

Definition extract_cpaRepository_info (content class_name : str)
  : option (str * str) :=
  match re_search (cpa_pattern class_name) content with
  | Some m => Some (strip (group 1 m), strip (group 2 m))
  | None => None
  end.

(** The pattern template\s*<\s*[^>]+\s*>\s*class\s+NAME *)
Definition template_pattern (class_name : str) : regex :=
  seq [lit (py "template"); ws_star; chr "<"%char; ws_star;
       plus true (Chr (fun c => negb (chr_eqb c ">"%char))); ws_star; chr ">"%char;
       ws_star; lit (py "class"); ws_plus; lit class_name].

Definition is_class_templated (content class_name : str) : bool :=
  found (re_search (template_pattern class_name) (remove_comments content)).

Definition detect_repository (f : file) : option (str * str * str * bool) :=
  match f with
  | None => None
  | Some content =>
      if negb (find_repository_annotation content) then None
      else
        match extract_class_name_from_define_standard_pointers content with
        | None => None
        | Some [] => None
        | Some class_name =>
            let is_templated := is_class_templated content class_name in
            let content_no_comments := remove_comments content in
            match extract_cpaRepository_info content_no_comments class_name with
            | None => None
            | Some (type1, type2) =>
                Some (class_name, type1, type2, is_templated)
            end
        end
  end.

End DetectRepository.

(** ** Source lines *)

(** [lines[a:b]] for [0 <= a]. *)
Definition slice {A : Type} (a b : nat) (l : list A) : list A :=
  firstn (b - a) (skipn a l).

(** The test the boundary locators use to skip a commented line. *)
Definition is_comment_line (stripped_line : str) : bool :=
  startswith (py "//") stripped_line
  || startswith (py "/*") stripped_line
  || startswith (py "*") stripped_line.

(** [stripped_line.count('{') - stripped_line.count('}')] *)
Definition brace_delta (stripped_line : str) : Z :=
  (Z.of_nat (count_chr "{"%char stripped_line)
   - Z.of_nat (count_chr "}"%char stripped_line))%Z.

(** The pattern class\s+NAME, the name taken literally ([re.escape]). *)
Definition class_decl_pattern (class_name : str) : regex :=
  seq [lit (py "class"); ws_plus; lit class_name].

(** The loop of [find_class_boundaries].  [class_start] is [Some] exactly
    when the source's [in_class] flag is set: the two are assigned
    together. *)
Fixpoint boundaries_loop (class_name : str) (lines : list str)
         (line_num : nat) (class_start : option nat) (brace_count : Z)
  : option (nat * nat) :=
  match lines with
  | [] => None
  | line :: rest =>
      let stripped_line := strip line in
      if is_comment_line stripped_line
      then boundaries_loop class_name rest (S line_num) class_start brace_count
      else
        match class_start with
        | None =>
            if found (re_search (class_decl_pattern class_name) stripped_line)
            then
              let brace_count := brace_delta stripped_line in
              if Z.eqb brace_count 0 then Some (line_num, line_num)
              else boundaries_loop class_name rest (S line_num)
                                   (Some line_num) brace_count
            else boundaries_loop class_name rest (S line_num) None brace_count
        | Some start =>
            let brace_count :=
              (brace_count + Z.of_nat (count_chr "{"%char stripped_line)
               - Z.of_nat (count_chr "}"%char stripped_line))%Z in
            if Z.eqb brace_count 0 then Some (start, line_num)
            else boundaries_loop class_name rest (S line_num)
                                 (Some start) brace_count
        end
  end.

(** A field as the extractors return it. *)
Record field : Type := Field {
  f_type : str;
  f_name : str
}.

(** The class A-Za-z0-9_<>*&,\s of the type part of a field. *)
Definition type_chr (c : ascii) : bool :=
  is_ident c || one_of (py "<>*&,") c || isspace c.

Definition access_words : regex :=
  alts [liti (py "public"); liti (py "private"); liti (py "protected")].

(** The pattern ^\s*(public|private|protected)\s*: under re.IGNORECASE. *)
Definition access_pattern : regex :=
  seq [Bol; ws_star; Grp 1 access_words; ws_star; chr ":"%char].

Definition is_access_keyword (field_name : str) : bool :=
  existsb (str_eqb field_name) [py "public"; py "private"; py "protected"].

Definition has_paren (s : str) : bool :=
  contains (py "(") s || contains (py ")") s.

(** ** serialization/S2_extract_dto_fields.py *)

Module S2.

(** A failed [open] is swallowed by [except: pass]; the loop then reads the
    never-assigned local [lines]. *)
Definition find_class_boundaries (f : file) (class_name : str)
  : result (option (nat * nat)) :=
  match f with
  | None => Raise UnboundLocalError
  | Some text =>
      Ret (boundaries_loop class_name (readlines text) 1 None 0%Z)
  end.

(** The pattern, with blanks added inside the capturing groups:
    ^\s*( [A-Za-z_][A-Za-z0-9_<>*&,\s]*? )\s+( [A-Za-z_][A-Za-z0-9_]* )\s*[;=] *)
Definition field_pattern : regex :=
  seq [Bol; ws_star;
       Grp 1 (Cat (Chr is_alpha_) (Star false (Chr type_chr)));
       ws_plus; Grp 2 ident; ws_star; Chr (one_of (py ";="))].

(** The body of the loop over the lines of the class. *)
Fixpoint fields_loop (class_lines : list str) : list field :=
  match class_lines with
  | [] => []
  | line :: rest =>
      let stripped := strip line in
      if startswith (py "//") stripped || startswith (py "/*") stripped
      then fields_loop rest
      else
        match stripped with
        | [] => fields_loop rest
        | _ =>
            if found (re_search access_pattern stripped) then fields_loop rest
            else
              match re_search field_pattern stripped with
              | Some m =>
                  let field_type := strip (group 1 m) in
                  let field_name := strip (group 2 m) in
                  if negb (has_paren stripped)
                     && negb (is_access_keyword field_name)
                  then Field field_type field_name :: fields_loop rest
                  else fields_loop rest
              | None => fields_loop rest
              end
        end
  end.

Definition extract_all_fields (f : file) (class_name : str)
  : result (list field) :=
  boundaries <- find_class_boundaries f class_name ;;
  match boundaries with
  | None => Ret []
  | Some (start_line, end_line) =>
      match f with
      | None => Raise UnboundLocalError
      | Some text =>
          let lines := readlines text in
          Ret (fields_loop (slice (start_line - 1) end_line lines))
      end
  end.

End S2.

(** ** inject_primary_key_methods.py: the boundary locator *)

Module PrimaryKey.

Definition find_class_boundaries (f : file) (class_name : str)
  : option (nat * nat) :=
  match f with
  | None => None
  | Some text => boundaries_loop class_name (readlines text) 1 None 0%Z
  end.

End PrimaryKey.

(** ** serialization/S1_check_dto_macro.py *)

Module S1.

Record dto_info : Type := DtoInfo {
  class_name : str;
  dto_line : nat;
  class_line : nat
}.

Definition annotation_name (serializable_annotation : str) : str :=
  if str_eqb serializable_annotation (py "_Entity") then py "@Entity"
  else if str_eqb serializable_annotation (py "Serializable")
       then py "@Serializable"
       else py "@Serializable".

(** Slash, star, \s*, the annotation name, \s*, star, slash. *)
Definition annotation_pattern (name : str) : regex :=
  seq [lit (py "/*"); ws_star; lit name; ws_star; lit (py "*/")].

(** Slash, star, two dashes, \s*, the annotation name, \s*, two dashes,
    star, slash. *)
Definition processed_pattern (name : str) : regex :=
  seq [lit (py "/*--"); ws_star; lit name; ws_star; lit (py "--*/")].

(** The pattern class\s+( [A-Za-z_][A-Za-z0-9_]* )\s*(?:[:{]) *)
Definition class_pattern : regex :=
  seq [lit (py "class"); ws_plus; Grp 1 ident; ws_star;
       Chr (one_of (py ":{"))].

(** The pattern ^[A-Z][A-Za-z0-9_]*\s*(?:\(|$) *)
Definition macro_call_pattern : regex :=
  seq [Bol; Chr is_upper_az; Star true (Chr is_ident); ws_star;
       Alt (chr "("%char) (Eol false)].

Definition known_annotations : list str :=
  [py "COMPONENT"; py "SCOPE"; py "VALIDATE"; py "Dto"].

Definition startswith_any (ps : list str) (s : str) : bool :=
  existsb (fun p => startswith p s) ps.

(** The look-ahead loop: [i] is the 1-based number of the first line of
    [window].  [Some] is a class found, [None] a [break] or the end of the
    window. *)
Fixpoint lookahead (name : str) (window : list str) (i : nat)
  : option (str * nat) :=
  match window with
  | [] => None
  | l :: rest =>
      let next_line := strip l in
      if startswith (py "/*") next_line
         && negb (found (re_search (annotation_pattern name) next_line))
      then lookahead name rest (S i)
      else if startswith (py "//") next_line
      then lookahead name rest (S i)
      else
        match re_search class_pattern next_line with
        | Some m => Some (group 1 m, i)
        | None =>
            match next_line with
            | [] => lookahead name rest (S i)
            | _ =>
                if negb (startswith_any known_annotations next_line
                         || found (re_match macro_call_pattern next_line)
                         || found (re_search (annotation_pattern name)
                                             next_line))
                then None
                else lookahead name rest (S i)
            end
        end
  end.

Fixpoint check_loop (name : str) (lines : list str) (line_num : nat)
  : option dto_info :=
  match lines with
  | [] => None
  | line :: rest =>
      let stripped_line := strip line in
      if found (re_search (processed_pattern name) stripped_line)
      then check_loop name rest (S line_num)
      else if startswith (py "/*") stripped_line
              && negb (found (re_search (annotation_pattern name)
                                        stripped_line))
      then check_loop name rest (S line_num)
      else if startswith (py "//") stripped_line
      then check_loop name rest (S line_num)
      else if found (re_search (annotation_pattern name) stripped_line)
      then
        match lookahead name (firstn 11 (line :: rest)) line_num with
        | Some (cname, i) => Some (DtoInfo cname line_num i)
        | None => check_loop name rest (S line_num)
        end
      else check_loop name rest (S line_num)
  end.

(** [None] in the result stands for the dictionary with [has_dto] false. *)
Definition check_dto_annotation (f : file) (serializable_annotation : str)
  : result (option dto_info) :=
  match f with
  | None => Raise UnboundLocalError
  | Some text =>
      Ret (check_loop (annotation_name serializable_annotation)
                      (readlines text) 1)
  end.

Definition check_dto_macro (f : file) (serializable_macro : str)
  : result (option dto_info) :=
  check_dto_annotation f serializable_macro.

End S1.

(** A field with a validation marker, as [extract_validation_fields]
    returns it. *)
Record vfield : Type := VField {
  v_type : str;
  v_name : str;
  v_access : str;
  v_function_name : str
}.

(** A key field, as [extract_id_fields] returns it. *)
Record id_field : Type := IdField {
  id_type : str;
  id_name : str;
  id_validation_macros : list str
}.

(** A Python dictionary with string keys, as the list of its items in
    insertion order. *)
Definition dict (V : Type) := list (str * V).

(** ** serialization/S3_inject_serialization.py *)

Module S3.

Definition remove_chr (c : ascii) (s : str) : str :=
  filter (fun x => negb (chr_eqb x c)) s.

Definition check_include_exists (f : file) (include_pattern : str) : bool :=
  match f with
  | None => false
  | Some content =>
      contains include_pattern content
      || contains (py "<" ++ include_pattern ++ py ">") content
      || contains ([dq] ++ include_pattern ++ [dq]) content
  end.

(** Index of the last line that satisfies [p], scanning from index [i]. *)
Fixpoint last_index (p : str -> bool) (lines : list str) (i : nat)
         (acc : option nat) : option nat :=
  match lines with
  | [] => acc
  | l :: rest => last_index p rest (S i) (if p l then Some i else acc)
  end.

Fixpoint first_index (p : str -> bool) (lines : list str) (i : nat)
  : option nat :=
  match lines with
  | [] => None
  | l :: rest => if p l then Some i else first_index p rest (S i)
  end.

(** [lines.insert(i, x)] for [i <= len(lines)]. *)
Definition insert_at {A : Type} (i : nat) (x : A) (l : list A) : list A :=
  firstn i l ++ x :: skipn i l.

Definition add_include_if_needed (writable : bool) (f : file)
           (include_path : str) : file :=
  if check_include_exists f
       (remove_chr dq (remove_chr ">"%char (remove_chr "<"%char include_path)))
  then f
  else
    match f with
    | None => None
    | Some text =>
        let lines := readlines text in
        let include_line := py "#include " ++ include_path ++ [nl] in
        let lines' :=
          match last_index (fun l => startswith (py "#include") (strip l))
                           lines 0 None with
          | Some last_include_idx =>
              insert_at (last_include_idx + 1) include_line lines
          | None =>
              match first_index
                      (fun l => startswith (py "#define") (strip l)
                                && contains (py "_H") l) lines 0 with
              | Some i => insert_at (i + 1) include_line lines
              | None => lines
              end
          end in
        fst (write_file writable f (writelines lines'))
    end.

Definition is_optional_type (field_type : str) : bool :=
  let field_type_clean := strip field_type in
  contains (py "optional<") field_type_clean
  || contains (py "std::optional<") field_type_clean.

(** The pattern (?:std::)?optional<(.+)> *)
Definition optional_pattern : regex :=
  seq [opt (lit (py "std::")); lit (py "optional<"); Grp 1 (plus true dot);
       chr ">"%char].

Definition extract_inner_type_from_optional (field_type : str) : str :=
  match re_search optional_pattern field_type with
  | Some m => strip (group 1 m)
  | None => field_type
  end.

Definition q (s : str) : str := [dq] ++ s ++ [dq].

Definition generate_primary_key_lines (class_name : str)
           (id_fields : list id_field) : list str :=
  (match id_fields with
   | primary_key_field :: _ =>
       let field_type := id_type primary_key_field in
       let field_name := id_name primary_key_field in
       [py "    inline " ++ field_type ++ py " GetPrimaryKey() {";
        py "        return " ++ field_name ++ py ";";
        py "    }";
        [];
        py "    inline Static StdString GetPrimaryKeyName() {";
        py "        return " ++ q field_name ++ py ";";
        py "    }"]
   | [] =>
       [py "    inline int GetPrimaryKey() {";
        py "        return 0;";
        py "    }";
        [];
        py "    inline Static StdString GetPrimaryKeyName() {";
        py "        return " ++ q [] ++ py ";";
        py "    }"]
   end)
  ++ [[];
      py "    inline Static StdString GetTableName() {";
      py "        return " ++ q class_name ++ py ";";
      py "    }"].

Definition generate_primary_key_methods (class_name : str)
           (id_fields : list id_field) : str :=
  join [nl] (generate_primary_key_lines class_name id_fields).

Definition primitive_types : list str :=
  map py ["int"; "Int"; "CInt"; "long"; "Long"; "CLong"; "float"; "Float";
          "CFloat"; "double"; "Double"; "CDouble"; "bool"; "Bool"; "CBool";
          "char"; "Char"; "CChar"; "unsigned"; "UInt"; "CUInt"; "short";
          "Short"; "CShort"]%string.

Definition is_primitive (inner_type : str) : bool :=
  existsb (fun prim => contains prim inner_type) primitive_types.

Definition is_string (inner_type : str) : bool :=
  contains (py "StdString") inner_type
  || contains (py "CStdString") inner_type
  || contains (py "string") (lower inner_type).

Definition optional_fields_of (fields : list field) : list field :=
  filter (fun fld => is_optional_type (strip (f_type fld))) fields.

(** The lines of [Serialize()] written for one optional field. *)
Definition serialize_field (fld : field) : list str :=
  let field_type := strip (f_type fld) in
  let field_name := f_name fld in
  let inner_type := extract_inner_type_from_optional field_type in
  [py "        // Serialize optional field: " ++ field_name;
   py "        if (" ++ field_name ++ py ".has_value()) {"]
  ++ (if is_string inner_type then
        [py "            doc[" ++ q field_name ++ py "] = " ++ field_name
         ++ py ".value().c_str();"]
      else if is_primitive inner_type then
        [py "            doc[" ++ q field_name ++ py "] = " ++ field_name
         ++ py ".value();"]
      else
        [py "            // Serialize nested object or enum: " ++ field_name;
         py "            // SerializeValue will use template specialization for enums (returns string like "
         ++ q (py "Off") ++ py ")";
         py "            // or call .Serialize() for complex objects (returns JSON string)";
         py "            StdString " ++ field_name
         ++ py "_json = nayan::serializer::SerializeValue(" ++ field_name
         ++ py ".value());";
         py "            // Try to parse as JSON object (for complex objects)";
         py "            JsonDocument " ++ field_name ++ py "_doc;";
         py "            DeserializationError " ++ field_name
         ++ py "_error = deserializeJson(" ++ field_name ++ py "_doc, "
         ++ field_name ++ py "_json.c_str());";
         py "            if (" ++ field_name
         ++ py "_error == DeserializationError::Ok && " ++ field_name
         ++ py "_doc.is<JsonObject>()) {";
         py "                // Complex object - add parsed JSON object";
         py "                doc[" ++ q field_name ++ py "] = " ++ field_name
         ++ py "_doc.as<JsonObject>();";
         py "            } else {";
         py "                // Enum (serialized as plain string like "
         ++ q (py "Off") ++ py " or " ++ q (py "On")
         ++ py ") - add directly as string value";
         py "                // This ensures enums are stored as strings, not integers";
         py "                doc[" ++ q field_name ++ py "] = " ++ field_name
         ++ py "_json.c_str();";
         py "            }"])
  ++ [py "        } else {";
      py "            doc[" ++ q field_name ++ py "] = nullptr;";
      py "        }"].

Definition serialize_lines (fields : list field) : list str :=
  [py "    // Serialization method";
   py "    Public StdString Serialize() const {";
   py "        // Create JSON document";
   py "        JsonDocument doc;";
   []]
  ++ (match optional_fields_of fields with
      | [] => [py "        // No optional fields to serialize"]
      | optional_fields => flat_map serialize_field optional_fields
      end)
  ++ [[];
      py "        // Serialize to string";
      py "        StdString output;";
      py "        serializeJson(doc, output);";
      [];
      py "        return StdString(output.c_str());";
      py "    }";
      []].

(** The lines of [ValidateFields] written for one field of one marker. *)
Definition validate_field (macro_name : str) (fld : vfield) : list str :=
  let field_name := v_name fld in
  let field_type := strip (v_type fld) in
  let function_name := v_function_name fld in
  let nested : option str :=
    if is_optional_type field_type then
      let inner_type := extract_inner_type_from_optional field_type in
      if negb (is_primitive inner_type) && negb (is_string inner_type)
      then Some inner_type else None
    else None in
  (match nested with
   | Some ((_ :: _) as nested_type) =>
       [py "        // First validate nested object: " ++ field_name;
        py "        if (!doc[" ++ q field_name ++ py "].isNull()) {";
        py "            // Extract nested object and convert to JsonDocument for validation";
        py "            JsonObject " ++ field_name ++ py "_obj = doc["
        ++ q field_name ++ py "].template as<JsonObject>();";
        py "            JsonDocument " ++ field_name ++ py "_doc;";
        py "            // Copy the JsonObject into JsonDocument";
        py "            " ++ field_name ++ py "_doc.set(" ++ field_name
        ++ py "_obj);";
        py "            // Validate nested object's fields";
        py "            StdString " ++ field_name ++ py "_nested_errors = "
        ++ nested_type ++ py "::ValidateFields(" ++ field_name ++ py "_doc);";
        py "            if (!" ++ field_name ++ py "_nested_errors.empty()) {";
        py "                if (!validationErrors.empty()) validationErrors += "
        ++ q (py ",\n") ++ py ";";
        py "                validationErrors += "
        ++ q (py "Validation errors in nested object '" ++ field_name
              ++ py "': ") ++ py ";";
        py "                validationErrors += " ++ field_name
        ++ py "_nested_errors;";
        py "            }";
        py "        }";
        []]
   | _ => []
   end)
  ++ (let qualified_function_name :=
        if negb (startswith (py "nayan::") function_name)
        then py "nayan::validation::" ++ function_name
        else function_name in
      [py "        // Validate " ++ macro_name ++ py " field: " ++ field_name;
       py "        " ++ qualified_function_name ++ py "(doc, " ++ q field_name
       ++ py ", validationErrors);"]).

Definition validate_lines (validation_fields_by_macro : dict (list vfield))
  : list str :=
  [py "        // Validation method for all validation macros";
   py "        #pragma GCC diagnostic push";
   py "        #pragma GCC diagnostic ignored " ++ q (py "-Wunused-parameter");
   py "        Public template<typename DocType>";
   py "        Static StdString ValidateFields(DocType& doc) {";
   py "        StdString validationErrors;";
   []]
  ++ (match validation_fields_by_macro with
      | [] => [py "        // No validation macros defined for this class"]
      | _ =>
          flat_map (fun item =>
                      flat_map (validate_field (fst item)) (snd item))
                   validation_fields_by_macro
      end)
  ++ [[];
      py "        return validationErrors;";
      py "    }";
      py "        #pragma GCC diagnostic pop";
      []].

(** The assignment written for a primitive field. *)
Definition primitive_assignment (indent field_name inner_type : str) : str :=
  let as_type :=
    if contains (py "bool") (lower inner_type) || contains (py "Bool") inner_type
    then py "bool"
    else if contains (py "int") (lower inner_type)
            || contains (py "Int") inner_type
    then py "int"
    else if contains (py "float") (lower inner_type)
            || contains (py "Float") inner_type
    then py "float"
    else if contains (py "double") (lower inner_type)
            || contains (py "Double") inner_type
    then py "double"
    else if contains (py "char") (lower inner_type)
            || contains (py "Char") inner_type
    then py "char"
    else inner_type in
  indent ++ py "obj." ++ field_name ++ py " = doc[" ++ q field_name
  ++ py "].as<" ++ as_type ++ py ">();".

(** The statements that read one field back, at indentation [indent]. *)
Definition deserialize_value (indent field_name inner_type : str)
  : list str :=
  if is_string inner_type then
    [indent ++ py "obj." ++ field_name ++ py " = StdString(doc["
     ++ q field_name ++ py "].as<const char*>());"]
  else if is_primitive inner_type then
    [primitive_assignment indent field_name inner_type]
  else
    [indent ++ py "// Deserialize nested object or enum: " ++ field_name;
     indent ++ py "StdString " ++ field_name ++ py "_json;";
     indent ++ py "if (doc[" ++ q field_name ++ py "].is<const char*>()) {";
     indent ++ py "    // Enum or string value - extract directly";
     indent ++ py "    " ++ field_name ++ py "_json = StdString(doc["
     ++ q field_name ++ py "].as<const char*>());";
     indent ++ py "} else {";
     indent ++ py "    // Complex object - serialize to JSON string";
     indent ++ py "    JsonObject " ++ field_name ++ py "_obj = doc["
     ++ q field_name ++ py "].as<JsonObject>();";
     indent ++ py "    serializeJson(" ++ field_name ++ py "_obj, "
     ++ field_name ++ py "_json);";
     indent ++ py "}";
     indent ++ py "obj." ++ field_name
     ++ py " = nayan::serializer::DeserializeValue<" ++ inner_type ++ py ">("
     ++ field_name ++ py "_json);"].

Definition has_field_named (field_name : str) (fields_list : list vfield)
  : bool :=
  existsb (fun f => str_eqb (v_name f) field_name) fields_list.

(** The lines of [Deserialize] written for one optional field. *)
Definition deserialize_field (validation_fields_by_macro : dict (list vfield))
           (fld : field) : list str :=
  let field_type := strip (f_type fld) in
  let field_name := f_name fld in
  let is_validated :=
    existsb (fun item => has_field_named field_name (snd item))
            validation_fields_by_macro in
  let inner_type := extract_inner_type_from_optional field_type in
  if is_validated then
    let validation_macros :=
      map fst (filter (fun item => has_field_named field_name (snd item))
                      validation_fields_by_macro) in
    let validation_desc :=
      match validation_macros with
      | [] => py "validated"
      | _ => join (py "+") validation_macros
      end in
    (py "        // Deserialize " ++ validation_desc ++ py " field: "
     ++ field_name ++ py " (already validated)")
    :: deserialize_value (py "        ") field_name inner_type
  else
    [py "        // Deserialize optional field: " ++ field_name;
     py "        if (!doc[" ++ q field_name ++ py "].isNull()) {"]
    ++ deserialize_value (py "            ") field_name inner_type
    ++ [py "        }"].

Definition deserialize_lines (class_name : str) (fields : list field)
           (validation_fields_by_macro : dict (list vfield)) : list str :=
  [py "    // Deserialization method";
   py "    Public Static " ++ class_name
   ++ py " Deserialize(const StdString& input) {";
   py "        // Create JSON document";
   py "        JsonDocument doc;";
   [];
   py "        // Deserialize JSON string";
   py "        DeserializationError error = deserializeJson(doc, input.c_str());";
   [];
   py "        if (error) {";
   py "            StdString errorMsg = " ++ q (py "JSON parse error: ")
   ++ py ";";
   py "            errorMsg += error.c_str();";
   py "            throw std::runtime_error(errorMsg.c_str());";
   py "        }";
   [];
   py "        // Validate all fields with validation macros";
   py "        StdString validationErrors = ValidateFields(doc);";
   py "        if (!validationErrors.empty()) {";
   py "            throw std::runtime_error(validationErrors.c_str());";
   py "        }";
   [];
   py "        // Create object with default constructor";
   py "        " ++ class_name ++ py " obj;";
   [];
   py "        // Assign values from JSON if present (only optional fields)"]
  ++ (match optional_fields_of fields with
      | [] => [py "        // No optional fields to deserialize"]
      | optional_fields =>
          flat_map (deserialize_field validation_fields_by_macro)
                   optional_fields
      end)
  ++ [[];
      py "        return obj;";
      py "    }";
      []].

Definition generate_serialization_methods (class_name : str)
           (fields : list field)
           (validation_fields_by_macro : dict (list vfield))
           (id_fields : list id_field) : str :=
  let code_lines :=
    serialize_lines fields
    ++ validate_lines validation_fields_by_macro
    ++ deserialize_lines class_name fields validation_fields_by_macro
    ++ [py "    // Primary key methods"]
    ++ split_nl (generate_primary_key_methods class_name id_fields) in
  join [nl] code_lines.

End S3.

(** ** S3_inject_serialization.py: the marker mutator and the injector *)

Module S3Inject.

Import S3.

(** The processed marker alone on its line: ^, slash, star, two dashes, \s*,
    the name, \s*, two dashes, star, slash, \s*, $ *)
Definition processed_line_pattern (name : str) : regex :=
  seq [Bol; lit (py "/*--"); ws_star; lit name; ws_star; lit (py "--*/");
       ws_star; Eol false].

(** The marker alone on its line: ^, slash, star, \s*, the name, \s*, star,
    slash, \s*, $ *)
Definition annotation_line_pattern (name : str) : regex :=
  seq [Bol; lit (py "/*"); ws_star; lit name; ws_star; lit (py "*/");
       ws_star; Eol false].

Definition processed_marker (name : str) : str :=
  py "/*--" ++ name ++ py "--*/" ++ [nl].

(** One turn of the loop: the line appended to [modified_lines] and
    whether [modified] is set. *)
Definition mark_line (dry_run : bool) (name : str) (line : str)
  : str * bool :=
  let stripped_line := strip line in
  if found (re_match (processed_line_pattern name) stripped_line)
  then (line, false)
  else if found (re_match (annotation_line_pattern name) stripped_line)
  then
    if startswith (py " ") line then
      let indent := length line - length (lstrip line) in
      if negb dry_run then (spaces indent ++ processed_marker name, true)
      else (line, true)
    else
      if negb dry_run then (processed_marker name, true)
      else (line, true)
  else (line, false).

Definition mark_dto_annotation_processed (writable : bool) (f : file)
           (dry_run : bool) (serializable_annotation : str) : file * bool :=
  match f with
  | None => (None, false)
  | Some text =>
      let lines := readlines text in
      let name := S1.annotation_name serializable_annotation in
      let marked := map (mark_line dry_run name) lines in
      let modified := existsb snd marked in
      let modified_lines := map fst marked in
      if modified && negb dry_run
      then write_file writable f (writelines modified_lines)
      else (f, true)
  end.

Definition comment_dto_macro (writable : bool) (f : file) (dry_run : bool)
           (serializable_macro : str) : file * bool :=
  mark_dto_annotation_processed writable f dry_run serializable_macro.

(** A line that is neither blank nor the start of a comment. *)
Definition is_code_line (l : str) : bool :=
  let line := strip l in
  match line with
  | [] => false
  | _ => negb (startswith (py "//") line) && negb (startswith (py "/*") line)
  end.

(** The downward scan [for i in range(hi, lo - 1, -1)] over [count] indices
    ending at [lo]: the first [i] whose line is code. *)
Fixpoint scan_down (lines : list str) (lo count : nat) : option nat :=
  match count with
  | O => None
  | S n =>
      let i := lo + n in
      if is_code_line (nth i lines []) then Some i
      else scan_down lines lo n
  end.

(** [insert_idx] for the span [(start_line, end_line)]. *)
Definition insert_index (lines : list str) (start_line end_line : nat) : nat :=
  let closing_line_idx := end_line - 1 in
  match scan_down lines (start_line - 1) (closing_line_idx - (start_line - 1))
  with
  | Some i => i + 1
  | None => closing_line_idx
  end.

Definition indent_of (lines : list str) (insert_idx : nat) : str :=
  match insert_idx with
  | O => py "    "
  | S k =>
      let prev := nth k lines [] in
      match prev with
      | [] => py "    "
      | _ =>
          let leading_spaces := length prev - length (lstrip prev) in
          if Nat.ltb 0 leading_spaces then firstn leading_spaces prev
          else py "    "
      end
  end.

Definition indent_methods (indent : str) (methods_code : str) : list str :=
  map (fun line =>
         match strip line with
         | [] => [nl]
         | _ => indent ++ line ++ [nl]
         end)
      (split_nl methods_code).

(** [lines[i:i] = new] *)
Definition splice {A : Type} (i : nat) (new : list A) (l : list A) : list A :=
  firstn i l ++ new ++ skipn i l.

Definition already_injected (class_content : str) : bool :=
  contains (py "Serialize()") class_content
  && contains (py "Deserialize(") class_content
  && contains (py "GetPrimaryKey()") class_content.

Definition inject_methods_into_class (writable : bool) (f : file)
           (class_name : str) (methods_code : str) (dry_run : bool)
  : file * bool :=
  match f with
  | None => (None, false)
  | Some text =>
      let lines := readlines text in
      match S2.find_class_boundaries f class_name with
      | Raise _ => (f, false) (* not reached: the file was just read *)
      | Ret None => (f, false)
      | Ret (Some (start_line, end_line)) =>
          let class_content :=
            List.concat (slice (start_line - 1) end_line lines) in
          if already_injected class_content then (f, true)
          else if dry_run then (f, true)
          else
            let insert_idx := insert_index lines start_line end_line in
            let indent := indent_of lines insert_idx in
            let indented_methods := indent_methods indent methods_code in
            let lines' := splice insert_idx ([nl] :: indented_methods) lines in
            write_file writable f (writelines lines')
      end
  end.

End S3Inject.

(** ** serialization/S7_extract_validation_fields.py *)

Module S7.

Definition is_string_type (field_type : str) : bool :=
  let field_type_clean := strip field_type in
  let field_type_clean :=
    if contains (py "optional<") (lower field_type_clean) then
      match re_search (seq [opt (liti (py "std::")); liti (py "optional<");
                            Grp 1 (plus true dot); chr ">"%char])
                      field_type_clean with
      | Some m => strip (group 1 m)
      | None => field_type_clean
      end
    else field_type_clean in
  let field_type_lower := lower field_type_clean in
  existsb (fun st => contains st field_type_lower)
          [py "stdstring"; py "cstdstring"; py "std::string";
           py "const std::string"; py "string"].

Fixpoint lookup {V : Type} (k : str) (d : dict V) : option V :=
  match d with
  | [] => None
  | (k', v) :: rest => if str_eqb k k' then Some v else lookup k rest
  end.

(** The function name bound to a marker and whether it needs a string. *)
Definition get_validation_function_info (validation_macros : dict str)
           (macro_name : str) : option (str * bool) :=
  match lookup macro_name validation_macros with
  | None => None
  | Some function_name =>
      Some (function_name,
            contains (py "NotBlank") function_name
            || contains (py "NotEmpty") function_name
            || contains (py "String") function_name)
  end.

(** The pattern ///\s*@NAME\b *)
Definition annotation_pattern (macro_name : str) : regex :=
  seq [lit (py "///"); ws_star; chr "@"%char; lit macro_name; Wb].

Definition validation_pattern (macro_names : list str) : regex :=
  alts (map annotation_pattern macro_names).

Definition visibility : regex :=
  alts [lit (py "Public"); lit (py "Private"); lit (py "Protected")].

(** The pattern, with blanks added inside the capturing groups:
    ^\s*(?:Public|Private|Protected)?\s*( [A-Za-z_][A-Za-z0-9_<>*&,\s]*? )
    \s+( [A-Za-z_][A-Za-z0-9_]* )\s*[;=] *)
Definition field_pattern : regex :=
  seq [Bol; ws_star; opt visibility; ws_star;
       Grp 1 (Cat (Chr is_alpha_) (Star false (Chr type_chr)));
       ws_plus; Grp 2 ident; ws_star; Chr (one_of (py ";="))].

Definition builtin_markers : regex :=
  alts [lit (py "NotNull"); lit (py "NotEmpty"); lit (py "NotBlank");
        lit (py "Id"); lit (py "Entity"); lit (py "Serializable")].

(** The pattern ///\s*@(NotNull|NotEmpty|NotBlank|Id|Entity|Serializable)\b *)
Definition builtin_marker_pattern : regex :=
  seq [lit (py "///"); ws_star; chr "@"%char; Grp 1 builtin_markers; Wb].

(** The pattern ^\s*(Dto|Serializable|COMPONENT|SCOPE|VALIDATE|
    ///\s*@(NotNull|NotEmpty|NotBlank|Id|Entity|Serializable))\s*$ *)
Definition stop_pattern : regex :=
  seq [Bol; ws_star;
       Grp 1 (alts [lit (py "Dto"); lit (py "Serializable");
                    lit (py "COMPONENT"); lit (py "SCOPE");
                    lit (py "VALIDATE");
                    seq [lit (py "///"); ws_star; chr "@"%char;
                         Grp 2 builtin_markers]]);
       ws_star; Eol false].

(** The look-ahead for the field that follows a marker. *)
Fixpoint lookahead (macro_names : list str) (current_access : option str)
         (info : str * bool) (window : list str) : option vfield :=
  match window with
  | [] => None
  | l :: rest =>
      let next_line := strip l in
      let continue := lookahead macro_names current_access info rest in
      if startswith (py "/*") next_line then continue
      else if startswith (py "//") next_line
              && negb (found (re_search builtin_marker_pattern next_line))
      then continue
      else
        match next_line with
        | [] => continue
        | _ =>
            if found (re_search (validation_pattern macro_names) next_line)
            then continue
            else
              match re_search field_pattern next_line with
              | Some m =>
                  let field_type := strip (group 1 m) in
                  let field_name := strip (group 2 m) in
                  if negb (has_paren next_line)
                     && negb (is_access_keyword field_name)
                  then
                    let entry :=
                      VField field_type field_name
                             (match current_access with
                              | Some a => a
                              | None => py "none"
                              end)
                             (fst info) in
                    if snd info then
                      if is_string_type field_type then Some entry else None
                    else Some entry
                  else None
              | None =>
                  if found (re_search access_pattern next_line)
                     || found (re_search stop_pattern next_line)
                  then None
                  else continue
              end
        end
  end.

(** The [while] loop: the fields found, each with its marker, in order. *)
Fixpoint scan (validation_macros : dict str) (macro_names : list str)
         (current_access : option str) (class_lines : list str)
  : list (str * vfield) :=
  match class_lines with
  | [] => []
  | line :: rest =>
      let stripped := strip line in
      let next := scan validation_macros macro_names current_access rest in
      if startswith (py "/*") stripped then next
      else if startswith (py "//") stripped
              && negb (found (re_search (validation_pattern macro_names)
                                        stripped))
      then next
      else
        match stripped with
        | [] => next
        | _ =>
            match re_search access_pattern stripped with
            | Some m =>
                scan validation_macros macro_names
                     (Some (lower (group 1 m))) rest
            | None =>
                if found (re_search (validation_pattern macro_names) stripped)
                then
                  match find (fun macro_name =>
                                found (re_search (annotation_pattern macro_name)
                                                 stripped)) macro_names with
                  | Some [] => next
                  | Some matched_annotation =>
                      match get_validation_function_info validation_macros
                                                         matched_annotation with
                      | Some info =>
                          match lookahead macro_names current_access info
                                          (firstn 10 rest) with
                          | Some entry => (matched_annotation, entry) :: next
                          | None => next
                          end
                      | None => next
                      end
                  | None => next
                  end
                else next
            end
        end
  end.

(** The final dictionary: one entry per marker that has fields, in the
    order of the markers.  The keys of [validation_macros] are distinct, as
    those of a dictionary are. *)
Definition collect (macro_names : list str) (hits : list (str * vfield))
  : dict (list vfield) :=
  filter (fun item => match snd item with [] => false | _ => true end)
         (map (fun macro =>
                 (macro,
                  map snd (filter (fun h => str_eqb (fst h) macro) hits)))
              macro_names).

Definition extract_validation_fields (f : file) (class_name : str)
           (validation_macros : dict str) : result (dict (list vfield)) :=
  boundaries <- S2.find_class_boundaries f class_name ;;
  match boundaries with
  | None => Ret []
  | Some (start_line, end_line) =>
      match f with
      | None => Raise UnboundLocalError
      | Some text =>
          let class_lines := slice (start_line - 1) end_line (readlines text) in
          let macro_names := map fst validation_macros in
          match macro_names with
          | [] => Ret []
          | _ =>
              Ret (collect macro_names
                           (scan validation_macros macro_names None
                                 class_lines))
          end
      end
  end.

End S7.

(** ** extract_id_fields.py *)

Module ExtractIdFields.

(** Slash, star, \s*, @NAME, \s*, star, slash. *)
Definition annotation_pattern (macro_name : str) : regex :=
  seq [lit (py "/*"); ws_star; chr "@"%char; lit macro_name; ws_star;
       lit (py "*/")].

Definition id_annotation_pattern : regex :=
  seq [lit (py "/*"); ws_star; lit (py "@Id"); ws_star; lit (py "*/")].

Definition id_processed_pattern : regex :=
  seq [lit (py "/*--"); ws_star; lit (py "@Id"); ws_star; lit (py "--*/")].

(** The pattern, with blanks added inside the capturing groups:
    ^\s*(?:Public|Private|Protected)?\s*(?:const\s+)?
    ( [A-Za-z_][A-Za-z0-9_<>*&,\s]*? )\s+( [A-Za-z_][A-Za-z0-9_]* )\s*[;=] *)
Definition field_pattern : regex :=
  seq [Bol; ws_star; opt S7.visibility; ws_star;
       opt (Cat (lit (py "const")) ws_plus);
       Grp 1 (Cat (Chr is_alpha_) (Star false (Chr type_chr)));
       ws_plus; Grp 2 ident; ws_star; Chr (one_of (py ";="))].

(** The pattern ^\s*(Dto|Serializable|_Entity|COMPONENT|SCOPE|VALIDATE|
    ///\s*@(Id|Entity|Serializable|NotNull|NotEmpty|NotBlank))\s*$ *)
Definition stop_pattern : regex :=
  seq [Bol; ws_star;
       Grp 1 (alts [lit (py "Dto"); lit (py "Serializable");
                    lit (py "_Entity"); lit (py "COMPONENT");
                    lit (py "SCOPE"); lit (py "VALIDATE");
                    seq [lit (py "///"); ws_star; chr "@"%char;
                         Grp 2 (alts [lit (py "Id"); lit (py "Entity");
                                      lit (py "Serializable");
                                      lit (py "NotNull"); lit (py "NotEmpty");
                                      lit (py "NotBlank")])]]);
       ws_star; Eol false].

(** [validation_pattern and re.search(validation_pattern, line)]: the
    pattern is [None] when no marker is known. *)
Definition validation_hit (macro_names : list str) (line : str) : bool :=
  match macro_names with
  | [] => false
  | _ => found (re_search (alts (map annotation_pattern macro_names)) line)
  end.

Fixpoint lookahead (macro_names : list str)
         (validation_macros_found : list str) (window : list str)
  : option id_field :=
  match window with
  | [] => None
  | l :: rest =>
      let next_line := strip l in
      let continue := lookahead macro_names validation_macros_found rest in
      if startswith (py "/*") next_line
         && negb (found (re_search id_annotation_pattern next_line)
                  || validation_hit macro_names next_line)
      then continue
      else if startswith (py "//") next_line then continue
      else
        match next_line with
        | [] => continue
        | _ =>
            if validation_hit macro_names next_line then
              match find (fun macro_name =>
                            found (re_search (annotation_pattern macro_name)
                                             next_line)) macro_names with
              | Some [] => continue
              | Some matched_annotation =>
                  lookahead macro_names
                            (validation_macros_found ++ [matched_annotation])
                            rest
              | None => continue
              end
            else
              match re_search field_pattern next_line with
              | Some m =>
                  let field_type := strip (group 1 m) in
                  let field_name := strip (group 2 m) in
                  if negb (has_paren next_line)
                     && negb (is_access_keyword field_name)
                  then Some (IdField field_type field_name
                                     validation_macros_found)
                  else None
              | None =>
                  if found (re_search access_pattern next_line)
                     || found (re_search stop_pattern next_line)
                  then None
                  else continue
              end
        end
  end.

Fixpoint scan (macro_names : list str) (class_lines : list str)
  : list id_field :=
  match class_lines with
  | [] => []
  | line :: rest =>
      let stripped := strip line in
      let next := scan macro_names rest in
      if startswith (py "/*") stripped
         && negb (found (re_search id_annotation_pattern stripped))
      then next
      else if startswith (py "//") stripped then next
      else
        match stripped with
        | [] => next
        | _ =>
            if found (re_search id_processed_pattern stripped) then next
            else if found (re_search id_annotation_pattern stripped) then
              match lookahead macro_names [] (firstn 15 rest) with
              | Some fld => fld :: next
              | None => next
              end
            else next
        end
  end.

(** The branch taken when the serialization scripts are importable
    ([HAS_SERIALIZATIONLIB]); [validation_macros] is the table the call
    discovers when none is passed. *)
Definition extract_id_fields (f : file) (class_name : str)
           (validation_macros : dict str) : result (list id_field) :=
  match f with
  | None => Ret []
  | Some text =>
      boundaries <- S2.find_class_boundaries f class_name ;;
      match boundaries with
      | None => Ret []
      | Some (start_line, end_line) =>
          let class_lines := slice (start_line - 1) end_line (readlines text) in
          Ret (scan (map fst validation_macros) class_lines)
      end
  end.

End ExtractIdFields.

(** ** inject_primary_key_methods.py: the injector *)

Module PrimaryKeyInject.

Definition generate_primary_key_methods (field_type field_name class_name : str)
  : str :=
  join [nl]
       [py "    inline " ++ field_type ++ py " GetPrimaryKey() {";
        py "        return " ++ field_name ++ py ";";
        py "    }";
        [];
        py "    inline Static StdString GetPrimaryKeyName() {";
        py "        return " ++ S3.q field_name ++ py ";";
        py "    }";
        [];
        py "    inline Static StdString GetTableName() {";
        py "        return " ++ S3.q class_name ++ py ";";
        py "    }"].

Fixpoint takewhile (p : ascii -> bool) (s : str) : str :=
  match s with
  | [] => []
  | c :: t => if p c then c :: takewhile p t else []
  end.

Definition inject_primary_key_methods (writable : bool) (f : file)
           (class_name field_type field_name : str) (dry_run : bool)
  : file * bool :=
  match f with
  | None => (None, false)
  | Some text =>
      let lines := readlines text in
      match PrimaryKey.find_class_boundaries f class_name with
      | None => (f, false)
      | Some (start_line, end_line) =>
          let closing_line_idx := end_line - 1 in
          let class_content :=
            List.concat (slice (start_line - 1) end_line lines) in
          if contains (py "GetPrimaryKey()") class_content
             || contains (py "GetTableName()") class_content
          then (f, false)
          else
            let methods_code :=
              generate_primary_key_methods field_type field_name class_name in
            let closing_line := nth closing_line_idx lines [] in
            let indent := takewhile isspace closing_line in
            let indented_methods :=
              map (fun line =>
                     match strip line with
                     | [] => []
                     | _ => indent ++ line
                     end)
                  (split_nl methods_code) in
            let methods_code := join [nl] indented_methods in
            if dry_run then (f, true)
            else
              let insert_position :=
                S3Inject.insert_index lines start_line end_line in
              let methods_code := [nl] ++ methods_code in
              let methods_lines :=
                map (fun line => line ++ [nl]) (split_nl methods_code) in
              write_file writable f
                (writelines
                   (S3Inject.splice insert_position methods_lines lines))
      end
  end.

End PrimaryKeyInject.

(** ** repository/process_repository.py: the marker mutator *)

Module ProcessRepository.

(** The pattern ^///\s*@Repository\s*$ *)
Definition annotation_line_pattern : regex :=
  seq [Bol; lit (py "///"); ws_star; lit (py "@Repository"); ws_star;
       Eol false].

(** The processed marker alone on its line: ^, slash, star, \s*,
    @Repository, \s*, star, slash, \s*, $ *)
Definition processed_line_pattern : regex :=
  seq [Bol; lit (py "/*"); ws_star; lit (py "@Repository"); ws_star;
       lit (py "*/"); ws_star; Eol false].

Definition is_annotation_line (line : str) : bool :=
  found (re_match annotation_line_pattern (strip line)).

Definition is_processed_line (line : str) : bool :=
  found (re_match processed_line_pattern (strip line)).

Definition processed_marker : str := py "/* @Repository */".

Definition rewrite_line (line : str) : str :=
  if startswith (py " ") line then
    let indent := length line - length (lstrip line) in
    spaces indent ++ processed_marker
  else processed_marker.

(** The first loop: rewrite the first annotation line and [break]. *)
Fixpoint rewrite_first (lines : list str) : list str * bool :=
  match lines with
  | [] => ([], false)
  | line :: rest =>
      if is_annotation_line line then (rewrite_line line :: rest, true)
      else
        let (rest', modified) := rewrite_first rest in
        (line :: rest', modified)
  end.

Definition comment_repository_annotation (writable : bool) (f : file)
           (dry_run : bool) : file * bool :=
  match f with
  | None => (None, false)
  | Some content =>
      let lines := split_nl content in
      let (lines', modified) := rewrite_first lines in
      if negb modified then (f, existsb is_processed_line lines)
      else if dry_run then (f, true)
      else write_file writable f (join [nl] lines')
  end.

End ProcessRepository.

(** ** serialization/00_process_serializable_classes.py: one file *)

Module Pipeline.

(** What [process_all_serializable_classes] does to one existing header
    file.  [validation_macros] is the table [find_validation_macro_definitions]
    returns during the run; the enum script of the sibling library is
    absent ([S8_handle_enum_serialization] is [None]). *)
Definition process_file (writable : bool) (validation_macros : dict str)
           (serializable_macro : str) (dry_run : bool) (f : file)
  : result file :=
  dto_info <- S1.check_dto_macro f serializable_macro ;;
  match dto_info with
  | None => Ret f
  | Some info =>
      let class_name := S1.class_name info in
      fields <- S2.extract_all_fields f class_name ;;
      let optional_fields := S3.optional_fields_of fields in
      validation_fields_by_macro <-
        S7.extract_validation_fields f class_name validation_macros ;;
      let id_fields :=
        match ExtractIdFields.extract_id_fields f class_name
                                                validation_macros with
        | Ret l => l
        | Raise _ => []
        end in
      let methods_code :=
        S3.generate_serialization_methods class_name fields
          validation_fields_by_macro id_fields in
      let f1 :=
        if negb dry_run then
          match optional_fields with
          | [] => f
          | _ => S3.add_include_if_needed writable f (py "<optional>")
          end
        else f in
      let (f2, success) :=
        S3Inject.inject_methods_into_class writable f1 class_name methods_code
                                           dry_run in
      if success then
        if negb dry_run
        then Ret (fst (S3Inject.comment_dto_macro writable f2 false
                                                  serializable_macro))
        else Ret f2
      else Ret f2
  end.

(** The production run: not a dry run, the default marker. *)
Definition pipeline (writable : bool) (validation_macros : dict str)
           (f : file) : result file :=
  process_file writable validation_macros (py "_Entity") false f.

End Pipeline.

(** ** What the matcher computes *)

(** [Match r st st']: the pattern [r] can take the matcher from position
    [st] to position [st']. *)
Inductive Match : regex -> mstate -> mstate -> Prop :=
| MEps : forall st, Match Eps st st
| MChr : forall p c t prev caps,
    p c = true ->
    Match (Chr p) (MS prev (c :: t) caps) (MS (Some c) t caps)
| MCat : forall a b st1 st2 st3,
    Match a st1 st2 -> Match b st2 st3 -> Match (Cat a b) st1 st3
| MAltL : forall a b st st', Match a st st' -> Match (Alt a b) st st'
| MAltR : forall a b st st', Match b st st' -> Match (Alt a b) st st'
| MStar0 : forall g a st, Match (Star g a) st st
| MStarS : forall g a st1 st2 st3,
    Match a st1 st2 -> progress st1 st2 = true ->
    Match (Star g a) st2 st3 -> Match (Star g a) st1 st3
| MGrp : forall n a st st',
    Match a st st' -> Match (Grp n a) st (set_cap n st st')
| MBol : forall st, ms_prev st = None -> Match Bol st st
| MEol : forall m st, at_eol m st = true -> Match (Eol m) st st
| MWb : forall st, at_wb st = true -> Match Wb st st.

(** The character before the position reached after reading [w]. *)
Definition prev_after (w : str) (prev : option ascii) : option ascii :=
  match rev w with
  | [] => prev
  | c :: _ => Some c
  end.

(** ** Vocabulary of the statements *)

(** When [name] carries [action]: it starts with the action followed by
    [By], or it is the action alone, or the action with [All] or [ById]. *)
Definition carries (name action : str) : Prop :=
  startswith (action ++ py "By") name = true
  \/ name = action \/ name = action ++ py "All" \/ name = action ++ py "ById".

(** A pattern without capturing groups. *)
Fixpoint groupless (r : regex) : bool :=
  match r with
  | Cat a b | Alt a b => groupless a && groupless b
  | Star _ a => groupless a
  | Grp _ _ => false
  | _ => true
  end.

(** A character other than the newline. *)
Definition not_nl (c : ascii) : bool := negb (chr_eqb c nl).

(** A file with an unprocessed annotation for one repository and, after
    it, the processed marker of another. *)
Definition two_markers_pre : str :=
  py "/// @Repository
DefineStandardPointers(UserRepository)
class UserRepository : public CpaRepository<User, int> {};
".

(** A line that starts a span for [class_name]: not skipped as a comment,
    and its stripped text matches the class pattern. *)
Definition decl_line (class_name : str) (line : str) : bool :=
  negb (is_comment_line (strip line))
  && found (re_search (class_decl_pattern class_name) (strip line)).

(** The net brace count of the lines the locator does not skip. *)
Fixpoint balance (lines : list str) : Z :=
  match lines with
  | [] => 0%Z
  | l :: rest =>
      ((if is_comment_line (strip l) then 0 else brace_delta (strip l))
       + balance rest)%Z
  end.

(** The text holds the keyword, white space and the name, in that order
    and next to each other. *)
Definition holds_class_decl (class_name : str) (s : str) : Prop :=
  exists pre w post,
    s = pre ++ py "class" ++ w ++ class_name ++ post
    /\ w <> [] /\ forallb isspace w = true.

(** A header that declares [FooBar] and no [Foo]. *)
Definition foobar_header : str :=
  py "class FooBar {
    int a;
};
".

(** A header that declares [FooBar] and, after it, the annotated class
    [Foo]; and the same header after the pipeline has run on it. *)
Definition foobar_foo_header : str :=
  py "class FooBar {
    int a;
};
/* @Entity */
class Foo {
    int b;
};
".

(** The lines [inject_methods_into_class] makes, at an indentation of [n]
    spaces, of the methods generated for a class without optional,
    validated or key fields. *)
Definition methods_block (class_name : str) (n : nat) : str :=
  List.concat
    ([nl] :: S3Inject.indent_methods (spaces n)
               (S3.generate_serialization_methods class_name [] [] [])).

Definition foobar_foo_processed : str :=
  py "class FooBar {
    int a;
" ++ methods_block (py "Foo") 4 ++ py "};
/*--@Entity--*/
class Foo {
    int b;
};
".

(** A class declared on the line that closes a namespace, and the header
    after [void f();] was injected for the class. *)
Definition namespace_header : str :=
  py "namespace a {
} class Foo
{
    int x;
};
".

Definition namespace_injected : str :=
  py "namespace a {
} class Foo

    void f();
{
    int x;
};
".

(** A class in the usual layout. *)
Definition customer_header : str :=
  py "/* @Entity */
class Customer {
    // the key
    int id;
};
".

(** The bytes of [customer_header] written with carriage return and
    newline at the end of every line. *)
Definition customer_header_crlf : str :=
  flat_map (fun c => if chr_eqb c nl then [cr; nl] else [c]) customer_header.

(** A class whose braces never close. *)
Definition unclosed_header : str :=
  py "class Foo {
    int a;
".

(** Two annotated classes in one header. *)
Definition two_entities_header : str :=
  py "/* @Entity */
class A {
};
    /* @Entity */
class B {
};
".

(** The same header after one call of the Entity mutator. *)
Definition two_entities_marked : str :=
  py "/*--@Entity--*/
class A {
};
    /*--@Entity--*/
class B {
};
".

(** The same header after the pipeline has run on it once. *)
Definition two_entities_processed : str :=
  py "/*--@Entity--*/
class A {
" ++ methods_block (py "A") 4 ++ py "};
    /*--@Entity--*/
class B {
};
".

Definition tab : ascii := "009"%char.

(** Two annotated repositories in one header, and what one call of the
    Repository mutator leaves. *)
Definition two_repositories_header : str :=
  py "  /// @Repository
class A {};
/// @Repository
class B {};".

Definition two_repositories_marked : str :=
  py "  /* @Repository */
class A {};
/// @Repository
class B {};".

(** A line the Entity mutator rewrites: the marker alone on the line and
    not yet processed. *)
Definition is_unprocessed_entity_line (name line : str) : bool :=
  negb (found (re_match (S3Inject.processed_line_pattern name) (strip line)))
  && found (re_match (S3Inject.annotation_line_pattern name) (strip line)).

(** A line the Entity mutator recognises as processed. *)
Definition is_processed_entity_line (name line : str) : bool :=
  found (re_match (S3Inject.processed_line_pattern name) (strip line)).

(** The header of the class [Customer] after [void f();] was injected. *)
Definition customer_injected : str :=
  py "/* @Entity */
class Customer {
    // the key
    int id;

    void f();
};
".



(** A class written on one line, with the marker behind it. *)
Definition one_line_entity : str :=
  py "class Foo { }; /* @Entity */
".

(** A class with the marker behind its opening brace. *)
Definition marker_after_brace : str :=
  py "class Foo { /* @Entity */
    int x;
};
".

(** The methods generated for a class [Foo] without fields, and the lines
    [inject_methods_into_class] makes of them at an indentation of [n]
    spaces. *)
Definition foo_methods : str :=
  S3.generate_serialization_methods (py "Foo") [] [] [].

Definition foo_block (n : nat) : str :=
  List.concat ([nl] :: S3Inject.indent_methods (spaces n) foo_methods).

(** The lines [add_include_if_needed] looks for, the text it tests for and
    the line it writes. *)
Definition is_include_line (l : str) : bool :=
  startswith (py "#include") (strip l).

Definition is_guard_define_line (l : str) : bool :=
  startswith (py "#define") (strip l) && contains (py "_H") l.

Definition include_key (include_path : str) : str :=
  S3.remove_chr dq (S3.remove_chr ">"%char (S3.remove_chr "<"%char include_path)).

Definition include_line (include_path : str) : str :=
  py "#include " ++ include_path ++ [nl].

(** Whether the pattern [r] has a capturing group numbered [n]. *)
Fixpoint mentions (n : nat) (r : regex) : bool :=
  match r with
  | Cat a b | Alt a b => mentions n a || mentions n b
  | Star _ a => mentions n a
  | Grp k a => Nat.eqb n k || mentions n a
  | _ => false
  end.

(** A line that ends with its newline and holds no other one, and the
    shape of the lines [readlines] returns: every line but the last is
    terminated, the last is terminated or is not empty and has no
    newline. *)
Definition terminated (l : str) : Prop :=
  exists body, l = body ++ [nl] /\ forallb not_nl body = true.

Fixpoint lines_wf (ls : list str) : Prop :=
  match ls with
  | [] => True
  | l :: rest =>
      match rest with
      | [] => terminated l \/ (l <> [] /\ forallb not_nl l = true)
      | _ => terminated l /\ lines_wf rest
      end
  end.

(** The part the three field patterns share: the type in group 1, white
    space, the name in group 2, white space, and [;] or [=]. *)
Definition field_tail : regex :=
  Cat (Grp 1 (Cat (Chr is_alpha_) (Star false (Chr type_chr))))
      (Cat ws_plus
           (Cat (Grp 2 ident)
                (Cat ws_star (Chr (one_of (py ";=")))))).

(** What holds of a field read from the line [line]: the name is an
    identifier other than an access keyword, the type starts with a letter
    or an underscore and is made of the characters of a type, both stand in
    the line, and the line has no parenthesis. *)
Definition field_read_from (line type name : str) : Prop :=
  has_paren (strip line) = false
  /\ name <> [] /\ forallb is_ident name = true
  /\ is_access_keyword name = false
  /\ (exists c w, type = c :: w /\ is_alpha_ c = true
                  /\ forallb type_chr w = true)
  /\ contains type line = true
  /\ contains name line = true.

(** The values of the [access] entry of a validated field. *)
Definition access_values : list str :=
  [py "none"; py "public"; py "private"; py "protected"].

(** Whether a validation function is applied to string fields only. *)
Definition requires_string_type (function_name : str) : bool :=
  contains (py "NotBlank") function_name
  || contains (py "NotEmpty") function_name
  || contains (py "String") function_name.

(** A class with one validated field, and the table of its marker. *)
Definition user_header : str :=
  py "class User {
    private:
    /// @NotBlank
    StdString name;
    int age;
};
".

Definition user_macros : dict str :=
  [(py "NotBlank", py "ValidateNotBlank")].

(** The access recorded while scanning a class: none yet, or one of the
    three keywords in lower case. *)
Definition access_ok (current_access : option str) : Prop :=
  match current_access with
  | None => True
  | Some a => In a [py "public"; py "private"; py "protected"]
  end.

(** What holds of a validated field found for the marker [macro]. *)
Definition validated_field_ok (validation_macros : dict str)
           (lines : list str) (macro : str) (fld : vfield) : Prop :=
  exists function_name line,
    S7.lookup macro validation_macros = Some function_name
    /\ v_function_name fld = function_name
    /\ In line lines
    /\ field_read_from line (v_type fld) (v_name fld)
    /\ In (v_access fld) access_values
    /\ (requires_string_type function_name = true ->
        S7.is_string_type (v_type fld) = true).

(** ** repository/extract_parameter_name.py *)

Module ExtractParameterName.

Definition not_chr (x : ascii) (c : ascii) : bool := negb (chr_eqb c x).

(** The pattern: an opening parenthesis, group 1 with any number of
    characters other than the closing parenthesis, a closing parenthesis. *)
Definition param_pattern : regex :=
  seq [chr "("%char; Grp 1 (Star true (Chr (not_chr ")"%char)));
       chr ")"%char].

(** [s.split(',')[0]] *)
Fixpoint first_part (s : str) : str :=
  match s with
  | [] => []
  | c :: t => if chr_eqb c ","%char then [] else c :: first_part t
  end.

(** The pattern: group 1 with an identifier, then \s* and $. *)
Definition param_name_pattern : regex :=
  seq [Grp 1 ident; ws_star; Eol false].

Definition extract_parameter_name (method_declaration : str) : option str :=
  match method_declaration with
  | [] => None
  | _ =>
      match re_search param_pattern method_declaration with
      | None => None
      | Some m =>
          let parameters := strip (group 1 m) in
          match parameters with
          | [] => None
          | _ =>
              let first_param := strip (first_part parameters) in
              match re_search param_name_pattern first_param with
              | Some param_match => Some (group 1 param_match)
              | None => None
              end
          end
      end
  end.

End ExtractParameterName.

(** ** repository/process_repository.py: the include of the implementation *)

Module RepositoryInclude.

(** The pattern ^\s*#endif\s*(C)?\s*$ where C is a line comment (two
    slashes and anything) or a block comment on the line (slash, star,
    anything, star, slash). *)
Definition endif_pattern : regex :=
  seq [Bol; ws_star; lit (py "#endif"); ws_star;
       opt (Grp 1 (Alt (Cat (lit (py "//")) (Star true dot))
                       (seq [lit (py "/*"); Star true dot; lit (py "*/")])));
       ws_star; Eol false].

Definition is_endif_line (line : str) : bool :=
  found (re_match endif_pattern (strip line)).

(** The loop [for i in range(count - 1, -1, -1)]: the 1-based number of
    the last [#endif] line among the first [count] lines. *)
Fixpoint scan_endif (lines : list str) (count : nat) : option nat :=
  match count with
  | O => None
  | S i =>
      if is_endif_line (nth i lines []) then Some (i + 1)
      else scan_endif lines i
  end.

Definition find_last_endif_position (content : str) : option nat :=
  let lines := split_nl content in
  scan_endif lines (length lines).

(** The pattern #include\s+["<]PATH[">], the path taken literally. *)
Definition include_pattern (include_path : str) : regex :=
  seq [lit (py "#include"); ws_plus; Chr (one_of [dq; "<"%char]);
       lit include_path; Chr (one_of [dq; ">"%char])].

Definition include_statement (include_path : str) : str :=
  py "#include " ++ [dq] ++ include_path ++ [dq].

Definition add_include_to_file (writable : bool) (f : file)
           (include_path : str) (dry_run : bool) : file * bool :=
  match f with
  | None => (None, false)
  | Some content =>
      if found (re_search (include_pattern include_path) content)
      then (f, false)
      else
        let last_endif_line := find_last_endif_position content in
        let lines := split_nl content in
        if dry_run then (f, true)
        else
          let lines' :=
            match last_endif_line with
            | Some n => S3.insert_at (n - 1) (include_statement include_path)
                                     lines
            | None => lines ++ [include_statement include_path]
            end in
          write_file writable f (join [nl] lines')
  end.

End RepositoryInclude.

(** A repository header with its include guard. *)
Definition guarded_header : str :=
  py "#ifndef REPO_H
#define REPO_H
class R {};
#endif // REPO_H
".

(** [a] is what is left of [b] when some of its characters are taken
    away. *)
Inductive Subseq : str -> str -> Prop :=
| Subseq_nil : Subseq [] []
| Subseq_skip : forall a b c, Subseq a b -> Subseq a (c :: b)
| Subseq_keep : forall a b c, Subseq a b -> Subseq (c :: a) (c :: b).

(** ** serialization/S6_discover_validation_macros.py *)

Module S6.

Definition not_star (c : ascii) : bool := negb (chr_eqb c "*"%char).

(** The part the two patterns share, under re.IGNORECASE:
    #define\s+(\w+)\s+ then slash, star, \s*Validation\s+Function\s*->\s*,
    group 2 with one or more characters other than a star, as few as
    possible, then \s*, star, slash. *)
Definition definition_tail : regex :=
  seq [liti (py "#define"); ws_plus; Grp 1 (plus true (Chr isword)); ws_plus;
       lit (py "/*"); ws_star; liti (py "Validation"); ws_plus;
       liti (py "Function"); ws_star; lit (py "->"); ws_star;
       Grp 2 (plus false (Chr not_star)); ws_star; lit (py "*/")].

(** The pattern of [extract_validation_macros_from_file]. *)
Definition file_pattern : regex := definition_tail.

(** The pattern of [find_validation_macro_definitions]: ^[^/]* before the
    shared part. *)
Definition discovery_pattern : regex :=
  Cat Bol (Cat (Star true (Chr (fun c => negb (chr_eqb c "/"%char))))
               definition_tail).

(** [s.find(sub)]: the index of the first occurrence, if any. *)
Fixpoint find_sub (sub s : str) (i : nat) : option nat :=
  if startswith sub s then Some i
  else match s with
       | [] => None
       | _ :: t => find_sub sub t (S i)
       end.

(** [d[k] = v] *)
Fixpoint dict_set {V : Type} (k : str) (v : V) (d : dict V) : dict V :=
  match d with
  | [] => [(k, v)]
  | (k', v') :: rest =>
      if str_eqb k k' then (k', v) :: rest else (k', v') :: dict_set k v rest
  end.

(** One turn of the loop over the lines of a file. *)
Definition scan_line (pattern : regex) (line : str) (validation_macros : dict str)
  : dict str :=
  let stripped := strip line in
  if startswith (py "//") stripped then validation_macros
  else
    let skip :=
      if contains (py "//") line then
        match find_sub (py "#define") line 0, find_sub (py "//") line 0 with
        | Some define_pos, Some comment_pos => Nat.ltb comment_pos define_pos
        | _, _ => false
        end
      else false in
    if skip then validation_macros
    else
      match re_search pattern line with
      | Some m =>
          dict_set (strip (group 1 m)) (strip (group 2 m)) validation_macros
      | None => validation_macros
      end.

Definition scan_lines (pattern : regex) (lines : list str)
           (validation_macros : dict str) : dict str :=
  fold_left (fun acc line => scan_line pattern line acc) lines
            validation_macros.

(** A file that is missing or cannot be read gives no entry. *)
Definition extract_validation_macros_from_file (f : file) : dict str :=
  match f with
  | None => []
  | Some text => scan_lines file_pattern (readlines text) []
  end.

(** The loop of [find_validation_macro_definitions] over the header files
    found, in the order they are found. *)
Definition find_validation_macro_definitions (header_files : list file)
  : dict str :=
  fold_left (fun acc f =>
               match f with
               | None => acc
               | Some text => scan_lines discovery_pattern (readlines text) acc
               end)
            header_files [].

End S6.

(** The text [x] does not go on with a character of the class [p]. *)
Definition stops (p : ascii -> bool) (x : str) : Prop :=
  match x with
  | [] => True
  | c :: _ => p c = false
  end.

(** A line that defines the validation marker [name] with the function
    [fn], indented by [n] spaces and followed by [rest]. *)
Definition definition_line (n : nat) (name fn rest : str) : str :=
  spaces n ++ py "#define " ++ name ++ py " /* Validation Function -> "
  ++ fn ++ py " */" ++ rest.

(** What holds of every entry of a table of validation markers read from
    files: the marker is a word, the function has no star in it and no
    white space at its ends. *)
Definition macro_entry_ok (entry : str * str) : Prop :=
  fst entry <> [] /\ forallb isword (fst entry) = true
  /\ forallb S6.not_star (snd entry) = true
  /\ strip (snd entry) = snd entry.

(** A table whose keys are distinct and whose entries are all well
    formed. *)
Definition table_ok (d : dict str) : Prop :=
  NoDup (map fst d) /\ forall e, In e d -> macro_entry_ok e.

(** A header that defines one validation marker. *)
Definition macros_header : str :=
  py "  #define NotNull /* Validation Function -> ValidateNotNull */ // marker
int x;
".

(** A character other than the opening parenthesis. *)
Definition not_paren (c : ascii) : bool := negb (chr_eqb c "("%char).

(** Every character the pattern [r] can read is of the class [q]. *)
Fixpoint reads_only (q : ascii -> bool) (r : regex) : Prop :=
  match r with
  | Chr p => forall c, p c = true -> q c = true
  | Cat a b | Alt a b => reads_only q a /\ reads_only q b
  | Star _ a | Grp _ a => reads_only q a
  | _ => True
  end.

(** The least number of characters the pattern [r] reads. *)
Fixpoint min_len (r : regex) : nat :=
  match r with
  | Chr _ => 1
  | Cat a b => min_len a + min_len b
  | Alt a b => Nat.min (min_len a) (min_len b)
  | Grp _ a => min_len a
  | _ => 0
  end.

(** The part of the declaration pattern before the method name, without
    the white space in front of the name. *)
Definition declaration_head : regex :=
  seq [opt (alts [lit (py "Public"); lit (py "Private");
                  lit (py "Protected"); lit (py "Virtual")]);
       ws_star;
       opt (Alt (Cat (lit (py "Virtual")) ws_plus)
                (Cat (lit (py "Static")) ws_plus));
       Chr is_alpha_;
       plus true (Chr ExtractFindby.ret_chr)].

(** * Properties *)

Unset Implicit Arguments.

(** ** The matcher *)

Section MatcherSpec.

Lemma star_run_sound (a : regex) (g : bool)
      (IHa : forall st st', In st' (run a st) -> Match a st st') :
  forall fuel st st',
    In st' (star_run (run a) g fuel st) -> Match (Star g a) st st'.
Proof.
  induction fuel as [|f IH]; intros st st' H; simpl in H.
  - destruct H as [<-|[]]. constructor.
  - assert (Hmore : In st' (flat_map (star_run (run a) g f)
                             (filter (progress st) (run a st))) ->
                    Match (Star g a) st st').
    { intros Hm. apply in_flat_map in Hm. destruct Hm as [st2 [H2 H3]].
      apply filter_In in H2. destruct H2 as [H2 Hp].
      eapply MStarS; eauto. }
    destruct g.
    + apply in_app_or in H. destruct H as [H|[<-|[]]]; auto. constructor.
    + destruct H as [<-|H]; auto. constructor.
Qed.

Lemma run_sound : forall r st st', In st' (run r st) -> Match r st st'.
Proof.
  induction r; intros st st' H; simpl in H.
  - destruct H as [<-|[]]. constructor.
  - destruct st as [prev rest caps]; simpl in H.
    destruct rest as [|c t]; [contradiction|].
    destruct (p c) eqn:Hp; [|contradiction].
    destruct H as [<-|[]]. now constructor.
  - apply in_flat_map in H. destruct H as [st2 [H1 H2]].
    econstructor; eauto.
  - apply in_app_or in H. destruct H; [apply MAltL|apply MAltR]; auto.
  - eapply star_run_sound; eauto.
  - apply in_map_iff in H. destruct H as [st2 [<- H]]. constructor. auto.
  - destruct (ms_prev st) eqn:E; [contradiction|].
    destruct H as [<-|[]]. now constructor.
  - destruct (at_eol multiline st) eqn:E; [|contradiction].
    destruct H as [<-|[]]. now constructor.
  - destruct (at_wb st) eqn:E; [|contradiction].
    destruct H as [<-|[]]. now constructor.
Qed.

Lemma star_run_self (step : mstate -> list mstate) g fuel st :
  In st (star_run step g fuel st).
Proof.
  destruct fuel; simpl; [now left|].
  destruct g; [apply in_or_app; right; now left | now left].
Qed.

Lemma star_run_complete (a : regex) (g : bool)
      (IHa : forall st st', Match a st st' -> In st' (run a st)) :
  forall st st',
    Match (Star g a) st st' ->
    forall fuel, length (ms_rest st) <= fuel ->
                 In st' (star_run (run a) g fuel st).
Proof.
  intros st st' H. remember (Star g a) as r eqn:Er.
  induction H; try discriminate; inversion Er; subst; intros fuel Hf.
  - apply star_run_self.
  - unfold progress in H0. apply Nat.ltb_lt in H0.
    destruct fuel as [|f]; [lia|]. simpl.
    assert (Hm : In st3 (flat_map (star_run (run a) g f)
                           (filter (progress st1) (run a st1)))).
    { apply in_flat_map. exists st2. split.
      - apply filter_In. split; [now apply IHa|].
        unfold progress. now apply Nat.ltb_lt.
      - apply IHMatch2; [reflexivity|lia]. }
    destruct g; [apply in_or_app; now left | now right].
Qed.

Lemma run_complete : forall r st st', Match r st st' -> In st' (run r st).
Proof.
  induction r; intros st st' H.
  - inversion H; subst. now left.
  - inversion H; subst. simpl.
    match goal with E : p _ = true |- _ => rewrite E end. now left.
  - inversion H; subst. simpl. apply in_flat_map. eauto.
  - inversion H; subst; simpl; apply in_or_app; auto.
  - simpl. eapply star_run_complete; eauto.
  - inversion H; subst. simpl. apply in_map. auto.
  - inversion H; subst. simpl.
    match goal with E : ms_prev _ = None |- _ => rewrite E end. now left.
  - inversion H; subst. simpl.
    match goal with E : at_eol _ _ = true |- _ => rewrite E end. now left.
  - inversion H; subst. simpl.
    match goal with E : at_wb _ = true |- _ => rewrite E end. now left.
Qed.

Theorem run_spec r st st' : In st' (run r st) <-> Match r st st'.
Proof. split; [apply run_sound | apply run_complete]. Qed.

End MatcherSpec.

(** ** Reading a match off a pattern *)

Section MatchLemmas.

Lemma prev_after_nil prev : prev_after [] prev = prev.
Proof. reflexivity. Qed.

Lemma prev_after_app w1 w2 prev :
  prev_after (w1 ++ w2) prev = prev_after w2 (prev_after w1 prev).
Proof.
  unfold prev_after. rewrite rev_app_distr.
  destruct (rev w2); simpl; auto.
Qed.

Lemma prev_after_cons c w prev :
  prev_after (c :: w) prev = prev_after w (Some c).
Proof. apply (prev_after_app [c] w prev). Qed.

Lemma prev_after_snoc w c prev : prev_after (w ++ [c]) prev = Some c.
Proof. rewrite prev_after_app. reflexivity. Qed.

Lemma Match_Eps_iff st st' : Match Eps st st' <-> st' = st.
Proof. split; [inversion 1; auto | intros ->; constructor]. Qed.

Lemma Match_Chr_iff p st st' :
  Match (Chr p) st st' <->
  exists c t, ms_rest st = c :: t /\ p c = true
              /\ st' = MS (Some c) t (ms_caps st).
Proof.
  split.
  - inversion 1; subst; simpl; eauto.
  - intros (c & t & Hr & Hp & ->). destruct st as [prev rest caps].
    simpl in *. subst. now constructor.
Qed.

Lemma Match_Cat_iff a b st st' :
  Match (Cat a b) st st' <-> exists st2, Match a st st2 /\ Match b st2 st'.
Proof.
  split.
  - inversion 1; subst; eauto.
  - intros (st2 & H1 & H2). econstructor; eauto.
Qed.

Lemma Match_Alt_iff a b st st' :
  Match (Alt a b) st st' <-> Match a st st' \/ Match b st st'.
Proof.
  split.
  - inversion 1; subst; auto.
  - intros [H|H]; [apply MAltL | apply MAltR]; auto.
Qed.

Lemma Match_Grp_iff n a st st' :
  Match (Grp n a) st st' <->
  exists st2, Match a st st2 /\ st' = set_cap n st st2.
Proof.
  split.
  - inversion 1; subst; eauto.
  - intros (st2 & H & ->). now constructor.
Qed.

Lemma Match_Bol_iff st st' :
  Match Bol st st' <-> ms_prev st = None /\ st' = st.
Proof. split; [inversion 1; auto | intros [H ->]; now constructor]. Qed.

Lemma Match_Eol_iff m st st' :
  Match (Eol m) st st' <-> at_eol m st = true /\ st' = st.
Proof. split; [inversion 1; auto | intros [H ->]; now constructor]. Qed.

Lemma Match_Wb_iff st st' :
  Match Wb st st' <-> at_wb st = true /\ st' = st.
Proof. split; [inversion 1; auto | intros [H ->]; now constructor]. Qed.

Lemma chr_eqb_eq a b : chr_eqb a b = true <-> a = b.
Proof. apply Ascii.eqb_eq. Qed.

Lemma chr_eqb_refl a : chr_eqb a a = true.
Proof. apply Ascii.eqb_refl. Qed.

Lemma Match_chr_iff c st st' :
  Match (chr c) st st' <->
  exists t, ms_rest st = c :: t /\ st' = MS (Some c) t (ms_caps st).
Proof.
  unfold chr. rewrite Match_Chr_iff. split.
  - intros (c' & t & Hr & Hp & ->). apply chr_eqb_eq in Hp. subst. eauto.
  - intros (t & Hr & ->). exists c, t. repeat split; auto.
    apply chr_eqb_refl.
Qed.

Lemma Match_lit_iff s st st' :
  Match (lit s) st st' <->
  exists t, ms_rest st = s ++ t
            /\ st' = MS (prev_after s (ms_prev st)) t (ms_caps st).
Proof.
  revert st st'. induction s as [|c s IH]; intros st st'.
  - simpl. rewrite Match_Eps_iff. split.
    + intros ->. exists (ms_rest st). destruct st; auto.
    + intros (t & Hr & ->). destruct st; simpl in *. now subst.
  - assert (Hc : Match (Cat (chr c) (lit s)) st st' <->
                 exists t, ms_rest st = (c :: s) ++ t
                           /\ st' = MS (prev_after (c :: s) (ms_prev st)) t
                                       (ms_caps st)).
    { rewrite Match_Cat_iff. split.
      - intros (st2 & H1 & H2). apply Match_chr_iff in H1.
        destruct H1 as (t & Hr & ->). apply IH in H2.
        destruct H2 as (t' & Hr' & ->). simpl in *. subst t.
        exists t'. split; [now rewrite Hr|].
        now rewrite prev_after_cons.
      - intros (t & Hr & ->). exists (MS (Some c) (s ++ t) (ms_caps st)).
        split.
        + apply Match_chr_iff. eauto.
        + apply IH. exists t. simpl. split; auto.
          now rewrite prev_after_cons. }
    destruct s as [|d s'].
    + simpl lit. rewrite <- Hc. rewrite Match_Cat_iff. simpl lit. split.
      * intros H. exists st'. split; auto. constructor.
      * intros (st2 & H1 & H2). apply Match_Eps_iff in H2. now subst.
    + exact Hc.
Qed.

Lemma forallb_app_true (p : ascii -> bool) w1 w2 :
  forallb p (w1 ++ w2) = true <-> forallb p w1 = true /\ forallb p w2 = true.
Proof. rewrite forallb_app. apply andb_true_iff. Qed.

(** A starred character class reads a run of characters of the class. *)
Lemma Match_star_chr_iff g p st st' :
  Match (Star g (Chr p)) st st' <->
  exists w t, ms_rest st = w ++ t /\ forallb p w = true
              /\ st' = MS (prev_after w (ms_prev st)) t (ms_caps st).
Proof.
  split.
  - intros H. remember (Star g (Chr p)) as r eqn:Er.
    induction H; try discriminate; inversion Er; subst.
    + exists [], (ms_rest st). destruct st; auto.
    + apply Match_Chr_iff in H. destruct H as (c & t & Hr & Hp & ->).
      destruct (IHMatch2 eq_refl) as (w & t' & Hr' & Hw & ->).
      simpl in *. subst t. exists (c :: w), t'. split; [now rewrite Hr|].
      split; [simpl; now rewrite Hp|]. now rewrite prev_after_cons.
  - intros (w & t & Hr & Hw & ->). revert st Hr Hw.
    induction w as [|c w IH]; intros st Hr Hw.
    + simpl in *. destruct st; simpl in *; subst. constructor.
    + simpl in Hw. apply andb_true_iff in Hw. destruct Hw as [Hc Hw].
      eapply MStarS with (st2 := MS (Some c) (w ++ t) (ms_caps st)).
      * apply Match_Chr_iff. exists c, (w ++ t). auto.
      * unfold progress. simpl. rewrite Hr. simpl. apply Nat.ltb_lt. lia.
      * specialize (IH (MS (Some c) (w ++ t) (ms_caps st)) eq_refl Hw).
        simpl in IH. now rewrite prev_after_cons.
Qed.

Lemma Match_plus_chr_iff g p st st' :
  Match (plus g (Chr p)) st st' <->
  exists w t, ms_rest st = w ++ t /\ forallb p w = true /\ w <> []
              /\ st' = MS (prev_after w (ms_prev st)) t (ms_caps st).
Proof.
  unfold plus. rewrite Match_Cat_iff. split.
  - intros (st2 & H1 & H2). apply Match_Chr_iff in H1.
    destruct H1 as (c & t & Hr & Hp & ->).
    apply Match_star_chr_iff in H2. destruct H2 as (w & t' & Hr' & Hw & ->).
    simpl in *. subst t. exists (c :: w), t'. rewrite Hr.
    repeat split; auto.
    + simpl. now rewrite Hp.
    + discriminate.
    + now rewrite prev_after_cons.
  - intros (w & t & Hr & Hw & Hne & ->). destruct w as [|c w]; [easy|].
    simpl in Hw. apply andb_true_iff in Hw. destruct Hw as [Hc Hw].
    exists (MS (Some c) (w ++ t) (ms_caps st)). split.
    + apply Match_Chr_iff. exists c, (w ++ t). auto.
    + apply Match_star_chr_iff. exists w, t. simpl.
      rewrite prev_after_cons. auto.
Qed.

(** A match reads a prefix of the text and leaves the rest. *)
Lemma Match_rest r st st' :
  Match r st st' ->
  exists w, ms_rest st = w ++ ms_rest st'
            /\ ms_prev st' = prev_after w (ms_prev st).
Proof.
  induction 1.
  - exists []. auto.
  - exists [c]. auto.
  - destruct IHMatch1 as (w1 & E1 & P1), IHMatch2 as (w2 & E2 & P2).
    exists (w1 ++ w2). rewrite E1, E2, app_assoc, prev_after_app.
    split; congruence.
  - auto.
  - auto.
  - exists []. auto.
  - destruct IHMatch1 as (w1 & E1 & P1), IHMatch2 as (w2 & E2 & P2).
    exists (w1 ++ w2). rewrite E1, E2, app_assoc, prev_after_app.
    split; congruence.
  - destruct IHMatch as (w & E & P). exists w. auto.
  - exists []. auto.
  - exists []. auto.
  - exists []. auto.
Qed.

Lemma found_hd_error (l : list mstate) :
  found (hd_error l) = true <-> exists st, In st l.
Proof.
  destruct l as [|x l]; simpl; split; intros H; auto.
  - discriminate.
  - destruct H as [? []].
  - exists x. now left.
Qed.

Lemma re_match_found r s :
  found (re_match r s) = true <-> exists st', Match r (MS None s []) st'.
Proof.
  unfold re_match. rewrite found_hd_error.
  split; intros [st H]; exists st; now apply run_spec.
Qed.

Lemma re_match_Some r s m :
  re_match r s = Some m -> Match r (MS None s []) m.
Proof.
  unfold re_match. intros H. apply run_spec.
  destruct (run r (MS None s [])); simpl in H; [discriminate|].
  inversion H. now left.
Qed.

(** [re.search] finds a match exactly when the pattern matches at some
    position of the subject. *)
Lemma search_from_found r : forall s prev,
  found (search_from r prev s) = true <->
  exists pre suf st', s = pre ++ suf
                      /\ Match r (MS (prev_after pre prev) suf []) st'.
Proof.
  induction s as [|c s IH]; intros prev; simpl.
  - destruct (run r (MS prev [] [])) as [|st l] eqn:E; simpl.
    + split; [discriminate|].
      intros (pre & suf & st' & Hs & Hm).
      symmetry in Hs. apply app_eq_nil in Hs. destruct Hs; subst.
      apply run_spec in Hm. rewrite prev_after_nil in Hm.
      rewrite E in Hm. contradiction.
    + split; auto. intros _. exists [], [], st. split; auto.
      apply run_spec. rewrite prev_after_nil, E. now left.
  - destruct (run r (MS prev (c :: s) [])) as [|st l] eqn:E; simpl.
    + rewrite IH. split.
      * intros (pre & suf & st' & Hs & Hm). exists (c :: pre), suf, st'.
        subst. split; auto. now rewrite prev_after_cons.
      * intros (pre & suf & st' & Hs & Hm). destruct pre as [|c' pre].
        -- simpl in Hs. subst suf. apply run_spec in Hm.
           rewrite prev_after_nil in Hm. rewrite E in Hm. contradiction.
        -- simpl in Hs. inversion Hs; subst. exists pre, suf, st'.
           split; auto. now rewrite prev_after_cons in Hm.
    + split; auto. intros _. exists [], (c :: s), st. split; auto.
      apply run_spec. rewrite prev_after_nil, E. now left.
Qed.

Lemma re_search_found r s :
  found (re_search r s) = true <->
  exists pre suf st', s = pre ++ suf
                      /\ Match r (MS (prev_after pre None) suf []) st'.
Proof. apply search_from_found. Qed.

End MatchLemmas.

(** ** Strings *)

Section StringLemmas.

Lemma str_eqb_eq a b : str_eqb a b = true <-> a = b.
Proof.
  revert b. induction a as [|x a IH]; destruct b as [|y b]; simpl;
    try (split; [discriminate|discriminate]); try tauto.
  rewrite andb_true_iff, chr_eqb_eq, IH. split.
  - intros [-> ->]. reflexivity.
  - intros H. inversion H. auto.
Qed.

Lemma str_eqb_refl a : str_eqb a a = true.
Proof. now apply str_eqb_eq. Qed.

Lemma startswith_iff p s : startswith p s = true <-> exists r, s = p ++ r.
Proof.
  revert s. induction p as [|x p IH]; intros s; simpl.
  - split; eauto.
  - destruct s as [|y s].
    + split; [discriminate|]. intros [r H]. discriminate.
    + rewrite andb_true_iff, chr_eqb_eq, IH. split.
      * intros [-> [r ->]]. eauto.
      * intros [r H]. inversion H. eauto.
Qed.

Lemma startswith_app p r : startswith p (p ++ r) = true.
Proof. apply startswith_iff. eauto. Qed.

Lemma contains_iff sub s :
  contains sub s = true <-> exists pre post, s = pre ++ sub ++ post.
Proof.
  induction s as [|c s IH]; simpl.
  - rewrite orb_false_r, startswith_iff. split.
    + intros [r H]. exists [], r. auto.
    + intros (pre & post & H). destruct pre; simpl in H.
      * eauto.
      * discriminate.
  - rewrite orb_true_iff, startswith_iff, IH. split.
    + intros [[r H]|(pre & post & H)].
      * exists [], r. auto.
      * exists (c :: pre), post. simpl. now rewrite H.
    + intros (pre & post & H). destruct pre as [|c' pre]; simpl in H.
      * left. eauto.
      * right. inversion H. eauto.
Qed.

Lemma firstn_consumed {A : Type} (a b : list A) :
  firstn (length (a ++ b) - length b) (a ++ b) = a.
Proof.
  rewrite length_app, Nat.add_sub. rewrite firstn_app, Nat.sub_diag.
  simpl. rewrite app_nil_r. apply firstn_all.
Qed.

Lemma consumed_app p (a b : str) c p' c' :
  consumed (MS p (a ++ b) c) (MS p' b c') = a.
Proof. unfold consumed. cbn [ms_rest]. apply firstn_consumed. Qed.

(** A run of characters of a class ends where the class ends. *)
Lemma run_unique (p : ascii -> bool) (l l' : str) (b : ascii) (x x' : str) :
  forallb p l = true -> forallb p l' = true -> p b = false ->
  l ++ b :: x = l' ++ b :: x' -> l = l' /\ x = x'.
Proof.
  revert l'. induction l as [|c l IH]; intros l' Hl Hl' Hb E.
  - destruct l' as [|c' l']; simpl in *.
    + inversion E. auto.
    + inversion E; subst. apply andb_true_iff in Hl'. destruct Hl'. congruence.
  - destruct l' as [|c' l']; simpl in *.
    + inversion E; subst. apply andb_true_iff in Hl. destruct Hl. congruence.
    + inversion E; subst. apply andb_true_iff in Hl, Hl'.
      destruct Hl, Hl'. destruct (IH l') as [-> ->]; auto.
Qed.

End StringLemmas.

(** ** extract_method_action *)

Section ExtractMethodActionProps.

Import ExtractMethodAction.

(** What a match of the pattern says about the name. *)
Lemma pattern_match name m :
  Match pattern (MS None name []) m ->
  exists c l rest,
    name = (c :: l) ++ py "By" ++ rest
    /\ is_upper_az c = true /\ forallb is_lower_az l = true /\ l <> []
    /\ group 1 m = c :: l.
Proof.
  unfold pattern. cbn [seq]. intros H.
  apply Match_Cat_iff in H. destruct H as (s1 & H1 & H).
  apply Match_Bol_iff in H1. destruct H1 as [_ ->].
  apply Match_Cat_iff in H. destruct H as (s2 & H2 & H3).
  apply Match_Grp_iff in H2. destruct H2 as (s3 & H2 & ->).
  apply Match_Cat_iff in H2. destruct H2 as (s4 & H4 & H5).
  apply Match_Chr_iff in H4. destruct H4 as (c & t & Hr & Hc & ->).
  apply Match_plus_chr_iff in H5.
  destruct H5 as (w & t' & Hr' & Hw & Hne & ->).
  apply Match_lit_iff in H3. destruct H3 as (rest & Hr3 & ->).
  cbn [ms_rest ms_prev ms_caps set_cap] in *. subst t t' name.
  exists c, w, rest. repeat split; auto.
  unfold group. cbn [ms_caps assoc Nat.eqb].
  apply (consumed_app None (c :: w)).
Qed.

(** A name of that shape is matched. *)
Lemma pattern_matches c l rest :
  is_upper_az c = true -> forallb is_lower_az l = true -> l <> [] ->
  exists m, Match pattern (MS None ((c :: l) ++ py "By" ++ rest) []) m.
Proof.
  intros Hc Hl Hne. unfold pattern. cbn [seq]. eexists.
  apply Match_Cat_iff. eexists. split; [apply Match_Bol_iff; split; reflexivity|].
  apply Match_Cat_iff. eexists. split.
  - apply Match_Grp_iff. eexists. split; [|reflexivity].
    apply Match_Cat_iff. eexists. split.
    + apply Match_Chr_iff. exists c, (l ++ py "By" ++ rest). simpl. eauto.
    + apply Match_plus_chr_iff. exists l, (py "By" ++ rest). simpl. eauto.
  - apply Match_lit_iff. exists rest. simpl. split; reflexivity.
Qed.

Lemma by_action_shape c l rest c' l' rest' :
  forallb is_lower_az l = true -> forallb is_lower_az l' = true ->
  (c :: l) ++ py "By" ++ rest = (c' :: l') ++ py "By" ++ rest' ->
  c :: l = c' :: l'.
Proof.
  intros Hl Hl' E. simpl in E. inversion E as [[Ec E']]. subst c'.
  destruct (run_unique is_lower_az l l' "B"%char _ _ Hl Hl' eq_refl E')
    as [-> _].
  reflexivity.
Qed.

Lemma standard_action_shape action :
  In action STANDARD_ACTIONS ->
  exists c l, action = c :: l /\ is_upper_az c = true
              /\ forallb is_lower_az l = true /\ l <> [].
Proof.
  unfold STANDARD_ACTIONS. simpl.
  intros [<-|[<-|[<-|[<-|[<-|[<-|[]]]]]]]; eexists; eexists;
    (split; [reflexivity|]); repeat split; try reflexivity; discriminate.
Qed.

Lemma is_in_iff x l : is_in x l = true <-> In x l.
Proof.
  unfold is_in. rewrite existsb_exists. split.
  - intros (y & Hy & E). apply str_eqb_eq in E. now subst.
  - intros H. exists x. split; auto. apply str_eqb_refl.
Qed.

Lemma standalone_iff name action :
  standalone name action = true <->
  name = action \/ name = action ++ py "All" \/ name = action ++ py "ById".
Proof.
  unfold standalone. rewrite !orb_true_iff, !str_eqb_eq. tauto.
Qed.

(** The [By] branch: a name that starts with a standard action and [By]. *)
Lemma by_branch action rest :
  In action STANDARD_ACTIONS ->
  extract_method_action (action ++ py "By" ++ rest) = Some action.
Proof.
  intros Hin. destruct (standard_action_shape action Hin)
    as (c & l & -> & Hc & Hl & Hne).
  unfold extract_method_action.
  change ((c :: l) ++ py "By" ++ rest)
    with (c :: (l ++ py "By" ++ rest)) at 1. cbv iota beta.
  change (c :: (l ++ py "By" ++ rest)) with ((c :: l) ++ py "By" ++ rest).
  destruct (re_match pattern ((c :: l) ++ py "By" ++ rest)) as [m|] eqn:E.
  - apply re_match_Some in E. apply pattern_match in E.
    destruct E as (c' & l' & rest' & En & _ & Hl' & _ & Hg).
    apply by_action_shape in En; auto. rewrite Hg, <- En.
    apply is_in_iff in Hin. now rewrite Hin.
  - destruct (pattern_matches c l rest Hc Hl Hne) as [m Hm].
    assert (F : found (re_match pattern ((c :: l) ++ py "By" ++ rest)) = true)
      by (apply re_match_found; eauto).
    rewrite E in F. discriminate.
Qed.

End ExtractMethodActionProps.

Section ExtractMethodActionSpec.

Import ExtractMethodAction.

(** C5. [extract_method_action] returns an action exactly when the action is
    one of Find, Delete, Save, Update, Exists, Count and the name either
    starts with the action followed by [By] or is the action alone, the
    action with [All], or the action with [ById]; for every other string it
    returns [None].  The rows of the action table of the specification
    follow. *)
Theorem extract_method_action_spec :
  STANDARD_ACTIONS
  = [py "Find"; py "Delete"; py "Save"; py "Update"; py "Exists"; py "Count"]
  /\ (forall name action,
        extract_method_action name = Some action <->
        In action STANDARD_ACTIONS /\ carries name action)
  /\ (forall name,
        extract_method_action name = None <->
        ~ exists action, In action STANDARD_ACTIONS /\ carries name action)
  /\ extract_method_action (py "FindByLastName") = Some (py "Find")
  /\ extract_method_action (py "DeleteById") = Some (py "Delete")
  /\ extract_method_action (py "Save") = Some (py "Save")
  /\ extract_method_action (py "CountByStatus") = Some (py "Count")
  /\ extract_method_action (py "RandomHelper") = None.
Proof.
  assert (Hiff : forall name action,
             extract_method_action name = Some action <->
             In action STANDARD_ACTIONS /\ carries name action).
  { intros name action. split.
    - intros H. unfold extract_method_action in H.
      destruct name as [|c0 n0]; [discriminate|].
      remember (c0 :: n0) as name eqn:En.
      assert (Hfind : find (standalone name) STANDARD_ACTIONS = Some action ->
                      In action STANDARD_ACTIONS /\ carries name action).
      { intros Hf. apply find_some in Hf. destruct Hf as [Hin Hs].
        apply standalone_iff in Hs. split; auto. right. exact Hs. }
      destruct (re_match pattern name) as [m|] eqn:E; auto.
      destruct (is_in (group 1 m) STANDARD_ACTIONS) eqn:Hi; auto.
      inversion H; subst action. split; [now apply is_in_iff|].
      left. apply re_match_Some in E. apply pattern_match in E.
      destruct E as (c & l & rest & Enm & _ & _ & _ & Hg).
      rewrite Hg, Enm. apply startswith_iff. exists rest.
      now rewrite <- app_assoc.
    - intros [Hin [Hs|Hs]].
      + apply startswith_iff in Hs. destruct Hs as [r ->].
        rewrite <- app_assoc. now apply by_branch.
      + unfold STANDARD_ACTIONS in Hin. simpl in Hin.
        destruct Hin as [<-|[<-|[<-|[<-|[<-|[<-|[]]]]]]];
          destruct Hs as [->|[->| ->]]; vm_compute; reflexivity. }
  split; [reflexivity|]. split; [exact Hiff|]. split.
  - intros name. split.
    + intros HN (action & Hin & Hc).
      assert (HS : extract_method_action name = Some action)
        by (apply Hiff; auto).
      congruence.
    + intros HN. destruct (extract_method_action name) as [a|] eqn:E; auto.
      exfalso. apply HN. exists a. now apply Hiff.
  - repeat split; vm_compute; reflexivity.
Qed.

End ExtractMethodActionSpec.

(** ** More on matches *)

Section MoreMatchLemmas.

Lemma Match_groupless r st st' :
  groupless r = true -> Match r st st' -> ms_caps st' = ms_caps st.
Proof.
  intros G H. induction H; simpl in G;
    try (apply andb_true_iff in G; destruct G as [G1 G2]);
    try reflexivity; try discriminate; auto.
  - rewrite IHMatch2, IHMatch1; auto.
  - rewrite IHMatch2, IHMatch1; auto.
Qed.

Lemma search_from_Some r : forall s prev m,
  search_from r prev s = Some m ->
  exists pre suf, s = pre ++ suf
                  /\ Match r (MS (prev_after pre prev) suf []) m.
Proof.
  induction s as [|c s IH]; intros prev m H; simpl in H.
  - destruct (run r (MS prev [] [])) as [|st l] eqn:E; [discriminate|].
    inversion H; subst. exists [], []. split; auto.
    apply run_spec. rewrite prev_after_nil, E. now left.
  - destruct (run r (MS prev (c :: s) [])) as [|st l] eqn:E.
    + apply IH in H. destruct H as (pre & suf & -> & Hm).
      exists (c :: pre), suf. split; auto. now rewrite prev_after_cons.
    + inversion H; subst. exists [], (c :: s). split; auto.
      apply run_spec. rewrite prev_after_nil, E. now left.
Qed.

Lemma re_search_Some r s m :
  re_search r s = Some m ->
  exists pre suf, s = pre ++ suf
                  /\ Match r (MS (prev_after pre None) suf []) m.
Proof. apply search_from_Some. Qed.

Lemma re_search_None r s :
  re_search r s = None ->
  forall pre suf m, s = pre ++ suf ->
                    ~ Match r (MS (prev_after pre None) suf []) m.
Proof.
  intros H pre suf m Hs Hm.
  assert (F : found (re_search r s) = true)
    by (apply re_search_found; eauto).
  rewrite H in F. discriminate.
Qed.

Lemma found_true_Some (m : option mstate) :
  found m = true <-> exists st, m = Some st.
Proof.
  destruct m; simpl; split; eauto; try discriminate. intros [? ?]. discriminate.
Qed.

Lemma found_false_None (m : option mstate) : found m = false <-> m = None.
Proof. destruct m; simpl; split; auto; discriminate. Qed.

(** A case-blind literal reads as many characters, equal up to case. *)
Lemma Match_chri_iff c st st' :
  Match (chri c) st st' <->
  exists x t, ms_rest st = x :: t /\ lower_chr x = lower_chr c
              /\ st' = MS (Some x) t (ms_caps st).
Proof.
  unfold chri. rewrite Match_Chr_iff. split.
  - intros (x & t & Hr & Hp & ->). apply chr_eqb_eq in Hp. eauto.
  - intros (x & t & Hr & Hp & ->). exists x, t. repeat split; auto.
    now apply chr_eqb_eq.
Qed.

Lemma Match_liti_iff s st st' :
  Match (liti s) st st' <->
  exists w t, ms_rest st = w ++ t /\ lower w = lower s
              /\ st' = MS (prev_after w (ms_prev st)) t (ms_caps st).
Proof.
  revert st st'. induction s as [|c s IH]; intros st st'.
  - simpl. rewrite Match_Eps_iff. split.
    + intros ->. exists [], (ms_rest st). destruct st; auto.
    + intros (w & t & Hr & Hl & ->). destruct w; [|discriminate].
      destruct st; simpl in *. now subst.
  - assert (Hc : Match (Cat (chri c) (liti s)) st st' <->
                 exists w t, ms_rest st = w ++ t /\ lower w = lower (c :: s)
                             /\ st' = MS (prev_after w (ms_prev st)) t
                                         (ms_caps st)).
    { rewrite Match_Cat_iff. split.
      - intros (st2 & H1 & H2). apply Match_chri_iff in H1.
        destruct H1 as (x & t & Hr & Hx & ->). apply IH in H2.
        destruct H2 as (w & t' & Hr' & Hw & ->). simpl in *. subst t.
        exists (x :: w), t'. split; [now rewrite Hr|]. split.
        + simpl. now rewrite Hx, Hw.
        + now rewrite prev_after_cons.
      - intros (w & t & Hr & Hl & ->). destruct w as [|x w]; [discriminate|].
        simpl in Hl. inversion Hl as [[Hx Hw]].
        exists (MS (Some x) (w ++ t) (ms_caps st)). split.
        + apply Match_chri_iff. exists x, (w ++ t). auto.
        + apply IH. exists w, t. simpl. repeat split; auto.
          now rewrite prev_after_cons. }
    destruct s as [|d s'].
    + simpl liti. rewrite <- Hc. rewrite Match_Cat_iff. simpl liti. split.
      * intros H. exists st'. split; auto. constructor.
      * intros (st2 & H1 & H2). apply Match_Eps_iff in H2. now subst.
    + exact Hc.
Qed.

(** An identifier reads a letter or underscore and a run of identifier
    characters. *)
Lemma Match_ident_iff st st' :
  Match ident st st' <->
  exists c w t, ms_rest st = (c :: w) ++ t /\ is_alpha_ c = true
                /\ forallb is_ident w = true
                /\ st' = MS (prev_after (c :: w) (ms_prev st)) t (ms_caps st).
Proof.
  unfold ident. rewrite Match_Cat_iff. split.
  - intros (st2 & H1 & H2). apply Match_Chr_iff in H1.
    destruct H1 as (c & t & Hr & Hc & ->). apply Match_star_chr_iff in H2.
    destruct H2 as (w & t' & Hr' & Hw & ->). simpl in *. subst t.
    exists c, w, t'. rewrite prev_after_cons. auto.
  - intros (c & w & t & Hr & Hc & Hw & ->).
    exists (MS (Some c) (w ++ t) (ms_caps st)). split.
    + apply Match_Chr_iff. exists c, (w ++ t). auto.
    + apply Match_star_chr_iff. exists w, t. simpl.
      rewrite prev_after_cons. auto.
Qed.

Lemma Match_ws_star_iff st st' :
  Match ws_star st st' <->
  exists w t, ms_rest st = w ++ t /\ forallb isspace w = true
              /\ st' = MS (prev_after w (ms_prev st)) t (ms_caps st).
Proof. apply Match_star_chr_iff. Qed.

Lemma Match_ws_plus_iff st st' :
  Match ws_plus st st' <->
  exists w t, ms_rest st = w ++ t /\ forallb isspace w = true /\ w <> []
              /\ st' = MS (prev_after w (ms_prev st)) t (ms_caps st).
Proof. apply Match_plus_chr_iff. Qed.

End MoreMatchLemmas.

(** ** Stripping *)

Section StripLemmas.

Lemma dropwhile_head (p : ascii -> bool) (s : str) :
  match s with [] => True | c :: _ => p c = false end -> dropwhile p s = s.
Proof. destruct s as [|c s]; simpl; auto. intros ->. reflexivity. Qed.

Lemma strip_clean (s : str) :
  forallb (fun c => negb (isspace c)) s = true -> strip s = s.
Proof.
  intros H. unfold strip, rstrip, lstrip.
  assert (Hr : dropwhile isspace (rev s) = rev s).
  { apply dropwhile_head. destruct (rev s) as [|c r] eqn:E; auto.
    assert (Hin : In c s) by (apply in_rev; rewrite E; now left).
    rewrite forallb_forall in H. apply H in Hin.
    now apply negb_true_iff in Hin. }
  rewrite Hr, rev_involutive. apply dropwhile_head.
  destruct s as [|c s']; auto. simpl in H. apply andb_true_iff in H.
  destruct H as [H _]. now apply negb_true_iff in H.
Qed.

Lemma ident_not_space c : is_ident c = true -> isspace c = false.
Proof. destruct c as [[] [] [] [] [] [] [] []]; vm_compute; congruence. Qed.

Lemma ident_not_paren c : is_ident c = true -> c <> "("%char.
Proof. destruct c as [[] [] [] [] [] [] [] []]; vm_compute; congruence. Qed.

Lemma ident_not_nl c : is_ident c = true -> chr_eqb c nl = false.
Proof. destruct c as [[] [] [] [] [] [] [] []]; vm_compute; congruence. Qed.

Lemma alpha_is_ident c : is_alpha_ c = true -> is_ident c = true.
Proof. unfold is_ident. intros ->. reflexivity. Qed.

Lemma forallb_impl (p q : ascii -> bool) (s : str) :
  (forall c, p c = true -> q c = true) ->
  forallb p s = true -> forallb q s = true.
Proof.
  intros Hpq H. rewrite forallb_forall in *. auto.
Qed.

Lemma strip_ident (s : str) : forallb is_ident s = true -> strip s = s.
Proof.
  intros H. apply strip_clean. revert H. apply forallb_impl.
  intros c Hc. now rewrite (ident_not_space c Hc).
Qed.

End StripLemmas.

(** ** extract_findby_variable_name *)

Section ExtractFindbyProps.

Import ExtractFindby.

Lemma In_rest_back r st st' x :
  Match r st st' -> In x (ms_rest st') -> In x (ms_rest st).
Proof.
  intros H Hin. apply Match_rest in H. destruct H as (w & -> & _).
  apply in_or_app. now right.
Qed.

(** Every match of the declaration pattern reads an opening parenthesis
    and captures an identifier. *)
Lemma declaration_match st m :
  Match declaration_pattern st m ->
  In "("%char (ms_rest st)
  /\ exists c w, group 1 m = c :: w /\ is_alpha_ c = true
                 /\ forallb is_ident w = true.
Proof.
  unfold declaration_pattern. cbn [seq]. intros H.
  apply Match_Cat_iff in H. destruct H as (s1 & H1 & H).
  apply Match_Cat_iff in H. destruct H as (s2 & H2 & H).
  apply Match_Cat_iff in H. destruct H as (s3 & H3 & H).
  apply Match_Cat_iff in H. destruct H as (s4 & H4 & H).
  apply Match_Cat_iff in H. destruct H as (s5 & H5 & H).
  apply Match_Cat_iff in H. destruct H as (s6 & H6 & H).
  apply Match_Cat_iff in H. destruct H as (s7 & H7 & H).
  apply Match_Cat_iff in H. destruct H as (s8 & H8 & H9).
  pose proof H9 as H9'. apply Match_chr_iff in H9'.
  destruct H9' as (t9 & Hr9 & Em). split.
  - eapply In_rest_back; [exact H1|]. eapply In_rest_back; [exact H2|].
    eapply In_rest_back; [exact H3|]. eapply In_rest_back; [exact H4|].
    eapply In_rest_back; [exact H5|]. eapply In_rest_back; [exact H6|].
    eapply In_rest_back; [exact H7|]. eapply In_rest_back; [exact H8|].
    rewrite Hr9. now left.
  - apply Match_Grp_iff in H7. destruct H7 as (s6' & H7 & E7).
    apply Match_ident_iff in H7.
    destruct H7 as (c & w & t & Hr & Hc & Hw & E6').
    exists c, w. repeat split; auto.
    apply (Match_groupless ws_star) in H8; [|reflexivity].
    unfold group. rewrite Em. cbn [ms_caps]. rewrite H8, E7.
    cbn [set_cap ms_caps assoc Nat.eqb].
    destruct s6 as [p6 r6 c6]. cbn [ms_rest] in Hr. subst r6 s6'.
    apply consumed_app.
Qed.

Lemma bare_name_not_declaration name :
  forallb is_ident name = true ->
  extract_method_name_from_declaration name = None.
Proof.
  intros Hid. unfold extract_method_name_from_declaration.
  destruct name as [|c0 n0]; auto. remember (c0 :: n0) as name.
  destruct (re_search declaration_pattern name) as [m|] eqn:E; auto.
  exfalso. apply re_search_Some in E. destruct E as (pre & suf & -> & Hm).
  apply declaration_match in Hm. destruct Hm as [Hin _].
  cbn [ms_rest] in Hin. rewrite forallb_forall in Hid.
  assert (Hp : is_ident "("%char = true)
    by (apply Hid; apply in_or_app; now right).
  discriminate.
Qed.

Lemma declaration_name_ident input n :
  extract_method_name_from_declaration input = Some n ->
  n <> [] /\ forallb is_ident n = true.
Proof.
  unfold extract_method_name_from_declaration.
  destruct input as [|c0 i0]; [discriminate|]. remember (c0 :: i0) as input.
  destruct (re_search declaration_pattern input) as [m|] eqn:E;
    [|discriminate].
  intros H. inversion H; subst n. apply re_search_Some in E.
  destruct E as (pre & suf & _ & Hm). apply declaration_match in Hm.
  destruct Hm as [_ (c & w & -> & Hc & Hw)]. split; [discriminate|].
  simpl. now rewrite (alpha_is_ident c Hc).
Qed.

(** What a match of the FindBy pattern says about the name. *)
Lemma findby_match name m :
  Match findby_pattern (MS None name []) m ->
  exists p suffix t,
    name = p ++ suffix ++ t /\ lower p = py "findby" /\ suffix <> []
    /\ forallb not_nl suffix = true /\ (t = [] \/ t = [nl])
    /\ group 1 m = suffix.
Proof.
  unfold findby_pattern. cbn [seq]. intros H.
  apply Match_Cat_iff in H. destruct H as (s1 & H1 & H).
  apply Match_Bol_iff in H1. destruct H1 as [_ ->].
  apply Match_Cat_iff in H. destruct H as (s2 & H2 & H).
  apply Match_liti_iff in H2. destruct H2 as (p & t2 & Hr2 & Hp & ->).
  apply Match_Cat_iff in H. destruct H as (s3 & H3 & H4).
  apply Match_Grp_iff in H3. destruct H3 as (s3' & H3 & ->).
  apply Match_plus_chr_iff in H3.
  destruct H3 as (w & t & Hr3 & Hw & Hne & ->).
  apply Match_Eol_iff in H4. destruct H4 as [He ->].
  cbn [ms_rest ms_prev ms_caps set_cap] in *. subst name t2.
  exists p, w, t. repeat split; auto.
  - unfold at_eol in He. cbn [ms_rest] in He. destruct t as [|c t]; auto.
    right. apply andb_true_iff in He. destruct He as [Hc Ht].
    apply chr_eqb_eq in Hc. subst c. simpl in Ht. destruct t; [auto|discriminate].
  - unfold group. cbn [ms_caps assoc Nat.eqb]. apply consumed_app.
Qed.

Lemma findby_matches p suffix :
  lower p = py "findby" -> suffix <> [] -> forallb not_nl suffix = true ->
  exists m, Match findby_pattern (MS None (p ++ suffix) []) m.
Proof.
  intros Hp Hne Hs. unfold findby_pattern. cbn [seq]. eexists.
  apply Match_Cat_iff. eexists. split; [apply Match_Bol_iff; split; reflexivity|].
  apply Match_Cat_iff. eexists. split.
  - apply Match_liti_iff. exists p, suffix. repeat split. exact Hp.
  - apply Match_Cat_iff. eexists. split.
    + apply Match_Grp_iff. eexists. split; [|reflexivity].
      apply Match_plus_chr_iff. exists suffix, []. cbn [ms_rest].
      rewrite app_nil_r. repeat split; auto.
    + apply Match_Eol_iff. split; reflexivity.
Qed.

Lemma lower_length (a b : str) : lower a = lower b -> length a = length b.
Proof.
  intros H. apply (f_equal (@length ascii)) in H.
  unfold lower in H. now rewrite !length_map in H.
Qed.

Lemma app_same_length {A : Type} (a a' b b' : list A) :
  length a = length a' -> a ++ b = a' ++ b' -> a = a' /\ b = b'.
Proof.
  revert a'. induction a as [|x a IH]; destruct a' as [|x' a']; simpl;
    intros L E; try discriminate; auto.
  inversion E; subst. destruct (IH a') as [-> ->]; auto.
Qed.

(** The result on a name made of identifier characters. *)
Lemma bare_name_result name v :
  forallb is_ident name = true ->
  (extract_findby_variable_name name = Some v <->
   exists p suffix, name = p ++ suffix /\ lower p = py "findby"
                    /\ suffix <> [] /\ v = pascal_to_camel suffix).
Proof.
  intros Hid.
  assert (Hnl : forallb not_nl name = true).
  { revert Hid. apply forallb_impl. intros c Hc. unfold not_nl.
    now rewrite (ident_not_nl c Hc). }
  assert (Hex : extract_findby_variable_name name =
                match name with
                | [] => None
                | _ => match re_match findby_pattern name with
                       | None => None
                       | Some m => Some (pascal_to_camel (group 1 m))
                       end
                end).
  { unfold extract_findby_variable_name.
    rewrite (bare_name_not_declaration name Hid), (strip_ident name Hid).
    reflexivity. }
  rewrite Hex. split.
  - destruct name as [|c0 n0]; [discriminate|]. remember (c0 :: n0) as name.
    destruct (re_match findby_pattern name) as [m|] eqn:E; [|discriminate].
    intros H. inversion H; subst v. apply re_match_Some in E.
    apply findby_match in E.
    destruct E as (p & suffix & t & En & Hp & Hne & _ & Ht & Hg).
    exists p, suffix. rewrite Hg. repeat split; auto.
    destruct Ht as [->| ->]; [now rewrite app_nil_r in En|].
    exfalso. rewrite En in Hnl. rewrite !forallb_app in Hnl.
    apply andb_true_iff in Hnl. destruct Hnl as [_ Hnl].
    apply andb_true_iff in Hnl. destruct Hnl as [_ Hnl]. discriminate.
  - intros (p & suffix & En & Hp & Hne & ->).
    assert (Hs : forallb not_nl suffix = true).
    { rewrite En, forallb_app in Hnl. apply andb_true_iff in Hnl. tauto. }
    destruct (findby_matches p suffix Hp Hne Hs) as [m0 Hm0].
    rewrite <- En in Hm0.
    assert (F : found (re_match findby_pattern name) = true)
      by (apply re_match_found; eauto).
    destruct name as [|c0 n0].
    { destruct p; destruct suffix; discriminate || congruence. }
    remember (c0 :: n0) as name.
    destruct (re_match findby_pattern name) as [m|] eqn:E; [|discriminate].
    apply re_match_Some in E. apply findby_match in E.
    destruct E as (p' & suffix' & t & En' & Hp' & _ & _ & Ht & Hg).
    rewrite Hg. f_equal. f_equal.
    assert (L : length p' = length p).
    { apply lower_length. now rewrite Hp, Hp'. }
    rewrite En in En'. apply app_same_length in En'; auto.
    destruct En' as [_ Es]. destruct Ht as [->| ->].
    + now rewrite app_nil_r in Es.
    + exfalso. rewrite Es, forallb_app in Hs. apply andb_true_iff in Hs.
      destruct Hs as [_ Hs]. discriminate.
Qed.

(** On a declaration the result is that of the method name it declares. *)
Lemma declaration_result input n :
  extract_method_name_from_declaration input = Some n ->
  extract_findby_variable_name input = extract_findby_variable_name n.
Proof.
  intros H. destruct (declaration_name_ident input n H) as [Hne Hid].
  unfold extract_findby_variable_name at 2.
  rewrite (bare_name_not_declaration n Hid), (strip_ident n Hid).
  unfold extract_findby_variable_name. rewrite H.
  destruct input as [|c0 i0]; [discriminate H|].
  destruct n as [|c n']; [congruence|]. reflexivity.
Qed.

End ExtractFindbyProps.

(** ** detect_repository *)

Section DetectRepositoryProps.

Import DetectRepository.

(** A processed marker anywhere in the text is found by the search. *)
Lemma processed_marker_found pre ws1 ws2 post :
  forallb isspace ws1 = true -> forallb isspace ws2 = true ->
  found (re_search processed_pattern
           (pre ++ py "/*" ++ ws1 ++ py "@Repository" ++ ws2 ++ py "*/"
                ++ post)) = true.
Proof.
  intros H1 H2. apply re_search_found. exists pre. eexists. eexists.
  split; [reflexivity|]. unfold processed_pattern. cbn [seq].
  apply Match_Cat_iff. eexists. split.
  { apply Match_lit_iff. eexists. split; reflexivity. }
  apply Match_Cat_iff. eexists. split.
  { apply Match_ws_star_iff. exists ws1. eexists. cbn [ms_rest].
    split; [reflexivity|]. split; [exact H1|reflexivity]. }
  apply Match_Cat_iff. eexists. split.
  { apply Match_lit_iff. eexists. split; reflexivity. }
  apply Match_Cat_iff. eexists. split.
  { apply Match_ws_star_iff. exists ws2. eexists. cbn [ms_rest].
    split; [reflexivity|]. split; [exact H2|reflexivity]. }
  apply Match_lit_iff. exists post. split; reflexivity.
Qed.

(** The search finds only such a marker. *)
Lemma processed_marker_shape content :
  found (re_search processed_pattern content) = true ->
  exists pre ws1 ws2 post,
    forallb isspace ws1 = true /\ forallb isspace ws2 = true
    /\ content = pre ++ py "/*" ++ ws1 ++ py "@Repository" ++ ws2 ++ py "*/"
                     ++ post.
Proof.
  intros H. apply re_search_found in H. destruct H as (pre & suf & m & -> & H).
  unfold processed_pattern in H. cbn [seq] in H.
  apply Match_Cat_iff in H. destruct H as (s1 & H1 & H).
  apply Match_lit_iff in H1. destruct H1 as (t1 & Hr1 & ->).
  apply Match_Cat_iff in H. destruct H as (s2 & H2 & H).
  apply Match_ws_star_iff in H2. destruct H2 as (w1 & t2 & Hr2 & Hw1 & ->).
  apply Match_Cat_iff in H. destruct H as (s3 & H3 & H).
  apply Match_lit_iff in H3. destruct H3 as (t3 & Hr3 & ->).
  apply Match_Cat_iff in H. destruct H as (s4 & H4 & H).
  apply Match_ws_star_iff in H4. destruct H4 as (w2 & t4 & Hr4 & Hw2 & ->).
  apply Match_lit_iff in H. destruct H as (t5 & Hr5 & ->).
  cbn [ms_rest] in *. subst. exists pre, w1, w2, t5. auto.
Qed.

Lemma processed_suppresses content :
  found (re_search processed_pattern content) = true ->
  find_repository_annotation content = false
  /\ detect_repository (Some content) = None.
Proof.
  intros H.
  assert (F : find_repository_annotation content = false).
  { unfold find_repository_annotation. rewrite H.
    destruct (found (re_search pattern content)); reflexivity. }
  split; [exact F|]. unfold detect_repository. now rewrite F.
Qed.

(** C10. One processed marker, slash star @Repository star slash with any
    white space around the name, anywhere in the text of a file suppresses
    detection for the whole file: [find_repository_annotation] is false and
    [detect_repository] returns [None], whatever else the text holds, an
    unprocessed [/// @Repository] line included. *)
Theorem processed_marker_suppresses_detection :
  forall pre ws1 ws2 post,
    forallb isspace ws1 = true -> forallb isspace ws2 = true ->
    find_repository_annotation
      (pre ++ py "/*" ++ ws1 ++ py "@Repository" ++ ws2 ++ py "*/" ++ post)
    = false
    /\ detect_repository
         (Some (pre ++ py "/*" ++ ws1 ++ py "@Repository" ++ ws2 ++ py "*/"
                    ++ post))
       = None.
Proof.
  intros pre ws1 ws2 post H1 H2. apply processed_suppresses.
  now apply processed_marker_found.
Qed.

Lemma processed_marker_suppresses_detection_witness :
  found (re_search pattern
           (two_markers_pre ++ py "/*" ++ py " " ++ py "@Repository"
                            ++ py " " ++ py "*/" ++ [nl])) = true
  /\ detect_repository (Some two_markers_pre)
     = Some (py "UserRepository", py "User", py "int", false)
  /\ find_repository_annotation
       (two_markers_pre ++ py "/*" ++ py " " ++ py "@Repository" ++ py " "
                        ++ py "*/" ++ [nl]) = false
  /\ detect_repository
       (Some (two_markers_pre ++ py "/*" ++ py " " ++ py "@Repository"
                              ++ py " " ++ py "*/" ++ [nl])) = None.
Proof.
  split; [vm_compute; reflexivity|]. split; [vm_compute; reflexivity|].
  exact (processed_marker_suppresses_detection
           two_markers_pre (py " ") (py " ") [nl] eq_refl eq_refl).
Defined.

End DetectRepositoryProps.

(** ** The boundary locator *)

Section BoundaryProps.

Lemma class_decl_found_iff class_name s :
  found (re_search (class_decl_pattern class_name) s) = true
  <-> holds_class_decl class_name s.
Proof.
  rewrite re_search_found. unfold holds_class_decl, class_decl_pattern.
  cbn [seq]. split.
  - intros (pre & suf & m & -> & H).
    apply Match_Cat_iff in H. destruct H as (s1 & H1 & H).
    apply Match_lit_iff in H1. destruct H1 as (t1 & Hr1 & ->).
    apply Match_Cat_iff in H. destruct H as (s2 & H2 & H).
    apply Match_ws_plus_iff in H2.
    destruct H2 as (w & t2 & Hr2 & Hw & Hne & ->).
    apply Match_lit_iff in H. destruct H as (t3 & Hr3 & ->).
    cbn [ms_rest] in *. subst. exists pre, w, t3. auto.
  - intros (pre & w & post & -> & Hne & Hw). exists pre. eexists. eexists.
    split; [reflexivity|].
    apply Match_Cat_iff. eexists. split.
    { apply Match_lit_iff. eexists. split; reflexivity. }
    apply Match_Cat_iff. eexists. split.
    { apply Match_ws_plus_iff. exists w. eexists. cbn [ms_rest].
      split; [reflexivity|]. repeat split; auto. }
    apply Match_lit_iff. exists post. split; reflexivity.
Qed.

Lemma decl_line_iff class_name line :
  decl_line class_name line = true <->
  is_comment_line (strip line) = false
  /\ holds_class_decl class_name (strip line).
Proof.
  unfold decl_line. rewrite andb_true_iff, negb_true_iff, class_decl_found_iff.
  tauto.
Qed.

(** Before the declaration: the loop skips every line that is not one. *)
Lemma loop_skip class_name l1 : forall line_num rest b,
  (forall l, In l l1 -> decl_line class_name l = false) ->
  boundaries_loop class_name (l1 ++ rest) line_num None b
  = boundaries_loop class_name rest (line_num + length l1) None b.
Proof.
  induction l1 as [|l l1 IH]; intros n rest b H; simpl.
  - now rewrite Nat.add_0_r.
  - assert (Hl : decl_line class_name l = false) by (apply H; now left).
    unfold decl_line in Hl.
    destruct (is_comment_line (strip l)).
    + rewrite IH; [f_equal; lia|]. intros; apply H; now right.
    + simpl in Hl. rewrite Hl. rewrite IH; [f_equal; lia|].
      intros; apply H; now right.
Qed.

Lemma loop_no_decl class_name lines : forall line_num b,
  (forall l, In l lines -> decl_line class_name l = false) ->
  boundaries_loop class_name lines line_num None b = None.
Proof.
  intros n b H. rewrite <- (app_nil_r lines). rewrite loop_skip; auto.
Qed.

(** Lines split at the first one that satisfies [p]. *)
Lemma first_split {A : Type} (p : A -> bool) (l : list A) :
  (forall x, In x l -> p x = false)
  \/ exists l1 x l2, l = l1 ++ x :: l2 /\ p x = true
                     /\ forall y, In y l1 -> p y = false.
Proof.
  induction l as [|a l IH].
  - left. intros x [].
  - destruct (p a) eqn:Ea.
    + right. exists [], a, l. repeat split; auto. intros y [].
    + destruct IH as [IH|(l1 & x & l2 & -> & Hx & Hl1)].
      * left. intros x [<-|Hin]; auto.
      * right. exists (a :: l1), x, l2. repeat split; auto.
        intros y [<-|Hin]; auto.
Qed.

Lemma balance_app l1 l2 : balance (l1 ++ l2) = (balance l1 + balance l2)%Z.
Proof. induction l1; simpl; [reflexivity|]. rewrite IHl1. lia. Qed.

Lemma balance_snoc l x :
  balance (l ++ [x])
  = (balance l
     + (if is_comment_line (strip x) then 0 else brace_delta (strip x)))%Z.
Proof. rewrite balance_app. simpl. lia. Qed.

Lemma balance_cons l rest :
  balance (l :: rest)
  = ((if is_comment_line (strip l) then 0 else brace_delta (strip l))
     + balance rest)%Z.
Proof. reflexivity. Qed.

(** Inside the class: the loop returns at the first line it does not skip
    where the running count is zero. *)
Lemma loop_inside class_name lines : forall line_num start b s e,
  boundaries_loop class_name lines line_num (Some start) b = Some (s, e) ->
  s = start
  /\ exists k, e = line_num + k /\ k < length lines
               /\ is_comment_line (strip (nth k lines [])) = false
               /\ (b + balance (firstn (S k) lines) = 0)%Z
               /\ forall j, j < k ->
                            is_comment_line (strip (nth j lines [])) = false ->
                            (b + balance (firstn (S j) lines) <> 0)%Z.
Proof.
  induction lines as [|l lines IH]; intros n start b s e H.
  - discriminate.
  - cbn [boundaries_loop] in H.
    destruct (is_comment_line (strip l)) eqn:Ec.
    + apply IH in H. destruct H as [-> (k & -> & Hk & Hnc & Hz & Hj)].
      split; auto. exists (S k). split; [lia|]. split; [simpl; lia|].
      split; [exact Hnc|]. split.
      * rewrite firstn_cons, balance_cons, Ec. lia.
      * intros j Hjk Hjc. destruct j as [|j]; [simpl in Hjc; congruence|].
        rewrite firstn_cons, balance_cons, Ec.
        assert (Hj' := Hj j ltac:(lia) Hjc). lia.
    + unfold brace_delta in *.
      set (d := (Z.of_nat (count_chr "{"%char (strip l))
                 - Z.of_nat (count_chr "}"%char (strip l)))%Z) in *.
      replace (b + Z.of_nat (count_chr "{"%char (strip l))
               - Z.of_nat (count_chr "}"%char (strip l)))%Z
        with (b + d)%Z in H by (unfold d; lia).
      destruct (Z.eqb (b + d) 0) eqn:Ez.
      * inversion H; subst. apply Z.eqb_eq in Ez. split; auto.
        exists 0. split; [lia|]. split; [simpl; lia|].
        split; [exact Ec|]. split.
        -- rewrite firstn_cons, balance_cons, Ec. unfold brace_delta.
           fold d. simpl. lia.
        -- intros j Hj. lia.
      * apply Z.eqb_neq in Ez. apply IH in H.
        destruct H as [-> (k & -> & Hk & Hnc & Hz & Hj)].
        split; auto. exists (S k). split; [lia|]. split; [simpl; lia|].
        split; [exact Hnc|]. split.
        -- rewrite firstn_cons, balance_cons, Ec. unfold brace_delta.
           fold d. lia.
        -- intros j Hjk Hjc. rewrite firstn_cons, balance_cons, Ec.
           unfold brace_delta. fold d. destruct j as [|j].
           ++ simpl. lia.
           ++ simpl in Hjc. assert (Hj' := Hj j ltac:(lia) Hjc). lia.
Qed.

End BoundaryProps.

Section SpanProps.

Lemma slice_app_skip {A : Type} (l1 rest : list A) m :
  slice (length l1) (length l1 + m) (l1 ++ rest) = firstn m rest.
Proof.
  unfold slice. rewrite skipn_app, skipn_all, Nat.sub_diag. simpl.
  f_equal. lia.
Qed.

Lemma nth_app_skip {A : Type} (l1 rest : list A) i d :
  nth (length l1 + i) (l1 ++ rest) d = nth i rest d.
Proof. rewrite app_nth2; [f_equal; lia|lia]. Qed.

(** The shape of a returned span: the lines before the first declaration
    line, that line, and the [k] lines after it that the span takes in. *)
Lemma loop_span class_name lines s e :
  boundaries_loop class_name lines 1 None 0%Z = Some (s, e) ->
  exists l1 x l2 k,
    lines = l1 ++ x :: l2
    /\ (forall y, In y l1 -> decl_line class_name y = false)
    /\ decl_line class_name x = true
    /\ s = S (length l1) /\ e = s + k /\ k <= length l2
    /\ balance (x :: firstn k l2) = 0%Z
    /\ (0 < k -> is_comment_line (strip (nth (k - 1) l2 [])) = false)
    /\ (forall j, j < k ->
                  (j = 0 \/ is_comment_line (strip (nth (j - 1) l2 [])) = false)
                  -> balance (x :: firstn j l2) <> 0%Z).
Proof.
  intros H.
  destruct (first_split (decl_line class_name) lines)
    as [Hno|(l1 & x & l2 & -> & Hx & Hl1)].
  { rewrite loop_no_decl in H; [discriminate|exact Hno]. }
  rewrite loop_skip in H by exact Hl1.
  exists l1, x, l2. pose proof Hx as Hx'.
  unfold decl_line in Hx'. apply andb_true_iff in Hx'.
  destruct Hx' as [Hc Hf]. apply negb_true_iff in Hc.
  cbn [boundaries_loop] in H. rewrite Hc, Hf in H.
  destruct (Z.eqb (brace_delta (strip x)) 0) eqn:Ez.
  - inversion H; subst. apply Z.eqb_eq in Ez. exists 0.
    split; [reflexivity|]. split; [exact Hl1|]. split; [exact Hx|].
    split; [lia|]. split; [lia|]. split; [lia|]. split.
    { rewrite balance_cons, Hc. simpl. lia. }
    split; [lia|]. intros j Hj. lia.
  - apply Z.eqb_neq in Ez. apply loop_inside in H.
    destruct H as [-> (k & -> & Hk & Hnc & Hz & Hj)].
    exists (S k).
    split; [reflexivity|]. split; [exact Hl1|]. split; [exact Hx|].
    split; [lia|]. split; [lia|]. split; [lia|]. split.
    { rewrite balance_cons, Hc. exact Hz. }
    split.
    { intros _. now replace (S k - 1) with k by lia. }
    intros j Hjk Hjc. rewrite balance_cons, Hc. destruct j as [|j].
    + simpl. lia.
    + apply Hj; [lia|]. destruct Hjc as [Hjc|Hjc]; [discriminate|].
      now replace (S j - 1) with j in Hjc by lia.
Qed.

(** The same facts by line number. *)
Lemma span_facts class_name lines s e :
  boundaries_loop class_name lines 1 None 0%Z = Some (s, e) ->
  1 <= s /\ s <= e /\ e <= length lines
  /\ decl_line class_name (nth (s - 1) lines []) = true
  /\ (forall k, 1 <= k < s -> decl_line class_name (nth (k - 1) lines []) = false)
  /\ is_comment_line (strip (nth (e - 1) lines [])) = false
  /\ balance (slice (s - 1) e lines) = 0%Z
  /\ (forall k, s <= k < e ->
                is_comment_line (strip (nth (k - 1) lines [])) = false ->
                balance (slice (s - 1) k lines) <> 0%Z).
Proof.
  intros H. apply loop_span in H.
  destruct H as (l1 & x & l2 & k & -> & Hl1 & Hx & -> & -> & Hk & Hz & Hend & Hmid).
  assert (Hnth : forall i, nth (length l1 + i) (l1 ++ x :: l2) [] = nth i (x :: l2) [])
    by (intros; apply nth_app_skip).
  assert (Hsl : forall m, slice (length l1) (length l1 + m) (l1 ++ x :: l2)
                          = firstn m (x :: l2))
    by (intros; apply slice_app_skip).
  replace (S (length l1) - 1) with (length l1) by lia.
  split; [lia|]. split; [lia|]. split.
  { rewrite length_app. simpl. lia. }
  split.
  { specialize (Hnth 0). rewrite Nat.add_0_r in Hnth. now rewrite Hnth. }
  split.
  { intros j Hj. apply Hl1. rewrite app_nth1 by lia. apply nth_In. lia. }
  split.
  { replace (S (length l1) + k - 1) with (length l1 + k) by lia.
    rewrite Hnth. destruct k as [|k].
    - simpl. unfold decl_line in Hx. apply andb_true_iff in Hx.
      destruct Hx as [Hx _]. now apply negb_true_iff in Hx.
    - simpl. specialize (Hend ltac:(lia)).
      now replace (S k - 1) with k in Hend by lia. }
  split.
  { replace (S (length l1) + k) with (length l1 + S k) by lia.
    rewrite Hsl. rewrite firstn_cons. exact Hz. }
  intros j Hj Hjc.
  replace j with (length l1 + S (j - S (length l1))) by lia.
  rewrite Hsl, firstn_cons. apply Hmid; [lia|].
  remember (j - S (length l1)) as i eqn:Ei. destruct i as [|i]; [now left|].
  right. replace (j - 1) with (length l1 + S (S i - 1 + 0)) in Hjc by lia.
  rewrite Hnth in Hjc. simpl in Hjc.
  replace (i - 0 + 0) with i in Hjc by lia.
  now replace (S i - 1) with i by lia.
Qed.

End SpanProps.

(** ** find_class_boundaries *)

Section FindClassBoundaries.

(** C3, the behaviour on the failing input and around it.  Looking for
    [Foo] in a file that only declares [FooBar], both copies of the locator
    return the span of [FooBar].  The locator looks for the keyword
    [class], white space and the name taken literally, anywhere in the
    stripped line and with no word boundary on either side: a returned span
    starts at the first line that is not skipped as a comment and holds
    that text, the result is not-found when no line does, and every text
    that holds the declaration of a longer name holds the declaration of
    each of its prefixes.  In [foobar_foo_header] the detector of
    S1_check_dto_macro.py, which reads whole identifiers, reports the class
    [Foo] of line 5, the locator answers with the span of [FooBar], the
    fields read for [Foo] are those of [FooBar], and the pipeline writes
    the methods of [Foo] into [FooBar]. *)
Theorem class_name_matched_literally :
  S2.find_class_boundaries (Some foobar_header) (py "Foo") = Ret (Some (1, 3))
  /\ PrimaryKey.find_class_boundaries (Some foobar_header) (py "Foo")
     = Some (1, 3)
  /\ (forall name line,
        decl_line name line = true <->
        is_comment_line (strip line) = false
        /\ holds_class_decl name (strip line))
  /\ (forall text name s e,
        S2.find_class_boundaries (Some text) name = Ret (Some (s, e)) ->
        1 <= s <= length (readlines text)
        /\ decl_line name (nth (s - 1) (readlines text) []) = true
        /\ forall k, 1 <= k < s ->
                     decl_line name (nth (k - 1) (readlines text) []) = false)
  /\ (forall text name,
        (forall l, In l (readlines text) -> decl_line name l = false) ->
        S2.find_class_boundaries (Some text) name = Ret None)
  /\ (forall name suffix s,
        holds_class_decl (name ++ suffix) s -> holds_class_decl name s)
  /\ (forall text name,
        Ret (PrimaryKey.find_class_boundaries (Some text) name)
        = S2.find_class_boundaries (Some text) name)
  /\ S1.check_dto_macro (Some foobar_foo_header) (py "_Entity")
     = Ret (Some (S1.DtoInfo (py "Foo") 4 5))
  /\ S2.find_class_boundaries (Some foobar_foo_header) (py "Foo")
     = Ret (Some (1, 3))
  /\ S2.extract_all_fields (Some foobar_foo_header) (py "Foo")
     = Ret [Field (py "int") (py "a")]
  /\ Pipeline.pipeline true [] (Some foobar_foo_header)
     = Ret (Some foobar_foo_processed)
  /\ contains (py "Public Static Foo Deserialize(")
              (methods_block (py "Foo") 4) = true.
Proof.
  split; [vm_compute; reflexivity|]. split; [vm_compute; reflexivity|].
  split; [exact decl_line_iff|]. split.
  { intros text name s e H. unfold S2.find_class_boundaries in H.
    inversion H as [H']. apply span_facts in H'.
    destruct H' as (H1 & H2 & H3 & H4 & H5 & _). repeat split; auto; lia. }
  split.
  { intros text name H. unfold S2.find_class_boundaries.
    now rewrite loop_no_decl. }
  split.
  { intros name suffix s (pre & w & post & -> & Hne & Hw).
    exists pre, w, (suffix ++ post). rewrite <- app_assoc. auto. }
  split; [reflexivity|].
  repeat split; vm_compute; reflexivity.
Qed.

(** What holds of every span the locator returns. *)
Lemma span_invariant text name s e :
  S2.find_class_boundaries (Some text) name = Ret (Some (s, e)) ->
  1 <= s /\ s <= e /\ e <= length (readlines text)
  /\ is_comment_line (strip (nth (s - 1) (readlines text) [])) = false
  /\ holds_class_decl name (strip (nth (s - 1) (readlines text) []))
  /\ is_comment_line (strip (nth (e - 1) (readlines text) [])) = false
  /\ balance (slice (s - 1) e (readlines text)) = 0%Z
  /\ (forall k, s <= k < e ->
                is_comment_line (strip (nth (k - 1) (readlines text) []))
                = false ->
                balance (slice (s - 1) k (readlines text)) <> 0%Z).
Proof.
  intros H. unfold S2.find_class_boundaries in H. inversion H as [H'].
  apply span_facts in H'.
  destruct H' as (H1 & H2 & H3 & H4 & H5 & H6 & H7 & H8).
  apply decl_line_iff in H4. destruct H4 as [H4 H4'].
  repeat split; auto.
Qed.

(** C4, the behaviour on the failing input and around it.  Whenever
    [find_class_boundaries] returns a span, the start is not after the end,
    both are lines of the file, the start line is not a comment and holds
    the class keyword with the name, the end line is not a comment, the net
    brace count over the lines of the span that are not comments is zero,
    and at no earlier such line of the span is the running count zero.
    Nothing keeps the running count from being negative: in
    [namespace_header] the class is declared on the line that closes the
    namespace, the count is minus one on that line and zero on the next
    line, which is the opening brace of the class, and the span returned
    ends there, before the body of the class.  The fields of the class are
    then not found, and the injector puts its text before the opening
    brace. *)
Theorem type_span_invariant :
  (forall text name s e,
      S2.find_class_boundaries (Some text) name = Ret (Some (s, e)) ->
      1 <= s /\ s <= e /\ e <= length (readlines text)
      /\ is_comment_line (strip (nth (s - 1) (readlines text) [])) = false
      /\ holds_class_decl name (strip (nth (s - 1) (readlines text) []))
      /\ is_comment_line (strip (nth (e - 1) (readlines text) [])) = false
      /\ balance (slice (s - 1) e (readlines text)) = 0%Z
      /\ (forall k, s <= k < e ->
                    is_comment_line (strip (nth (k - 1) (readlines text) []))
                    = false ->
                    balance (slice (s - 1) k (readlines text)) <> 0%Z))
  /\ S2.find_class_boundaries (Some namespace_header) (py "Foo")
     = Ret (Some (2, 3))
  /\ PrimaryKey.find_class_boundaries (Some namespace_header) (py "Foo")
     = Some (2, 3)
  /\ (balance (slice 1 2 (readlines namespace_header)) = -1)%Z
  /\ slice 1 3 (readlines namespace_header)
     = [py "} class Foo" ++ [nl]; py "{" ++ [nl]]
  /\ S2.extract_all_fields (Some namespace_header) (py "Foo") = Ret []
  /\ S3Inject.inject_methods_into_class true (Some namespace_header)
       (py "Foo") (py "void f();") false
     = (Some namespace_injected, true).
Proof.
  split; [exact span_invariant|].
  repeat split; vm_compute; reflexivity.
Qed.

(** C2, the behaviour on the failing input and around it.  On a path that
    cannot be read the locator of S2_extract_dto_fields.py raises, and so
    does [extract_validation_fields], which calls it; the copy in
    inject_primary_key_methods.py returns not-found.  On a file that can be
    read the locator returns, with not-found when no line declares the
    class and when the braces never close. *)
Theorem unreadable_file_raises :
  (forall name, S2.find_class_boundaries None name = Raise UnboundLocalError)
  /\ (forall name macros,
        S7.extract_validation_fields None name macros
        = Raise UnboundLocalError)
  /\ (forall name, S2.extract_all_fields None name = Raise UnboundLocalError)
  /\ (forall name, PrimaryKey.find_class_boundaries None name = None)
  /\ (forall text name,
        exists r, S2.find_class_boundaries (Some text) name = Ret r)
  /\ (forall text name macros,
        exists r, S7.extract_validation_fields (Some text) name macros = Ret r)
  /\ (forall text name,
        (forall l, In l (readlines text) -> decl_line name l = false) ->
        S2.find_class_boundaries (Some text) name = Ret None
        /\ forall macros,
             S7.extract_validation_fields (Some text) name macros = Ret [])
  /\ S2.find_class_boundaries (Some unclosed_header) (py "Foo") = Ret None.
Proof.
  split; [reflexivity|]. split; [reflexivity|]. split; [reflexivity|].
  split; [reflexivity|]. split.
  { intros text name. eexists. reflexivity. }
  split.
  { intros text name macros. unfold S7.extract_validation_fields.
    cbn [S2.find_class_boundaries bind].
    destruct (boundaries_loop name (readlines text) 1 None 0%Z)
      as [[s e]|]; [|eexists; reflexivity].
    destruct (map fst macros); eexists; reflexivity. }
  split.
  { intros text name H.
    assert (E : S2.find_class_boundaries (Some text) name = Ret None).
    { unfold S2.find_class_boundaries. now rewrite loop_no_decl. }
    split; [exact E|]. intros macros. unfold S7.extract_validation_fields.
    rewrite E. reflexivity. }
  vm_compute. reflexivity.
Qed.

End FindClassBoundaries.

(** ** generate_serialization_methods *)

Section GeneratorProps.

Import S3.








End GeneratorProps.

(** ** The marker mutators *)

Section MutatorProps.

Lemma readlines_aux_concat s : forall cur,
  List.concat (readlines_aux cur s) = rev cur ++ s.
Proof.
  induction s as [|c s IH]; intros cur; simpl.
  - destruct cur as [|x cur]; simpl; [reflexivity|].
    now rewrite !app_nil_r.
  - destruct (chr_eqb c nl).
    + simpl. rewrite IH. simpl. now rewrite <- app_assoc.
    + rewrite IH. simpl. now rewrite <- app_assoc.
Qed.

(** Writing back the lines that were read gives the text that was read. *)
Lemma writelines_readlines text : writelines (readlines text) = text.
Proof. unfold writelines, readlines. now rewrite readlines_aux_concat. Qed.

Lemma lstrip_spaces n body : lstrip (spaces n ++ body) = lstrip body.
Proof. induction n as [|n IH]; simpl; auto. Qed.

Lemma spaces_length n : length (spaces n) = n.
Proof. apply repeat_length. Qed.

(** The indentation the mutators compute for a line indented by spaces. *)
Lemma indent_spaces n body :
  lstrip body = body ->
  length (spaces n ++ body) - length (lstrip (spaces n ++ body)) = n.
Proof.
  intros H. rewrite lstrip_spaces, H, length_app, spaces_length. lia.
Qed.

Lemma startswith_space n body :
  lstrip body = body -> body <> [] ->
  startswith (py " ") (spaces n ++ body) = negb (Nat.eqb n 0).
Proof.
  intros H Hne. destruct n as [|n]; [|reflexivity].
  destruct body as [|c body]; [congruence|].
  change (startswith (py " ") (spaces 0 ++ c :: body))
    with (chr_eqb " "%char c && true).
  destruct (chr_eqb " "%char c) eqn:E; [|reflexivity].
  exfalso. apply chr_eqb_eq in E. subst c.
  unfold lstrip in H. simpl in H.
  assert (L : length (dropwhile isspace body) <= length body).
  { clear. induction body as [|x b IH]; simpl; auto.
    destruct (isspace x); simpl; lia. }
  rewrite H in L. simpl in L. lia.
Qed.

Import S3Inject.

Lemma strip_nonempty_line line :
  strip line <> [] -> line <> [].
Proof. intros H ->. now apply H. Qed.

(** The Entity mutator on one line. *)
Lemma mark_line_unprocessed name n body :
  lstrip body = body ->
  is_unprocessed_entity_line name (spaces n ++ body) = true ->
  mark_line false name (spaces n ++ body)
  = (spaces n ++ processed_marker name, true).
Proof.
  intros Hb H. unfold is_unprocessed_entity_line in H.
  apply andb_true_iff in H. destruct H as [Hp Ha].
  apply negb_true_iff in Hp. unfold mark_line. rewrite Hp, Ha.
  assert (Hne : body <> []).
  { intros ->. rewrite app_nil_r in Ha.
    assert (E : strip (spaces n) = []).
    { unfold strip, rstrip.
      assert (R : forall m, dropwhile isspace (spaces m) = []).
      { induction m; simpl; auto. }
      unfold spaces. rewrite rev_repeat. fold (spaces n). rewrite R.
      reflexivity. }
    rewrite E in Ha. vm_compute in Ha. discriminate. }
  rewrite (startswith_space n body Hb Hne), (indent_spaces n body Hb).
  destruct n; reflexivity.
Qed.

Lemma mark_line_processed dry_run name line :
  is_processed_entity_line name line = true ->
  mark_line dry_run name line = (line, false).
Proof. unfold is_processed_entity_line, mark_line. intros ->. reflexivity. Qed.

Lemma mark_line_other dry_run name line :
  is_processed_entity_line name line = false ->
  is_unprocessed_entity_line name line = false ->
  mark_line dry_run name line = (line, false).
Proof.
  unfold is_processed_entity_line, is_unprocessed_entity_line, mark_line.
  intros -> H. simpl in H. now rewrite H.
Qed.

Lemma mark_line_unmodified dry_run name line :
  snd (mark_line dry_run name line) = false ->
  fst (mark_line dry_run name line) = line.
Proof.
  unfold mark_line.
  destruct (found (re_match (processed_line_pattern name) (strip line)));
    [reflexivity|].
  destruct (found (re_match (annotation_line_pattern name) (strip line)));
    [|reflexivity].
  destruct (startswith (py " ") line), dry_run; simpl; congruence.
Qed.

Lemma map_unmodified dry_run name lines :
  existsb snd (map (mark_line dry_run name) lines) = false ->
  map fst (map (mark_line dry_run name) lines) = lines.
Proof.
  induction lines as [|l lines IH]; simpl; auto.
  intros H. apply orb_false_iff in H. destruct H as [H1 H2].
  rewrite (mark_line_unmodified _ _ _ H1), (IH H2). reflexivity.
Qed.

(** The Entity mutator on a file: every line goes through [mark_line]. *)
Lemma mark_dto_all_lines text serializable_annotation :
  mark_dto_annotation_processed true (Some text) false serializable_annotation
  = (Some (writelines
             (map (fun l =>
                     fst (mark_line false
                            (S1.annotation_name serializable_annotation) l))
                  (readlines text))),
     true).
Proof.
  unfold mark_dto_annotation_processed.
  set (name := S1.annotation_name serializable_annotation).
  rewrite map_map.
  destruct (existsb snd (map (mark_line false name) (readlines text))) eqn:E.
  - reflexivity.
  - simpl. apply map_unmodified in E. rewrite map_map in E.
    now rewrite E, writelines_readlines.
Qed.

Import ProcessRepository.

(** The Repository mutator stops at the first annotation line. *)
Lemma rewrite_first_split l1 m l2 :
  (forall l, In l l1 -> is_annotation_line l = false) ->
  is_annotation_line m = true ->
  rewrite_first (l1 ++ m :: l2) = (l1 ++ rewrite_line m :: l2, true).
Proof.
  intros H Hm. induction l1 as [|l l1 IH]; simpl.
  - now rewrite Hm.
  - rewrite (H l) by now left. rewrite IH; auto.
    intros; apply H; now right.
Qed.

Lemma rewrite_first_none lines :
  (forall l, In l lines -> is_annotation_line l = false) ->
  rewrite_first lines = (lines, false).
Proof.
  intros H. induction lines as [|l lines IH]; simpl; auto.
  rewrite (H l) by now left. rewrite IH; auto.
  intros; apply H; now right.
Qed.

Lemma rewrite_line_spaces n body :
  lstrip body = body -> body <> [] ->
  rewrite_line (spaces n ++ body) = spaces n ++ processed_marker.
Proof.
  intros Hb Hne. unfold rewrite_line.
  rewrite (startswith_space n body Hb Hne), (indent_spaces n body Hb).
  destruct n; reflexivity.
Qed.

End MutatorProps.

Section MutatorSpec.

Import S3Inject ProcessRepository.

(** A marker line that does not start with a space is rewritten without
    its indentation. *)
Lemma mark_line_not_space name line :
  startswith (py " ") line = false ->
  is_unprocessed_entity_line name line = true ->
  mark_line false name line = (S3Inject.processed_marker name, true).
Proof.
  intros Hs H. unfold is_unprocessed_entity_line in H.
  apply andb_true_iff in H. destruct H as [Hp Ha].
  apply negb_true_iff in Hp. unfold mark_line. now rewrite Hp, Ha, Hs.
Qed.

Lemma rewrite_line_not_space line :
  startswith (py " ") line = false ->
  rewrite_line line = ProcessRepository.processed_marker.
Proof. intros Hs. unfold rewrite_line. now rewrite Hs. Qed.

(** C8, the behaviour on the failing inputs and around them.  Entity and
    Serializable mutator: a line that holds the unprocessed marker alone,
    indented by spaces only, is rewritten to the same spaces, the
    processed marker and a newline; a line in processed form and every
    other line are kept as they are; on a file that can be written the
    call reports success, also when nothing was left to rewrite; a dry run
    leaves the file alone.  Repository mutator: the first annotation line
    is rewritten to the processed marker behind the line's leading spaces
    and every other line, later annotation lines included, is kept; when
    no annotation line is left and a processed one is present, the file is
    kept and the call reports success.  Against the contract, the Entity
    mutator treats every line of the file this way and so rewrites every
    unprocessed marker line, not the first only: on [two_entities_header]
    it rewrites both markers, and the pipeline, which processes the first
    class only, leaves [B] without methods and without a marker that
    detection would find.  And both mutators drop the indentation of a
    marker line that does not start with a space: a marker behind a tab is
    rewritten without the tab. *)
Theorem marker_mutators_contract :
  (forall name n body,
     lstrip body = body ->
     is_unprocessed_entity_line name (spaces n ++ body) = true ->
     mark_line false name (spaces n ++ body)
     = (spaces n ++ py "/*--" ++ name ++ py "--*/" ++ [nl], true))
  /\ (forall dry_run name line,
        is_processed_entity_line name line = true ->
        mark_line dry_run name line = (line, false))
  /\ (forall dry_run name line,
        is_processed_entity_line name line = false ->
        is_unprocessed_entity_line name line = false ->
        mark_line dry_run name line = (line, false))
  /\ (forall text serializable_annotation,
        mark_dto_annotation_processed true (Some text) false
                                      serializable_annotation
        = (Some (writelines
                   (map (fun l =>
                           fst (mark_line false
                                  (S1.annotation_name serializable_annotation)
                                  l))
                        (readlines text))),
           true))
  /\ (forall text dry_run serializable_annotation,
        snd (mark_dto_annotation_processed true (Some text) dry_run
                                           serializable_annotation) = true)
  /\ (forall writable text serializable_annotation,
        fst (mark_dto_annotation_processed writable (Some text) true
                                           serializable_annotation)
        = Some text)
  /\ (forall writable,
        mark_dto_annotation_processed writable (Some two_entities_marked)
                                      false (py "_Entity")
        = (Some two_entities_marked, true))
  /\ (forall content l1 m l2,
        split_nl content = l1 ++ m :: l2 ->
        (forall l, In l l1 -> is_annotation_line l = false) ->
        is_annotation_line m = true ->
        comment_repository_annotation true (Some content) false
        = (Some (join [nl] (l1 ++ rewrite_line m :: l2)), true))
  /\ (forall n body,
        lstrip body = body -> body <> [] ->
        rewrite_line (spaces n ++ body) = spaces n ++ py "/* @Repository */")
  /\ (forall writable content dry_run,
        (forall l, In l (split_nl content) -> is_annotation_line l = false) ->
        (exists l, In l (split_nl content) /\ is_processed_line l = true) ->
        comment_repository_annotation writable (Some content) dry_run
        = (Some content, true))
  /\ comment_repository_annotation true (Some two_repositories_header) false
     = (Some two_repositories_marked, true)
  /\ mark_dto_annotation_processed true (Some two_entities_header) false
                                   (py "_Entity")
     = (Some two_entities_marked, true)
  /\ Pipeline.pipeline true [] (Some two_entities_header)
     = Ret (Some two_entities_processed)
  /\ S1.check_dto_macro (Some two_entities_processed) (py "_Entity")
     = Ret None
  /\ contains (py "Serialize()") (methods_block (py "A") 4) = true
  /\ (forall name line,
        startswith (py " ") line = false ->
        is_unprocessed_entity_line name line = true ->
        mark_line false name line = (py "/*--" ++ name ++ py "--*/" ++ [nl],
                                     true))
  /\ (forall line,
        startswith (py " ") line = false ->
        rewrite_line line = py "/* @Repository */")
  /\ mark_dto_annotation_processed true
       (Some (tab :: py "/* @Entity */" ++ [nl])) false (py "_Entity")
     = (Some (py "/*--@Entity--*/" ++ [nl]), true)
  /\ comment_repository_annotation true
       (Some (tab :: py "/// @Repository")) false
     = (Some (py "/* @Repository */"), true).
Proof.
  split; [exact mark_line_unprocessed|].
  split; [exact mark_line_processed|].
  split; [exact mark_line_other|].
  split; [exact mark_dto_all_lines|].
  split.
  { intros text dry_run ann. unfold mark_dto_annotation_processed.
    destruct (existsb snd _ && negb dry_run); reflexivity. }
  split.
  { intros writable text ann. unfold mark_dto_annotation_processed.
    rewrite andb_false_r. reflexivity. }
  split; [intros writable; vm_compute; reflexivity|].
  split.
  { intros content l1 m l2 E H Hm. unfold comment_repository_annotation.
    rewrite E, (rewrite_first_split l1 m l2 H Hm). reflexivity. }
  split; [exact rewrite_line_spaces|].
  split.
  { intros writable content dry_run H (l & Hin & Hl).
    unfold comment_repository_annotation.
    rewrite (rewrite_first_none _ H). cbn [negb].
    f_equal. apply existsb_exists. eauto. }
  split; [vm_compute; reflexivity|].
  split; [vm_compute; reflexivity|].
  split; [vm_compute; reflexivity|].
  split; [vm_compute; reflexivity|].
  split; [vm_compute; reflexivity|].
  split; [exact mark_line_not_space|].
  split; [exact rewrite_line_not_space|].
  split; vm_compute; reflexivity.
Qed.

End MutatorSpec.

(** ** inject_methods_into_class *)

Section InjectorProps.

Import S3Inject.

Lemma concat_splice (i : nat) (new lines : list str) :
  List.concat (splice i new lines)
  = List.concat (firstn i lines) ++ List.concat new
    ++ List.concat (skipn i lines).
Proof. unfold splice. now rewrite !concat_app. Qed.

Lemma concat_firstn_skipn (i : nat) (lines : list str) :
  List.concat lines
  = List.concat (firstn i lines) ++ List.concat (skipn i lines).
Proof. now rewrite <- concat_app, firstn_skipn. Qed.

(** The downward scan finds the last code line of its range. *)
Lemma scan_down_Some lines lo : forall count i,
  scan_down lines lo count = Some i ->
  lo <= i < lo + count
  /\ is_code_line (nth i lines []) = true
  /\ forall j, i < j < lo + count -> is_code_line (nth j lines []) = false.
Proof.
  induction count as [|n IH]; intros i H; simpl in H; [discriminate|].
  destruct (is_code_line (nth (lo + n) lines [])) eqn:E.
  - inversion H; subst. split; [lia|]. split; [exact E|].
    intros j Hj. lia.
  - apply IH in H. destruct H as (H1 & H2 & H3).
    split; [lia|]. split; [exact H2|]. intros j Hj.
    destruct (Nat.eq_dec j (lo + n)) as [->|Hne]; auto. apply H3. lia.
Qed.

Lemma scan_down_None lines lo : forall count,
  scan_down lines lo count = None ->
  forall j, lo <= j < lo + count -> is_code_line (nth j lines []) = false.
Proof.
  induction count as [|n IH]; intros H j Hj; simpl in H; [lia|].
  destruct (is_code_line (nth (lo + n) lines [])) eqn:E; [discriminate|].
  destruct (Nat.eq_dec j (lo + n)) as [->|Hne]; auto. apply IH; auto. lia.
Qed.

(** A declaration line is neither blank nor a comment. *)
Lemma decl_line_is_code class_name line :
  decl_line class_name line = true -> is_code_line line = true.
Proof.
  intros H. apply decl_line_iff in H. destruct H as [Hc Hd].
  unfold is_comment_line in Hc. apply orb_false_iff in Hc.
  destruct Hc as [Hc _]. apply orb_false_iff in Hc. destruct Hc as [H1 H2].
  unfold is_code_line. rewrite H1, H2.
  destruct (strip line) as [|c s] eqn:E; [|reflexivity].
  destruct Hd as (pre & w & post & Hs & _). destruct pre; discriminate.
Qed.

(** Where the text goes in a span of more than one line. *)
Lemma insert_index_facts class_name lines s e :
  boundaries_loop class_name lines 1 None 0%Z = Some (s, e) ->
  s < e ->
  let i := insert_index lines s e in
  s <= i <= e - 1
  /\ is_code_line (nth (i - 1) lines []) = true
  /\ forall j, i <= j < e - 1 -> is_code_line (nth j lines []) = false.
Proof.
  intros H Hlt. apply span_facts in H.
  destruct H as (H1 & _ & _ & Hd & _). apply decl_line_is_code in Hd.
  unfold insert_index.
  destruct (scan_down lines (s - 1) (e - 1 - (s - 1))) as [i|] eqn:E.
  - apply scan_down_Some in E. destruct E as (E1 & E2 & E3). cbv zeta.
    replace (i + 1 - 1) with i by lia. split; [lia|]. split; [exact E2|].
    intros j Hj. apply E3. lia.
  - exfalso. apply scan_down_None with (j := s - 1) in E; [congruence|lia].
Qed.

End InjectorProps.

Section InjectorSpec.

Import S3Inject.


(** The text read never holds a carriage return, so carriage returns of
    the file are not written back: the injector turns the line ends of
    [customer_header_crlf] into newlines. *)
Lemma carriage_returns_not_kept :
  (forall bytes, no_cr (universal_newlines bytes) = true)
  /\ universal_newlines customer_header_crlf = customer_header
  /\ inject_methods_into_class true
       (Some (universal_newlines customer_header_crlf)) (py "Customer")
       (py "void f();") false
     = (Some customer_injected, true)
  /\ no_cr customer_injected = true.
Proof.
  split.
  { intros bytes. remember (length bytes) as n eqn:En.
    revert bytes En. induction n as [n IH] using lt_wf_ind.
    intros bytes En. destruct bytes as [|c t]; [reflexivity|].
    cbn [universal_newlines]. destruct (chr_eqb c cr) eqn:Ec.
    - unfold no_cr. cbn [forallb]. change (negb (chr_eqb nl cr)) with true.
      cbn [andb]. destruct t as [|c' t']; [reflexivity|].
      destruct (chr_eqb c' nl).
      + apply (IH (length t')); [simpl in En; lia|reflexivity].
      + apply (IH (length (c' :: t'))); [simpl in En |- *; lia|reflexivity].
    - unfold no_cr. cbn [forallb]. rewrite Ec. cbn [negb andb].
      apply (IH (length t)); [simpl in En; lia|reflexivity]. }
  repeat split; vm_compute; reflexivity.
Qed.




End InjectorSpec.

(** ** The pipeline run twice *)

Section PipelineSpec.

Import Pipeline.

Lemma second_run_without_marker writable macros f f1 :
  pipeline writable macros f = Ret f1 ->
  S1.check_dto_macro f1 (py "_Entity") = Ret None ->
  pipeline writable macros f1 = Ret f1.
Proof.
  intros _ Hd. unfold pipeline, process_file. rewrite Hd. reflexivity.
Qed.

(** C1.  A second run finds no class, and so leaves the file as it is, on
    every output of a first run in which detection finds no marker any more;
    the header [customer_header] is such a file, its marker is rewritten by
    the first run.  In [marker_after_brace] the marker is not on a line of
    its own and stays as it is; the second run finds the class again and
    the test for the three methods in the class text stops it.  In
    [one_line_entity] the marker stays as well, and the methods have been
    put before the line of the class, out of the text the test reads: the
    second run puts them into the file a second time. *)
Theorem second_run_on_one_line_class :
  (forall writable macros f f1,
      pipeline writable macros f = Ret f1 ->
      S1.check_dto_macro f1 (py "_Entity") = Ret None ->
      pipeline writable macros f1 = Ret f1)
  /\ (exists t1,
         pipeline true [] (Some customer_header) = Ret (Some t1)
         /\ t1 <> customer_header
         /\ S1.check_dto_macro (Some t1) (py "_Entity") = Ret None
         /\ pipeline true [] (Some t1) = Ret (Some t1))
  /\ (exists t1,
         pipeline true [] (Some marker_after_brace) = Ret (Some t1)
         /\ t1 <> marker_after_brace
         /\ S1.check_dto_macro (Some t1) (py "_Entity")
            = Ret (Some (S1.DtoInfo (py "Foo") 1 1))
         /\ pipeline true [] (Some t1) = Ret (Some t1))
  /\ pipeline true [] (Some one_line_entity)
     = Ret (Some (foo_block 4 ++ one_line_entity))
  /\ pipeline true [] (Some (foo_block 4 ++ one_line_entity))
     = Ret (Some (foo_block 4 ++ foo_block 8 ++ one_line_entity))
  /\ contains (py "GetPrimaryKey()") (foo_block 8) = true
  /\ bind (pipeline true [] (Some one_line_entity)) (pipeline true [])
     <> pipeline true [] (Some one_line_entity).
Proof.
  split; [exact second_run_without_marker|].
  split.
  { eexists. split; [vm_compute; reflexivity|].
    split; [intros E; apply (f_equal (@length _)) in E; vm_compute in E;
            discriminate|].
    split; vm_compute; reflexivity. }
  split.
  { eexists. split; [vm_compute; reflexivity|].
    split; [intros E; apply (f_equal (@length _)) in E; vm_compute in E;
            discriminate|].
    split; vm_compute; reflexivity. }
  assert (E1 : pipeline true [] (Some one_line_entity)
               = Ret (Some (foo_block 4 ++ one_line_entity)))
    by (vm_compute; reflexivity).
  assert (E2 : pipeline true [] (Some (foo_block 4 ++ one_line_entity))
               = Ret (Some (foo_block 4 ++ foo_block 8 ++ one_line_entity)))
    by (vm_compute; reflexivity).
  split; [exact E1|]. split; [exact E2|].
  split; [vm_compute; reflexivity|].
  intros E.
  apply (f_equal (fun r => match r with
                           | Ret (Some t) => length t
                           | _ => 0
                           end)) in E.
  vm_compute in E. discriminate.
Qed.

End PipelineSpec.

(** ** Further properties of the generators and the injectors *)

Section TextLemmas.

Lemma contains_app_r sub a b : contains sub b = true -> contains sub (a ++ b) = true.
Proof.
  intros H. apply contains_iff in H. destruct H as (pre & post & ->).
  apply contains_iff. exists (a ++ pre), post. now rewrite <- app_assoc.
Qed.

Lemma contains_app_l sub a b : contains sub a = true -> contains sub (a ++ b) = true.
Proof.
  intros H. apply contains_iff in H. destruct H as (pre & post & ->).
  apply contains_iff. exists pre, (post ++ b). now rewrite <- !app_assoc.
Qed.

Lemma contains_mid sub a b : contains sub (a ++ sub ++ b) = true.
Proof. apply contains_iff. now exists a, b. Qed.

Lemma contains_trans a b c :
  contains a b = true -> contains b c = true -> contains a c = true.
Proof.
  intros H1 H2. apply contains_iff in H1, H2.
  destruct H1 as (p1 & q1 & ->), H2 as (p2 & q2 & ->).
  apply contains_iff. exists (p2 ++ p1), (q1 ++ q2).
  now rewrite <- !app_assoc.
Qed.

Lemma join_cons sep x rest :
  rest <> [] -> join sep (x :: rest) = x ++ sep ++ join sep rest.
Proof. destruct rest; [congruence|reflexivity]. Qed.

Lemma join_app sep a b :
  a <> [] -> b <> [] -> join sep (a ++ b) = join sep a ++ sep ++ join sep b.
Proof.
  intros Ha Hb. induction a as [|x a IH]; [congruence|].
  destruct a as [|y a].
  - simpl app. now rewrite join_cons.
  - change ((x :: y :: a) ++ b) with (x :: ((y :: a) ++ b)).
    rewrite join_cons by (simpl; discriminate).
    rewrite IH by discriminate.
    rewrite (join_cons sep x (y :: a)) by discriminate.
    now rewrite <- !app_assoc.
Qed.

Lemma contains_join sub sep parts l :
  In l parts -> contains sub l = true -> contains sub (join sep parts) = true.
Proof.
  intros Hin Hl. induction parts as [|x parts IH]; [destruct Hin|].
  destruct parts as [|y parts].
  - destruct Hin as [->|[]]. exact Hl.
  - rewrite join_cons by discriminate. destruct Hin as [->|Hin].
    + now apply contains_app_l.
    + apply contains_app_r, contains_app_r. now apply IH.
Qed.

Lemma split_aux_nonempty s : forall cur, split_aux cur s <> [].
Proof.
  induction s as [|c s IH]; intros cur; simpl; [discriminate|].
  destruct (chr_eqb c nl); [discriminate|apply IH].
Qed.

Lemma split_nl_nonempty s : split_nl s <> [].
Proof. apply split_aux_nonempty. Qed.

Lemma split_aux_join s : forall cur,
  join [nl] (split_aux cur s) = rev cur ++ s.
Proof.
  induction s as [|c s IH]; intros cur; simpl.
  - now rewrite app_nil_r.
  - destruct (chr_eqb c nl) eqn:E.
    + apply chr_eqb_eq in E. subst c.
      rewrite join_cons by apply split_aux_nonempty.
      now rewrite IH.
    + rewrite IH. simpl. now rewrite <- app_assoc.
Qed.

(** Joining what [split] gave restores the text. *)
Lemma join_split_nl s : join [nl] (split_nl s) = s.
Proof. unfold split_nl. now rewrite split_aux_join. Qed.

End TextLemmas.

Section GuardProps.

Import S3 S3Inject.

(** X1.  The text [generate_serialization_methods] writes always passes the
    test [inject_methods_into_class] makes before injecting: it holds
    [Serialize()], [Deserialize(] and [GetPrimaryKey()], whatever the class
    name, the fields, the validation table and the key fields are. *)
Theorem generated_methods_pass_guard :
  forall class_name fields validation_fields_by_macro id_fields,
    already_injected
      (generate_serialization_methods class_name fields
         validation_fields_by_macro id_fields) = true.
Proof.
  intros class_name fields v ids.
  unfold already_injected, generate_serialization_methods.
  rewrite !andb_true_iff. split; [split|].
  - apply contains_join with (l := py "    Public StdString Serialize() const {").
    + apply in_or_app. left. unfold serialize_lines.
      simpl. right. left. reflexivity.
    + vm_compute. reflexivity.
  - apply contains_join
      with (l := py "    Public Static " ++ class_name
                 ++ py " Deserialize(const StdString& input) {").
    + apply in_or_app. right. apply in_or_app. right. apply in_or_app. left.
      unfold deserialize_lines. simpl. right. left. reflexivity.
    + apply contains_iff.
      exists (py "    Public Static " ++ class_name ++ py " "),
             (py "const StdString& input) {").
      rewrite <- !app_assoc. reflexivity.
  - rewrite !app_assoc.
    rewrite join_app; [|destruct (serialize_lines fields); discriminate
                       |apply split_nl_nonempty].
    apply contains_app_r, contains_app_r.
    rewrite join_split_nl. unfold generate_primary_key_methods.
    destruct ids as [|k ids].
    + vm_compute. reflexivity.
    + apply contains_join
        with (l := py "    inline " ++ id_type k ++ py " GetPrimaryKey() {").
      * simpl. left. reflexivity.
      * apply contains_iff.
        exists (py "    inline " ++ id_type k ++ py " "), (py " {").
        rewrite <- !app_assoc. reflexivity.
Qed.

End GuardProps.

Section DryRunProps.

(** X2.  A dry run writes nothing and tells what the real run reports on
    a file that can be written: on every file, writable or not, and for
    every argument, the pipeline of one file, both injectors and the
    Repository mutator leave the file as it is when [dry_run] is set, and
    the two injectors and the Repository mutator return the flag the real
    run returns on the same file when it can be written.  On a file that
    cannot be written the real run leaves the file as it is, and it
    reports success only where the run on a writable file changes nothing
    either. *)
Theorem dry_run_writes_nothing :
  (forall writable validation_macros serializable_macro f f',
      Pipeline.process_file writable validation_macros serializable_macro
                            true f
      = Ret f' -> f' = f)
  /\ (forall writable f class_name methods_code,
         fst (S3Inject.inject_methods_into_class writable f class_name
                                                 methods_code true)
         = f
         /\ snd (S3Inject.inject_methods_into_class writable f class_name
                                                    methods_code true)
            = snd (S3Inject.inject_methods_into_class true f class_name
                                                      methods_code false))
  /\ (forall writable f class_name field_type field_name,
         fst (PrimaryKeyInject.inject_primary_key_methods
                writable f class_name field_type field_name true) = f
         /\ snd (PrimaryKeyInject.inject_primary_key_methods
                   writable f class_name field_type field_name true)
            = snd (PrimaryKeyInject.inject_primary_key_methods
                     true f class_name field_type field_name false))
  /\ (forall writable f,
         fst (ProcessRepository.comment_repository_annotation writable f true)
         = f
         /\ snd (ProcessRepository.comment_repository_annotation writable f
                                                                 true)
            = snd (ProcessRepository.comment_repository_annotation true f
                                                                   false))
  /\ (forall f class_name methods_code dry_run,
         fst (S3Inject.inject_methods_into_class false f class_name
                                                 methods_code dry_run) = f
         /\ (snd (S3Inject.inject_methods_into_class false f class_name
                                                     methods_code false)
             = true ->
             S3Inject.inject_methods_into_class true f class_name
                                                methods_code false
             = (f, true)))
  /\ (forall f class_name field_type field_name dry_run,
         fst (PrimaryKeyInject.inject_primary_key_methods
                false f class_name field_type field_name dry_run) = f
         /\ snd (PrimaryKeyInject.inject_primary_key_methods
                   false f class_name field_type field_name false) = false)
  /\ (forall f dry_run,
         fst (ProcessRepository.comment_repository_annotation false f dry_run)
         = f
         /\ (snd (ProcessRepository.comment_repository_annotation false f
                                                                  false)
             = true ->
             ProcessRepository.comment_repository_annotation true f false
             = (f, true))).
Proof.
  assert (Inj : forall writable f class_name methods_code,
             fst (S3Inject.inject_methods_into_class writable f class_name
                                                     methods_code true) = f
             /\ snd (S3Inject.inject_methods_into_class writable f class_name
                                                        methods_code true)
                = snd (S3Inject.inject_methods_into_class true f class_name
                                                          methods_code false)).
  { intros writable [text|] class_name methods_code; [|split; reflexivity].
    unfold S3Inject.inject_methods_into_class.
    destruct (S2.find_class_boundaries (Some text) class_name)
      as [[[s e]|]|]; try (split; reflexivity).
    destruct (S3Inject.already_injected _); split; reflexivity. }
  split.
  { intros writable macros marker f f' H. unfold Pipeline.process_file in H.
    destruct (S1.check_dto_macro f marker) as [[info|]|]; cbn [bind] in H;
      [|now inversion H|discriminate].
    destruct (S2.extract_all_fields f (S1.class_name info)); cbn [bind] in H;
      [|discriminate].
    destruct (S7.extract_validation_fields f (S1.class_name info) macros);
      cbn [bind] in H; [|discriminate].
    cbn [negb] in H.
    match type of H with
    | context [S3Inject.inject_methods_into_class writable f ?c ?m true] =>
        destruct (Inj writable f c m) as [E _];
        destruct (S3Inject.inject_methods_into_class writable f c m true)
          as [f2 ok]
    end.
    cbn [fst] in E. subst f2. destruct ok; now inversion H. }
  split; [exact Inj|].
  split.
  { intros writable [text|] class_name field_type field_name;
      [|split; reflexivity].
    unfold PrimaryKeyInject.inject_primary_key_methods.
    destruct (PrimaryKey.find_class_boundaries (Some text) class_name)
      as [[s e]|]; [|split; reflexivity].
    destruct (_ || _); split; reflexivity. }
  split.
  { intros writable [content|]; [|split; reflexivity].
    unfold ProcessRepository.comment_repository_annotation.
    destruct (ProcessRepository.rewrite_first (split_nl content)) as [l m].
    destruct m; split; reflexivity. }
  split.
  { intros [text|] class_name methods_code dry_run;
      [|split; [reflexivity|discriminate]].
    unfold S3Inject.inject_methods_into_class.
    destruct (S2.find_class_boundaries (Some text) class_name)
      as [[[s e]|]|]; try (split; [reflexivity|discriminate]).
    destruct (S3Inject.already_injected _); [split; reflexivity|].
    destruct dry_run; split; try reflexivity; discriminate. }
  split.
  { intros [text|] class_name field_type field_name dry_run;
      [|split; reflexivity].
    unfold PrimaryKeyInject.inject_primary_key_methods.
    destruct (PrimaryKey.find_class_boundaries (Some text) class_name)
      as [[s e]|]; [|split; reflexivity].
    destruct (_ || _); [split; reflexivity|].
    destruct dry_run; split; reflexivity. }
  intros [content|] dry_run; [|split; [reflexivity|discriminate]].
  unfold ProcessRepository.comment_repository_annotation.
  destruct (ProcessRepository.rewrite_first (split_nl content)) as [l m].
  destruct m; cbn [negb].
  - destruct dry_run; split; try reflexivity; discriminate.
  - split; [reflexivity|]. cbn [snd]. intros ->. reflexivity.
Qed.

End DryRunProps.

Section LocalityProps.

Lemma loop_append class_name more lines : forall line_num start b r,
  boundaries_loop class_name lines line_num start b = Some r ->
  boundaries_loop class_name (lines ++ more) line_num start b = Some r.
Proof.
  induction lines as [|l lines IH]; intros line_num start b r H;
    [discriminate|].
  cbn [boundaries_loop app] in *.
  destruct (is_comment_line (strip l)); [now apply IH|].
  destruct start as [st|].
  - destruct (Z.eqb _ 0); [exact H|now apply IH].
  - destruct (found _).
    + destruct (Z.eqb _ 0); [exact H|now apply IH].
    + now apply IH.
Qed.

End LocalityProps.

Section LocalitySpec.

Lemma readlines_aux_app_nl head more : forall cur,
  readlines_aux cur (head ++ nl :: more)
  = readlines_aux cur (head ++ [nl]) ++ readlines_aux [] more.
Proof.
  induction head as [|c head IH]; intros cur.
  - simpl. reflexivity.
  - cbn [app readlines_aux]. destruct (chr_eqb c nl).
    + now rewrite IH.
    + apply IH.
Qed.

Lemma readlines_app_nl head more :
  readlines (head ++ [nl] ++ more)
  = readlines (head ++ [nl]) ++ readlines more.
Proof. apply readlines_aux_app_nl. Qed.

(** X3.  The span of a class does not depend on what follows it: when a
    span is found in a text that ends with a newline, the same span is found
    after any text is appended to it, by both copies of
    [find_class_boundaries]. *)
Theorem span_ignores_text_after_it head more class_name s e :
  PrimaryKey.find_class_boundaries (Some (head ++ [nl])) class_name
  = Some (s, e) ->
  PrimaryKey.find_class_boundaries (Some (head ++ [nl] ++ more)) class_name
  = Some (s, e)
  /\ S2.find_class_boundaries (Some (head ++ [nl] ++ more)) class_name
     = Ret (Some (s, e)).
Proof.
  unfold PrimaryKey.find_class_boundaries, S2.find_class_boundaries.
  intros H. rewrite readlines_app_nl.
  rewrite (loop_append class_name (readlines more) _ _ _ _ _ H).
  split; reflexivity.
Qed.

Lemma span_ignores_text_after_it_witness :
  PrimaryKey.find_class_boundaries
    (Some (py "class Foo {
    int a;
};" ++ [nl])) (py "Foo") = Some (1, 3)
  /\ PrimaryKey.find_class_boundaries
       (Some (py "class Foo {
    int a;
};" ++ [nl] ++ py "class Foo { int b; };")) (py "Foo") = Some (1, 3)
  /\ S2.find_class_boundaries
       (Some (py "class Foo {
    int a;
};" ++ [nl] ++ py "class Foo { int b; };")) (py "Foo") = Ret (Some (1, 3)).
Proof.
  split; [vm_compute; reflexivity|].
  apply (span_ignores_text_after_it _ (py "class Foo { int b; };")).
  vm_compute. reflexivity.
Defined.

End LocalitySpec.

Section PrimaryKeyInjectSpec.

Import S3Inject PrimaryKeyInject.

Lemma concat_map_nl_split s :
  List.concat (map (fun line => line ++ [nl]) (split_nl s)) = s ++ [nl].
Proof.
  unfold split_nl.
  assert (G : forall cur,
             List.concat (map (fun line => line ++ [nl]) (split_aux cur s))
             = rev cur ++ s ++ [nl]).
  { induction s as [|c s IH]; intros cur; simpl.
    - now rewrite app_nil_r.
    - destruct (chr_eqb c nl) eqn:E.
      + apply chr_eqb_eq in E. subst c. simpl. rewrite IH. simpl.
        now rewrite <- app_assoc.
      + rewrite IH. simpl. now rewrite <- app_assoc. }
  apply (G []).
Qed.

(** X4.  The injector of [inject_primary_key_methods.py].  When the class
    text already holds [GetPrimaryKey()] or [GetTableName()] the call
    reports failure and leaves the file as it is.  When a real run reports
    success, the class has a span, the class text held neither of the two,
    and the file, which was writable, is the old one with one block put at
    the insertion line:
    a newline, the generated methods with the indentation of the closing
    line before every line that is not blank, and a newline; every line
    before and after the block is kept.  In a span of more than one line
    the block comes right after the last line before the closing line
    that is neither blank nor a comment. *)
Theorem primary_key_injection_frame :
  (forall writable text class_name field_type field_name dry_run s e,
      PrimaryKey.find_class_boundaries (Some text) class_name = Some (s, e) ->
      contains (py "GetPrimaryKey()")
               (List.concat (slice (s - 1) e (readlines text)))
      || contains (py "GetTableName()")
                  (List.concat (slice (s - 1) e (readlines text))) = true ->
      inject_primary_key_methods writable (Some text) class_name field_type
                                 field_name dry_run
      = (Some text, false))
  /\ (forall writable text class_name field_type field_name f',
         inject_primary_key_methods writable (Some text) class_name field_type
                                    field_name false = (f', true) ->
         exists s e,
           PrimaryKey.find_class_boundaries (Some text) class_name
           = Some (s, e)
           /\ contains (py "GetPrimaryKey()")
                       (List.concat (slice (s - 1) e (readlines text)))
              = false
           /\ contains (py "GetTableName()")
                       (List.concat (slice (s - 1) e (readlines text)))
              = false
           /\ text
              = List.concat (firstn (insert_index (readlines text) s e)
                                    (readlines text))
                ++ List.concat (skipn (insert_index (readlines text) s e)
                                      (readlines text))
           /\ f'
              = Some
                  (List.concat (firstn (insert_index (readlines text) s e)
                                       (readlines text))
                   ++ ([nl]
                       ++ join [nl]
                            (map (fun line =>
                                    match strip line with
                                    | [] => []
                                    | _ =>
                                        takewhile isspace
                                          (nth (e - 1) (readlines text) [])
                                        ++ line
                                    end)
                                 (split_nl
                                    (generate_primary_key_methods
                                       field_type field_name class_name)))
                       ++ [nl])
                   ++ List.concat (skipn (insert_index (readlines text) s e)
                                         (readlines text)))
           /\ (s < e ->
               s <= insert_index (readlines text) s e <= e - 1
               /\ is_code_line
                    (nth (insert_index (readlines text) s e - 1)
                         (readlines text) []) = true
               /\ forall j,
                    insert_index (readlines text) s e <= j < e - 1 ->
                    is_code_line (nth j (readlines text) []) = false)).
Proof.
  split.
  { intros writable text class_name field_type field_name dry_run s e Hb Hg.
    unfold inject_primary_key_methods. rewrite Hb, Hg. reflexivity. }
  intros writable text class_name field_type field_name f' H.
  unfold inject_primary_key_methods in H.
  destruct (PrimaryKey.find_class_boundaries (Some text) class_name)
    as [[s e]|] eqn:Eb; [|inversion H].
  exists s, e. split; [reflexivity|].
  destruct (contains (py "GetPrimaryKey()")
              (List.concat (slice (s - 1) e (readlines text)))) eqn:E1;
    [inversion H|].
  destruct (contains (py "GetTableName()")
              (List.concat (slice (s - 1) e (readlines text)))) eqn:E2;
    [inversion H|].
  cbn [orb] in H. destruct writable; [|discriminate H].
  cbn [write_file] in H. split; [reflexivity|]. split; [reflexivity|].
  split.
  { rewrite <- concat_firstn_skipn. symmetry. apply writelines_readlines. }
  split.
  { apply (f_equal fst) in H. cbn [fst] in H. rewrite <- H.
    unfold writelines.
    rewrite concat_splice, concat_map_nl_split.
    rewrite <- !app_assoc. reflexivity. }
  intros Hlt. unfold PrimaryKey.find_class_boundaries in Eb.
  exact (insert_index_facts class_name (readlines text) s e Eb Hlt).
Qed.

End PrimaryKeyInjectSpec.

Section IncludeProps.

Import S3.

Lemma last_index_spec (p : str -> bool) (lines : list str) : forall i acc,
  match last_index p lines i acc with
  | Some k =>
      (acc = Some k /\ forall l, In l lines -> p l = false)
      \/ (i <= k < i + length lines
          /\ p (nth (k - i) lines []) = true
          /\ forall j, k - i < j < length lines -> p (nth j lines []) = false)
  | None => acc = None /\ forall l, In l lines -> p l = false
  end.
Proof.
  induction lines as [|l lines IH]; intros i acc.
  - simpl. destruct acc; [left|]; split; auto; intros ? [].
  - cbn [last_index]. specialize (IH (S i) (if p l then Some i else acc)).
    destruct (last_index p lines (S i) (if p l then Some i else acc))
      as [k|].
    + destruct IH as [[E H]|(Hk & Hp & Hlater)].
      * destruct (p l) eqn:El.
        -- inversion E; subst k. right. rewrite Nat.sub_diag. simpl.
           split; [lia|]. split; [exact El|].
           intros j Hj. destruct j as [|j]; [lia|].
           apply H, nth_In. lia.
        -- left. split; [exact E|]. intros x [<-|Hx]; auto.
      * right. simpl length. split; [lia|].
        replace (k - i) with (S (k - S i)) by lia. simpl.
        split; [exact Hp|]. intros j Hj. destruct j as [|j]; [lia|].
        apply Hlater. lia.
    + destruct IH as [E H]. destruct (p l) eqn:El; [discriminate|].
      split; [exact E|]. intros x [<-|Hx]; auto.
Qed.

Lemma first_index_spec (p : str -> bool) (lines : list str) : forall i,
  match first_index p lines i with
  | Some k =>
      i <= k < i + length lines
      /\ p (nth (k - i) lines []) = true
      /\ forall j, j < k - i -> p (nth j lines []) = false
  | None => forall l, In l lines -> p l = false
  end.
Proof.
  induction lines as [|l lines IH]; intros i.
  - simpl. intros ? [].
  - cbn [first_index]. destruct (p l) eqn:El.
    + rewrite Nat.sub_diag. simpl. split; [lia|]. split; [exact El|].
      intros j Hj. lia.
    + specialize (IH (S i)). destruct (first_index p lines (S i)) as [k|].
      * destruct IH as (Hk & Hp & Hbefore). simpl length. split; [lia|].
        replace (k - i) with (S (k - S i)) by lia. simpl.
        split; [exact Hp|]. intros j Hj. destruct j as [|j]; [exact El|].
        apply Hbefore. lia.
      * intros x [<-|Hx]; auto.
Qed.

Lemma concat_insert_at (i : nat) (x : str) (lines : list str) :
  List.concat (insert_at i x lines)
  = List.concat (firstn i lines) ++ x ++ List.concat (skipn i lines).
Proof. unfold insert_at. rewrite concat_app. reflexivity. Qed.

(** The cases of [add_include_if_needed] on a file that can be read. *)
Lemma add_include_cases text include_path :
  (forall writable,
      check_include_exists (Some text) (include_key include_path) = true ->
      add_include_if_needed writable (Some text) include_path = Some text)
  /\ (check_include_exists (Some text) (include_key include_path) = false ->
      (exists k,
          k < length (readlines text)
          /\ is_include_line (nth k (readlines text) []) = true
          /\ (forall j, k < j < length (readlines text) ->
                        is_include_line (nth j (readlines text) []) = false)
          /\ add_include_if_needed true (Some text) include_path
             = Some (List.concat (firstn (S k) (readlines text))
                     ++ include_line include_path
                     ++ List.concat (skipn (S k) (readlines text))))
      \/ ((forall l, In l (readlines text) -> is_include_line l = false)
          /\ exists k,
              k < length (readlines text)
              /\ is_guard_define_line (nth k (readlines text) []) = true
              /\ (forall j, j < k ->
                    is_guard_define_line (nth j (readlines text) []) = false)
              /\ add_include_if_needed true (Some text) include_path
                 = Some (List.concat (firstn (S k) (readlines text))
                         ++ include_line include_path
                         ++ List.concat (skipn (S k) (readlines text))))
      \/ ((forall l, In l (readlines text) ->
                     is_include_line l = false
                     /\ is_guard_define_line l = false)
          /\ add_include_if_needed true (Some text) include_path
             = Some text)).
Proof.
  unfold add_include_if_needed.
  fold (include_key include_path). split; [intros writable ->; reflexivity|].
  intros ->. cbn [write_file fst]. fold (include_line include_path).
  pose proof (last_index_spec is_include_line (readlines text) 0 None) as HL.
  unfold is_include_line in HL at 1.
  destruct (last_index (fun l => startswith (py "#include") (strip l))
                       (readlines text) 0 None) as [k|].
  - left. destruct HL as [[E _]|(Hk & Hp & Hlater)]; [discriminate|].
    rewrite Nat.sub_0_r in Hp, Hlater. exists k.
    split; [lia|]. split; [exact Hp|]. split; [exact Hlater|].
    unfold writelines. rewrite concat_insert_at.
    replace (k + 1) with (S k) by lia. reflexivity.
  - right. destruct HL as [_ Hnone].
    pose proof (first_index_spec is_guard_define_line (readlines text) 0)
      as HF.
    unfold is_guard_define_line in HF at 1.
    destruct (first_index
                (fun l => startswith (py "#define") (strip l)
                          && contains (py "_H") l) (readlines text) 0)
      as [k|].
    + left. split; [exact Hnone|]. destruct HF as (Hk & Hp & Hbefore).
      rewrite Nat.sub_0_r in Hp, Hbefore. exists k.
      split; [lia|]. split; [exact Hp|]. split; [exact Hbefore|].
      unfold writelines. rewrite concat_insert_at.
      replace (k + 1) with (S k) by lia. reflexivity.
    + right. split; [|now rewrite writelines_readlines].
      intros l Hl. split; [now apply Hnone|now apply HF].
Qed.

(** A file that cannot be written is left as it is. *)
Lemma add_include_not_writable f include_path :
  add_include_if_needed false f include_path = f.
Proof.
  unfold add_include_if_needed.
  destruct (check_include_exists f _); [reflexivity|].
  destruct f; reflexivity.
Qed.

(** X5.  What [add_include_if_needed] writes.  When the file already holds
    the key of the include (the path without angle brackets and quotes) it
    is left as it is.  Otherwise, on a file that can be written, the line
    [#include PATH] is put right after the last line that starts with
    [#include]; when there is none, right after the first line that starts
    with [#define] and holds [_H]; when there is none either, nothing is
    written.  All the lines of the file are kept, in order.  A file that
    cannot be written is left as it is. *)
Theorem add_include_if_needed_spec :
  forall text include_path,
    (forall writable,
        check_include_exists (Some text) (include_key include_path) = true ->
        add_include_if_needed writable (Some text) include_path = Some text)
    /\ (check_include_exists (Some text) (include_key include_path) = false ->
        (exists k,
            k < length (readlines text)
            /\ is_include_line (nth k (readlines text) []) = true
            /\ (forall j, k < j < length (readlines text) ->
                          is_include_line (nth j (readlines text) []) = false)
            /\ add_include_if_needed true (Some text) include_path
               = Some (List.concat (firstn (S k) (readlines text))
                       ++ include_line include_path
                       ++ List.concat (skipn (S k) (readlines text))))
        \/ ((forall l, In l (readlines text) -> is_include_line l = false)
            /\ exists k,
                k < length (readlines text)
                /\ is_guard_define_line (nth k (readlines text) []) = true
                /\ (forall j, j < k ->
                      is_guard_define_line (nth j (readlines text) []) = false)
                /\ add_include_if_needed true (Some text) include_path
                   = Some (List.concat (firstn (S k) (readlines text))
                           ++ include_line include_path
                           ++ List.concat (skipn (S k) (readlines text))))
        \/ ((forall l, In l (readlines text) ->
                       is_include_line l = false
                       /\ is_guard_define_line l = false)
            /\ add_include_if_needed true (Some text) include_path
               = Some text))
    /\ add_include_if_needed false (Some text) include_path = Some text.
Proof.
  intros text include_path.
  destruct (add_include_cases text include_path) as [Hyes Hno].
  split; [exact Hyes|]. split; [exact Hno|]. apply add_include_not_writable.
Qed.

(** X6.  [add_include_if_needed] applied twice writes what it writes when
    applied once, for every include path that holds its own key (a bare
    path, or one in angle brackets or in quotes), on a file that can be
    written and on one that cannot. *)
Theorem add_include_if_needed_idempotent writable f include_path :
  contains (include_key include_path) include_path = true ->
  add_include_if_needed writable
    (add_include_if_needed writable f include_path) include_path
  = add_include_if_needed writable f include_path.
Proof.
  intros Hkey. destruct writable; [|now rewrite !add_include_not_writable].
  destruct f as [text|]; [|reflexivity].
  destruct (add_include_cases text include_path) as [Hyes Hno].
  destruct (check_include_exists (Some text) (include_key include_path))
    eqn:Ec.
  - rewrite (Hyes true eq_refl). apply (Hyes true eq_refl).
  - assert (Hins : forall a b,
               add_include_if_needed true
                 (Some (a ++ include_line include_path ++ b)) include_path
               = Some (a ++ include_line include_path ++ b)).
    { intros a b. unfold add_include_if_needed.
      fold (include_key include_path).
      replace (check_include_exists
                 (Some (a ++ include_line include_path ++ b))
                 (include_key include_path)) with true; [reflexivity|].
      symmetry. unfold check_include_exists.
      apply orb_true_iff. left. apply orb_true_iff. left.
      apply contains_app_r, contains_app_l. unfold include_line.
      apply contains_app_r, contains_app_l. exact Hkey. }
    destruct (Hno eq_refl)
      as [(k & _ & _ & _ & E)|[(_ & k & _ & _ & _ & E)|(_ & E)]];
      rewrite E.
    + apply Hins.
    + apply Hins.
    + exact E.
Qed.

Lemma add_include_if_needed_idempotent_witness :
  contains (include_key (py "<optional>")) (py "<optional>") = true
  /\ add_include_if_needed true
       (add_include_if_needed true (Some (py "#include <a.h>
int x;
")) (py "<optional>")) (py "<optional>")
     = add_include_if_needed true (Some (py "#include <a.h>
int x;
")) (py "<optional>").
Proof.
  split; [vm_compute; reflexivity|].
  apply add_include_if_needed_idempotent. vm_compute. reflexivity.
Defined.

End IncludeProps.

Section GroupLemmas.

Lemma Match_keeps_group n r st st' :
  mentions n r = false -> Match r st st' ->
  assoc n (ms_caps st') = assoc n (ms_caps st).
Proof.
  intros G H. induction H; cbn [mentions] in G;
    try (apply orb_false_iff in G; destruct G as [G1 G2]);
    try reflexivity; auto.
  - rewrite IHMatch2, IHMatch1; auto.
  - rewrite IHMatch2, IHMatch1; auto.
  - cbn [set_cap ms_caps assoc]. rewrite G1. auto.
Qed.

(** The text of a group that no later part of the pattern captures again
    is what the group read. *)
Lemma Match_grp_tail n a tail st m :
  mentions n tail = false ->
  Match (Cat (Grp n a) tail) st m ->
  exists s', Match a st s' /\ group n m = consumed st s'.
Proof.
  intros G H. apply Match_Cat_iff in H. destruct H as (s1 & H1 & H2).
  apply Match_Grp_iff in H1. destruct H1 as (s' & Ha & ->).
  exists s'. split; [exact Ha|].
  unfold group. rewrite (Match_keeps_group n tail _ _ G H2).
  cbn [set_cap ms_caps assoc]. now rewrite Nat.eqb_refl.
Qed.

Lemma Match_grp_ident_tail n tail st m :
  mentions n tail = false ->
  Match (Cat (Grp n ident) tail) st m ->
  exists c w, group n m = c :: w /\ is_alpha_ c = true
              /\ forallb is_ident w = true.
Proof.
  intros G H. apply (Match_grp_tail n ident tail st m G) in H.
  destruct H as (s' & Hi & ->). apply Match_ident_iff in Hi.
  destruct Hi as (c & w & t & Hr & Hc & Hw & ->).
  exists c, w. split; [|auto]. destruct st as [p r cs].
  cbn [ms_rest] in Hr. subst r. apply consumed_app.
Qed.

End GroupLemmas.

Section DetectionProps.

Import S1.

Lemma class_pattern_name s m :
  re_search class_pattern s = Some m ->
  group 1 m <> [] /\ forallb is_ident (group 1 m) = true.
Proof.
  intros H. apply re_search_Some in H. destruct H as (pre & suf & -> & Hm).
  unfold class_pattern in Hm. cbn [seq] in Hm.
  apply Match_Cat_iff in Hm. destruct Hm as (s1 & _ & Hm).
  apply Match_Cat_iff in Hm. destruct Hm as (s2 & _ & Hm).
  apply Match_grp_ident_tail in Hm; [|reflexivity].
  destruct Hm as (c & w & -> & Hc & Hw). split; [discriminate|].
  cbn [forallb]. rewrite Hw, (alpha_is_ident c Hc). reflexivity.
Qed.

Lemma lookahead_sound name : forall window i cname k,
  lookahead name window i = Some (cname, k) ->
  i <= k < i + length window
  /\ exists m, re_search class_pattern (strip (nth (k - i) window []))
               = Some m
               /\ group 1 m = cname.
Proof.
  induction window as [|l rest IH]; intros i cname k H; [discriminate|].
  cbn [lookahead] in H.
  assert (Step : lookahead name rest (S i) = Some (cname, k) ->
                 i <= k < i + length (l :: rest)
                 /\ exists m,
                     re_search class_pattern
                               (strip (nth (k - i) (l :: rest) []))
                     = Some m /\ group 1 m = cname).
  { intros H'. apply IH in H'. destruct H' as (Hk & m & Hm & Hg).
    simpl length. split; [lia|].
    replace (k - i) with (S (k - S i)) by lia. exists m. auto. }
  destruct (startswith (py "/*") (strip l)
            && negb (found (re_search (annotation_pattern name) (strip l))));
    [now apply Step|].
  destruct (startswith (py "//") (strip l)); [now apply Step|].
  destruct (re_search class_pattern (strip l)) as [m|] eqn:Em.
  - inversion H; subst. simpl length. split; [lia|].
    rewrite Nat.sub_diag. exists m. auto.
  - destruct (strip l) eqn:Es; [now apply Step|].
    destruct (negb _); [discriminate|now apply Step].
Qed.

Lemma nth_firstn_lt {A : Type} (l : list A) (n j : nat) (d : A) :
  j < n -> nth j (firstn n l) d = nth j l d.
Proof.
  revert n j. induction l as [|x l IH]; intros n j Hj.
  - now rewrite firstn_nil.
  - destruct n as [|n]; [lia|]. destruct j as [|j]; [reflexivity|].
    simpl. apply IH. lia.
Qed.

Lemma check_loop_sound name : forall lines line_num info,
  check_loop name lines line_num = Some info ->
  line_num <= dto_line info /\ dto_line info <= class_line info
  /\ class_line info < line_num + length lines
  /\ class_line info <= dto_line info + 10
  /\ found (re_search (annotation_pattern name)
                      (strip (nth (dto_line info - line_num) lines [])))
     = true
  /\ found (re_search (processed_pattern name)
                      (strip (nth (dto_line info - line_num) lines [])))
     = false
  /\ startswith (py "//") (strip (nth (dto_line info - line_num) lines []))
     = false
  /\ exists m,
       re_search class_pattern
                 (strip (nth (class_line info - line_num) lines []))
       = Some m
       /\ group 1 m = class_name info.
Proof.
  induction lines as [|line rest IH]; intros line_num info H; [discriminate|].
  cbn [check_loop] in H.
  assert (Step : check_loop name rest (S line_num) = Some info ->
                 line_num <= dto_line info /\ dto_line info <= class_line info
                 /\ class_line info < line_num + length (line :: rest)
                 /\ class_line info <= dto_line info + 10
                 /\ found (re_search (annotation_pattern name)
                             (strip (nth (dto_line info - line_num)
                                         (line :: rest) []))) = true
                 /\ found (re_search (processed_pattern name)
                             (strip (nth (dto_line info - line_num)
                                         (line :: rest) []))) = false
                 /\ startswith (py "//")
                      (strip (nth (dto_line info - line_num)
                                  (line :: rest) [])) = false
                 /\ exists m,
                     re_search class_pattern
                       (strip (nth (class_line info - line_num)
                                   (line :: rest) [])) = Some m
                     /\ group 1 m = class_name info).
  { intros H'. apply IH in H'.
    destruct H' as (H1 & H2 & H3 & H4 & H5 & H6 & H7 & m & H8 & H9).
    simpl length.
    replace (dto_line info - line_num)
      with (S (dto_line info - S line_num)) by lia.
    replace (class_line info - line_num)
      with (S (class_line info - S line_num)) by lia.
    repeat (split; [first [lia | assumption]|]). exists m. auto. }
  destruct (found (re_search (processed_pattern name) (strip line))) eqn:Ep;
    [now apply Step|].
  destruct (startswith (py "/*") (strip line)
            && negb (found (re_search (annotation_pattern name)
                                      (strip line))));
    [now apply Step|].
  destruct (startswith (py "//") (strip line)) eqn:Ec; [now apply Step|].
  destruct (found (re_search (annotation_pattern name) (strip line))) eqn:Ea;
    [|now apply Step].
  destruct (lookahead name (firstn 11 (line :: rest)) line_num)
    as [[cname i]|] eqn:El; [|now apply Step].
  inversion H; subst info. cbn [dto_line class_line class_name].
  apply lookahead_sound in El. destruct El as (Hi & m & Hm & Hg).
  assert (L2 : length (firstn 11 (line :: rest)) <= 11).
  { rewrite length_firstn. lia. }
  rewrite nth_firstn_lt in Hm by lia.
  rewrite length_firstn in Hi.
  rewrite Nat.sub_diag. change (nth 0 (line :: rest) []) with line.
  repeat (split; [first [lia | assumption]|]). exists m. auto.
Qed.

(** X7.  What the detection of [check_dto_annotation] reports is there:
    when a class is reported, the reported marker line holds the
    unprocessed marker and not the processed one and is not a line comment;
    the class line is the marker line or one of the ten lines after it, and
    lies in the file; the reported name is the identifier the class pattern
    reads on the class line. *)
Theorem check_dto_annotation_sound text serializable_annotation info :
  check_dto_annotation (Some text) serializable_annotation = Ret (Some info) ->
  1 <= dto_line info /\ dto_line info <= class_line info
  /\ class_line info <= length (readlines text)
  /\ class_line info <= dto_line info + 10
  /\ found (re_search
              (annotation_pattern (annotation_name serializable_annotation))
              (strip (nth (dto_line info - 1) (readlines text) []))) = true
  /\ found (re_search
              (processed_pattern (annotation_name serializable_annotation))
              (strip (nth (dto_line info - 1) (readlines text) []))) = false
  /\ startswith (py "//")
                (strip (nth (dto_line info - 1) (readlines text) [])) = false
  /\ (exists m,
         re_search class_pattern
                   (strip (nth (class_line info - 1) (readlines text) []))
         = Some m
         /\ group 1 m = class_name info)
  /\ class_name info <> []
  /\ forallb is_ident (class_name info) = true.
Proof.
  intros H. unfold check_dto_annotation in H. inversion H as [H'].
  apply check_loop_sound in H'.
  destruct H' as (H1 & H2 & H3 & H4 & H5 & H6 & H7 & m & H8 & H9).
  repeat (split; [first [lia | assumption]|]).
  split; [exists m; auto|].
  rewrite <- H9. eapply class_pattern_name. exact H8.
Qed.

Lemma check_dto_annotation_sound_witness :
  check_dto_annotation (Some customer_header) (py "_Entity")
  = Ret (Some (DtoInfo (py "Customer") 1 2))
  /\ (1 <= 1 /\ 1 <= 2
      /\ 2 <= length (readlines customer_header)
      /\ 2 <= 1 + 10
      /\ found (re_search
                  (annotation_pattern (annotation_name (py "_Entity")))
                  (strip (nth (1 - 1) (readlines customer_header) []))) = true
      /\ found (re_search
                  (processed_pattern (annotation_name (py "_Entity")))
                  (strip (nth (1 - 1) (readlines customer_header) [])))
         = false
      /\ startswith (py "//")
                    (strip (nth (1 - 1) (readlines customer_header) []))
         = false
      /\ (exists m,
             re_search class_pattern
                       (strip (nth (2 - 1) (readlines customer_header) []))
             = Some m
             /\ group 1 m = py "Customer")
      /\ py "Customer" <> []
      /\ forallb is_ident (py "Customer") = true).
Proof.
  split; [vm_compute; reflexivity|].
  apply (check_dto_annotation_sound customer_header (py "_Entity")
           (DtoInfo (py "Customer") 1 2)).
  vm_compute. reflexivity.
Defined.

End DetectionProps.

Section LineLemmas.

Lemma lines_wf_cons l rest :
  terminated l -> lines_wf rest -> lines_wf (l :: rest).
Proof. intros Hl Hr. destruct rest; simpl; auto. Qed.

Lemma readlines_aux_wf s : forall cur,
  forallb not_nl cur = true ->
  lines_wf (readlines_aux cur s).
Proof.
  induction s as [|c s IH]; intros cur Hcur.
  - simpl. destruct cur as [|x cur]; simpl; auto. right.
    split.
    + intros E. apply (f_equal (@length _)) in E.
      rewrite length_app in E. simpl in E. lia.
    + change (forallb not_nl (rev (x :: cur)) = true).
      rewrite forallb_forall in *. intros y Hy. apply Hcur.
      now apply in_rev.
  - cbn [readlines_aux]. destruct (chr_eqb c nl) eqn:E.
    + apply lines_wf_cons; [|now apply IH].
      apply chr_eqb_eq in E. subst c. exists (rev cur). split; auto.
      rewrite forallb_forall in *. intros y Hy. apply Hcur.
      now apply in_rev.
    + apply IH. simpl. rewrite Hcur. unfold not_nl. now rewrite E.
Qed.

Lemma readlines_wf text : lines_wf (readlines text).
Proof. now apply readlines_aux_wf. Qed.

Lemma readlines_aux_body body : forall cur rest,
  forallb not_nl body = true ->
  readlines_aux cur (body ++ rest) = readlines_aux (rev body ++ cur) rest.
Proof.
  induction body as [|c body IH]; intros cur rest H; [reflexivity|].
  simpl in H. apply andb_true_iff in H. destruct H as [Hc Hb].
  cbn [app readlines_aux]. unfold not_nl in Hc.
  apply negb_true_iff in Hc. rewrite Hc, IH by exact Hb.
  simpl. now rewrite <- app_assoc.
Qed.

(** Reading back lines that were written gives the same lines. *)
Lemma readlines_concat ls : lines_wf ls -> readlines (List.concat ls) = ls.
Proof.
  unfold readlines. induction ls as [|l rest IH]; intros H; [reflexivity|].
  assert (T : terminated l -> lines_wf rest ->
              readlines_aux [] (List.concat (l :: rest)) = l :: rest).
  { intros (body & -> & Hb) Hr. cbn [List.concat].
    rewrite <- app_assoc, readlines_aux_body by exact Hb.
    cbn [app readlines_aux]. rewrite chr_eqb_refl, app_nil_r.
    change (rev (nl :: rev body)) with (rev (rev body) ++ [nl]).
    rewrite rev_involutive. f_equal. now apply IH. }
  destruct rest as [|l2 rest].
  - destruct H as [Ht|[Hne Hb]]; [now apply T|].
    cbn [List.concat]. rewrite app_nil_r.
    rewrite <- (app_nil_r l) at 1. rewrite readlines_aux_body by exact Hb.
    simpl. rewrite app_nil_r, rev_involutive.
    destruct (rev l) eqn:E; [|reflexivity].
    apply (f_equal (@rev _)) in E. rewrite rev_involutive in E.
    simpl in E. congruence.
  - destruct H as [Ht Hr]. now apply T.
Qed.

Lemma lines_wf_map (g : str -> str) ls :
  (forall l, terminated l -> terminated (g l)) ->
  (forall l, terminated (g l) \/ g l = l) ->
  lines_wf ls -> lines_wf (map g ls).
Proof.
  intros Ht Hg. induction ls as [|l rest IH]; intros H; [exact I|].
  destruct rest as [|l2 rest].
  - simpl. destruct (Hg l) as [T|E]; [now left|]. rewrite E. exact H.
  - destruct H as [Hl Hr]. change (map g (l :: l2 :: rest))
      with (g l :: map g (l2 :: rest)).
    apply lines_wf_cons; [now apply Ht|now apply IH].
Qed.

Lemma dropwhile_app (p : ascii -> bool) (x y : str) :
  dropwhile p x <> [] -> dropwhile p (x ++ y) = dropwhile p x ++ y.
Proof.
  induction x as [|c x IH]; intros H; [now contradiction H|].
  simpl in *. destruct (p c); [now apply IH|reflexivity].
Qed.

Lemma rstrip_app (a b : str) : rstrip b <> [] -> rstrip (a ++ b) = a ++ rstrip b.
Proof.
  unfold rstrip. intros H. rewrite rev_app_distr, dropwhile_app.
  - now rewrite rev_app_distr, rev_involutive.
  - intros E. apply H. now rewrite E.
Qed.

Lemma strip_spaces_app n (b : str) :
  rstrip b <> [] -> strip (spaces n ++ b) = strip b.
Proof.
  intros H. unfold strip. rewrite rstrip_app by exact H.
  apply lstrip_spaces.
Qed.

End LineLemmas.

Section MutatorIdempotence.

Import S3Inject.

Lemma annotation_name_cases ann :
  S1.annotation_name ann = py "@Entity"
  \/ S1.annotation_name ann = py "@Serializable".
Proof.
  unfold S1.annotation_name.
  destruct (str_eqb ann (py "_Entity")); [now left|].
  destruct (str_eqb ann (py "Serializable")); now right.
Qed.

Lemma marker_is_processed ann n :
  is_processed_entity_line (S1.annotation_name ann)
    (spaces n ++ processed_marker (S1.annotation_name ann)) = true.
Proof.
  unfold is_processed_entity_line.
  destruct (annotation_name_cases ann) as [-> | ->];
    (rewrite strip_spaces_app; [vm_compute; reflexivity|vm_compute; discriminate]).
Qed.

Lemma marker_terminated ann n :
  terminated (spaces n ++ processed_marker (S1.annotation_name ann)).
Proof.
  exists (spaces n ++ py "/*--" ++ S1.annotation_name ann ++ py "--*/").
  split.
  - unfold processed_marker. now rewrite <- !app_assoc.
  - rewrite forallb_app. apply andb_true_iff. split.
    + induction n; simpl; auto.
    + destruct (annotation_name_cases ann) as [-> | ->]; reflexivity.
Qed.

(** The line the mutator leaves is a line it does not touch. *)
Lemma mark_line_shape name line :
  (fst (mark_line false name line) = line
   /\ (is_processed_entity_line name line = true
       \/ found (re_match (annotation_line_pattern name) (strip line)) = false))
  \/ exists n, fst (mark_line false name line)
               = spaces n ++ processed_marker name.
Proof.
  unfold mark_line, is_processed_entity_line.
  destruct (found (re_match (processed_line_pattern name) (strip line)));
    [left; auto|].
  destruct (found (re_match (annotation_line_pattern name) (strip line)));
    [|left; auto].
  right. destruct (startswith (py " ") line); cbn [negb fst].
  - eexists. reflexivity.
  - exists 0. reflexivity.
Qed.

Lemma mark_line_twice name line :
  (forall n, is_processed_entity_line name (spaces n ++ processed_marker name)
             = true) ->
  mark_line false name (fst (mark_line false name line))
  = (fst (mark_line false name line), false)
  /\ is_unprocessed_entity_line name (fst (mark_line false name line)) = false.
Proof.
  intros P. destruct (mark_line_shape name line) as [[E H]|[n E]]; rewrite E.
  - unfold mark_line, is_unprocessed_entity_line, is_processed_entity_line
      in *.
    destruct H as [H|H]; rewrite H; [split; reflexivity|].
    destruct (found (re_match (processed_line_pattern name) (strip line)));
      split; reflexivity.
  - specialize (P n). split.
    + now apply mark_line_processed.
    + unfold is_unprocessed_entity_line.
      unfold is_processed_entity_line in P. now rewrite P.
Qed.

(** X8.  The Entity mutator is idempotent.  On a file that can be written
    a real run keeps the number of lines, leaves no line that holds the
    unprocessed marker alone, and a second run on its output writes the
    same file again. *)
Theorem entity_mutator_idempotent :
  forall text serializable_annotation,
  exists text',
    mark_dto_annotation_processed true (Some text) false
                                  serializable_annotation
    = (Some text', true)
    /\ length (readlines text') = length (readlines text)
    /\ (forall l, In l (readlines text') ->
                  is_unprocessed_entity_line
                    (S1.annotation_name serializable_annotation) l = false)
    /\ mark_dto_annotation_processed true (Some text') false
                                     serializable_annotation
       = (Some text', true).
Proof.
  intros text ann.
  pose proof (marker_is_processed ann) as P.
  pose proof (marker_terminated ann) as T.
  pose proof (fun t => mark_dto_all_lines t ann) as A.
  revert P T A.
  generalize (S1.annotation_name ann). intros name P T A.
  set (g := fun l => fst (mark_line false name l)) in *.
  exists (writelines (map g (readlines text))).
  assert (R : readlines (writelines (map g (readlines text)))
              = map g (readlines text)).
  { apply readlines_concat. apply lines_wf_map; [| |apply readlines_wf].
    - intros l Hl. unfold g.
      destruct (mark_line_shape name l) as [[E _]|[n E]];
        rewrite E; [exact Hl|apply T].
    - intros l. unfold g.
      destruct (mark_line_shape name l) as [[E _]|[n E]];
        rewrite E; [now right|left; apply T]. }
  split; [apply A|].
  split; [now rewrite R, length_map|].
  split.
  { intros l Hl. rewrite R in Hl. apply in_map_iff in Hl.
    destruct Hl as (l0 & <- & _). apply (mark_line_twice name l0 P). }
  rewrite A, R, map_map.
  f_equal. f_equal. f_equal. apply map_ext. intros l. unfold g.
  now rewrite (proj1 (mark_line_twice name l P)).
Qed.

End MutatorIdempotence.

Section RepositoryMutatorProps.

Import DetectRepository ProcessRepository.

Lemma dropwhile_suffix (p : ascii -> bool) (s : str) :
  exists a, s = a ++ dropwhile p s.
Proof.
  induction s as [|c s [a IH]]; [now exists []|]. simpl.
  destruct (p c); [|now exists []]. exists (c :: a). simpl. now f_equal.
Qed.

(** A text holds what [strip] leaves of it. *)
Lemma strip_inside (s : str) : exists a b, s = a ++ strip s ++ b.
Proof.
  unfold strip, lstrip, rstrip.
  destruct (dropwhile_suffix isspace (rev s)) as [b Hb].
  destruct (dropwhile_suffix isspace (rev (dropwhile isspace (rev s))))
    as [a Ha].
  exists a, (rev b). rewrite app_assoc, <- Ha, <- rev_app_distr, <- Hb.
  now rewrite rev_involutive.
Qed.

Lemma join_inside sep parts l :
  In l parts -> exists pre post, join sep parts = pre ++ l ++ post.
Proof.
  intros Hin. induction parts as [|x parts IH]; [destruct Hin|].
  destruct parts as [|y parts].
  - destruct Hin as [->|[]]. exists [], []. simpl. now rewrite app_nil_r.
  - rewrite join_cons by discriminate. destruct Hin as [->|Hin].
    + exists [], (sep ++ join sep (y :: parts)). reflexivity.
    + destruct (IH Hin) as (pre & post & ->).
      exists (x ++ sep ++ pre), post. now rewrite <- !app_assoc.
Qed.

(** A text holds each of the lines [split] makes of it. *)
Lemma split_nl_inside content l :
  In l (split_nl content) -> exists pre post, content = pre ++ l ++ post.
Proof.
  intros H. apply (join_inside [nl]) in H. now rewrite join_split_nl in H.
Qed.

Lemma processed_line_shape s :
  found (re_match processed_line_pattern s) = true ->
  exists ws1 ws2 post,
    forallb isspace ws1 = true /\ forallb isspace ws2 = true
    /\ s = py "/*" ++ ws1 ++ py "@Repository" ++ ws2 ++ py "*/" ++ post.
Proof.
  intros H. apply re_match_found in H. destruct H as [m H].
  unfold processed_line_pattern in H. cbn [seq] in H.
  apply Match_Cat_iff in H. destruct H as (s0 & H0 & H).
  apply Match_Bol_iff in H0. destruct H0 as [_ ->].
  apply Match_Cat_iff in H. destruct H as (s1 & H1 & H).
  apply Match_lit_iff in H1. destruct H1 as (t1 & E1 & ->).
  apply Match_Cat_iff in H. destruct H as (s2 & H2 & H).
  apply Match_ws_star_iff in H2. destruct H2 as (ws1 & t2 & E2 & W1 & ->).
  apply Match_Cat_iff in H. destruct H as (s3 & H3 & H).
  apply Match_lit_iff in H3. destruct H3 as (t3 & E3 & ->).
  apply Match_Cat_iff in H. destruct H as (s4 & H4 & H).
  apply Match_ws_star_iff in H4. destruct H4 as (ws2 & t4 & E4 & W2 & ->).
  apply Match_Cat_iff in H. destruct H as (s5 & H5 & _).
  apply Match_lit_iff in H5. destruct H5 as (t5 & E5 & ->).
  cbn [ms_rest] in *. subst. exists ws1, ws2, t5. auto.
Qed.

Lemma rewrite_line_holds_marker line :
  exists pre, rewrite_line line = pre ++ processed_marker.
Proof.
  unfold rewrite_line. destruct (startswith (py " ") line).
  - eexists. reflexivity.
  - now exists [].
Qed.

Lemma rewrite_first_result lines lines' :
  rewrite_first lines = (lines', true) ->
  exists l1 m l2, lines = l1 ++ m :: l2
                  /\ lines' = l1 ++ rewrite_line m :: l2
                  /\ is_annotation_line m = true
                  /\ forall l, In l l1 -> is_annotation_line l = false.
Proof.
  revert lines'. induction lines as [|l lines IH]; intros lines' H;
    [discriminate|].
  cbn [rewrite_first] in H. destruct (is_annotation_line l) eqn:E.
  - inversion H; subst. exists [], l, lines. repeat split; auto.
    intros ? [].
  - destruct (rewrite_first lines) as [r b]. inversion H; subst.
    destruct (IH r eq_refl) as (l1 & m & l2 & -> & -> & Hm & Hl1).
    exists (l :: l1), m, l2. repeat split; auto.
    intros x [<-|Hx]; auto.
Qed.

(** X9.  Once the Repository mutator has reported success on a real run,
    detection finds no repository in the file it leaves: the file holds the
    processed marker, so [find_repository_annotation] is false and
    [detect_repository] returns nothing. *)
Theorem repository_mutator_stops_detection writable content f' :
  comment_repository_annotation writable (Some content) false = (f', true) ->
  exists content',
    f' = Some content'
    /\ found (re_search processed_pattern content') = true
    /\ find_repository_annotation content' = false
    /\ detect_repository f' = None.
Proof.
  intros H.
  assert (G : exists content',
             f' = Some content'
             /\ found (re_search processed_pattern content') = true).
  { unfold comment_repository_annotation in H.
    destruct (rewrite_first (split_nl content)) as [lines' modified] eqn:E.
    destruct modified; cbn [negb] in H.
    - destruct writable; [|discriminate H]. cbn [write_file] in H.
      inversion H; subst f'. eexists. split; [reflexivity|].
      apply rewrite_first_result in E.
      destruct E as (l1 & m & l2 & _ & -> & _ & _).
      destruct (join_inside [nl] (l1 ++ rewrite_line m :: l2)
                            (rewrite_line m)) as (pre & post & ->).
      { apply in_or_app. right. now left. }
      destruct (rewrite_line_holds_marker m) as [p ->].
      rewrite <- !app_assoc, app_assoc.
      apply (processed_marker_found (pre ++ p) (py " ") (py " ") post);
        reflexivity.
    - pose proof (f_equal fst H) as Hf. pose proof (f_equal snd H) as Hp.
      cbn [fst snd] in Hf, Hp. clear H. subst f'.
      exists content. split; [reflexivity|].
      apply existsb_exists in Hp. destruct Hp as (l & Hin & Hl).
      unfold is_processed_line in Hl. apply processed_line_shape in Hl.
      destruct Hl as (ws1 & ws2 & post & W1 & W2 & Es).
      destruct (split_nl_inside content l Hin) as (a & b & ->).
      destruct (strip_inside l) as (a' & b' & El). rewrite Es in El.
      clear Hin E Es. rewrite El.
      pose proof (processed_marker_found (a ++ a') ws1 ws2
                    (post ++ b' ++ b) W1 W2) as F.
      rewrite <- !app_assoc in F. rewrite <- !app_assoc. exact F. }
  destruct G as (content' & -> & F). exists content'.
  split; [reflexivity|]. split; [exact F|].
  assert (N : find_repository_annotation content' = false).
  { unfold find_repository_annotation. rewrite F.
    destruct (found (re_search pattern content')); reflexivity. }
  split; [exact N|]. unfold detect_repository. now rewrite N.
Qed.

Lemma repository_mutator_stops_detection_witness :
  comment_repository_annotation true (Some two_markers_pre) false
  = (Some (py "/* @Repository */
DefineStandardPointers(UserRepository)
class UserRepository : public CpaRepository<User, int> {};
"), true)
  /\ detect_repository (Some two_markers_pre)
     = Some (py "UserRepository", py "User", py "int", false)
  /\ exists content',
       Some (py "/* @Repository */
DefineStandardPointers(UserRepository)
class UserRepository : public CpaRepository<User, int> {};
") = Some content'
       /\ found (re_search processed_pattern content') = true
       /\ find_repository_annotation content' = false
       /\ detect_repository (Some (py "/* @Repository */
DefineStandardPointers(UserRepository)
class UserRepository : public CpaRepository<User, int> {};
")) = None.
Proof.
  split; [vm_compute; reflexivity|]. split; [vm_compute; reflexivity|].
  apply (repository_mutator_stops_detection true two_markers_pre).
  vm_compute. reflexivity.
Defined.

End RepositoryMutatorProps.

Section FieldPatternProps.

Lemma consumed_rest st st' w :
  ms_rest st = w ++ ms_rest st' -> consumed st st' = w.
Proof.
  intros H. unfold consumed. rewrite H. apply firstn_consumed.
Qed.

Lemma Match_Cat_tail a b st m :
  Match (Cat a b) st m ->
  exists st2, Match b st2 m /\ exists w, ms_rest st = w ++ ms_rest st2.
Proof.
  intros H. apply Match_Cat_iff in H. destruct H as (st2 & Ha & Hb).
  exists st2. split; [exact Hb|]. apply Match_rest in Ha.
  destruct Ha as (w & E & _). now exists w.
Qed.

Lemma field_tail_groups st m :
  Match field_tail st m ->
  exists c w t,
    group 1 m = c :: w /\ is_alpha_ c = true /\ forallb type_chr w = true
    /\ group 2 m <> [] /\ forallb is_ident (group 2 m) = true
    /\ ms_rest st = (c :: w) ++ t /\ contains (group 2 m) t = true.
Proof.
  unfold field_tail. intros H.
  apply Match_Cat_iff in H. destruct H as (s1 & H1 & HT).
  assert (G1 : assoc 1 (ms_caps m) = assoc 1 (ms_caps s1))
    by (eapply Match_keeps_group; [|exact HT]; reflexivity).
  apply Match_Grp_iff in H1. destruct H1 as (s' & HA & ->).
  apply Match_Cat_iff in HA. destruct HA as (s0 & Hc & Hw).
  apply Match_Chr_iff in Hc. destruct Hc as (c & t0 & Er & Hc & ->).
  apply Match_star_chr_iff in Hw. destruct Hw as (w & t & Et & Hw & ->).
  cbn [ms_rest ms_prev ms_caps] in *. subst t0.
  apply Match_Cat_iff in HT. destruct HT as (s2 & Hws & HT).
  apply Match_rest in Hws. destruct Hws as (ws & Ews & _).
  cbn [set_cap ms_rest] in Ews.
  pose proof HT as HT'. apply Match_grp_ident_tail in HT'; [|reflexivity].
  destruct HT' as (c2 & w2 & G2 & Hc2 & Hw2).
  apply Match_grp_tail in HT; [|reflexivity].
  destruct HT as (s3 & Hid & G2').
  apply Match_rest in Hid. destruct Hid as (n & En & _).
  rewrite (consumed_rest _ _ _ En) in G2'.
  exists c, w, t. unfold group at 1. rewrite G1.
  cbn [set_cap ms_caps assoc Nat.eqb].
  split.
  { apply (consumed_rest st (MS (prev_after w (Some c)) t (ms_caps st))
             (c :: w)). cbn [ms_rest]. exact Er. }
  split; [exact Hc|]. split; [exact Hw|].
  split; [rewrite G2; discriminate|].
  split.
  { rewrite G2. cbn [forallb]. now rewrite Hw2, (alpha_is_ident c2 Hc2). }
  split; [exact Er|].
  rewrite G2', Ews, En. apply contains_app_r, contains_app_l.
  apply contains_iff. exists [], []. now rewrite app_nil_r.
Qed.

Lemma dropwhile_app_nil (p : ascii -> bool) (x y : str) :
  dropwhile p x = [] -> dropwhile p (x ++ y) = dropwhile p y.
Proof.
  induction x as [|c x IH]; intros H; [reflexivity|].
  simpl in *. destruct (p c); [now apply IH|discriminate].
Qed.

Lemma rstrip_cons c w : isspace c = false -> rstrip (c :: w) = c :: rstrip w.
Proof.
  intros Hc. destruct (rstrip w) as [|x r] eqn:E.
  - unfold rstrip in *. simpl rev.
    assert (D : dropwhile isspace (rev w) = []).
    { destruct (dropwhile isspace (rev w)) as [|y l] eqn:D; auto.
      simpl in E. destruct (rev l); discriminate. }
    rewrite dropwhile_app_nil by exact D. simpl. now rewrite Hc.
  - change (c :: w) with ([c] ++ w). rewrite rstrip_app; rewrite E;
      [reflexivity|discriminate].
Qed.

Lemma rstrip_prefix s : exists z, s = rstrip s ++ z.
Proof.
  unfold rstrip. destruct (dropwhile_suffix isspace (rev s)) as [a Ha].
  exists (rev a). rewrite <- rev_app_distr, <- Ha. now rewrite rev_involutive.
Qed.

Lemma alpha_not_space c : is_alpha_ c = true -> isspace c = false.
Proof. intros H. apply ident_not_space. now apply alpha_is_ident. Qed.

(** What [strip] leaves of a type the field pattern captured. *)
Lemma strip_type c w :
  is_alpha_ c = true -> forallb type_chr w = true ->
  exists w', strip (c :: w) = c :: w' /\ forallb type_chr w' = true
             /\ exists z, c :: w = (c :: w') ++ z.
Proof.
  intros Hc Hw. pose proof (alpha_not_space c Hc) as Hs.
  exists (rstrip w). unfold strip. rewrite rstrip_cons by exact Hs.
  unfold lstrip. simpl. rewrite Hs.
  destruct (rstrip_prefix w) as [z Hz]. split; [reflexivity|]. split.
  - rewrite Hz in Hw. apply forallb_app_true in Hw. tauto.
  - exists z. simpl. now rewrite <- Hz.
Qed.

Lemma contains_refl s : contains s s = true.
Proof. apply contains_iff. exists [], []. now rewrite app_nil_r. Qed.

Lemma contains_strip line : contains (strip line) line = true.
Proof.
  destruct (strip_inside line) as (a & b & E). apply contains_iff. eauto.
Qed.

(** A field pattern that ends with [field_tail], found in the stripped
    line. *)
Lemma field_match_read line suf m :
  Match field_tail (MS (ms_prev suf) (ms_rest suf) (ms_caps suf)) m ->
  contains (ms_rest suf) (strip line) = true ->
  has_paren (strip line) = false ->
  is_access_keyword (strip (group 2 m)) = false ->
  field_read_from line (strip (group 1 m)) (strip (group 2 m)).
Proof.
  intros H Hsuf Hp Hk. apply field_tail_groups in H.
  destruct H as (c & w & t & G1 & Hc & Hw & Hn & Hid & Er & Ht).
  cbn [ms_rest] in Er.
  rewrite (strip_ident _ Hid) in *. rewrite G1.
  destruct (strip_type c w Hc Hw) as (w' & Es & Hw' & z & Ez).
  rewrite Es. unfold field_read_from.
  split; [exact Hp|]. split; [exact Hn|]. split; [exact Hid|].
  split; [exact Hk|]. split; [exists c, w'; auto|].
  assert (In1 : contains (ms_rest suf) line = true).
  { eapply contains_trans; [exact Hsuf|apply contains_strip]. }
  split.
  - eapply contains_trans; [|exact In1]. rewrite Er, Ez.
    apply contains_app_l, contains_app_l, contains_refl.
  - eapply contains_trans; [|exact In1]. rewrite Er.
    apply contains_app_r. exact Ht.
Qed.

End FieldPatternProps.

Section ExtractAllFieldsSpec.

Import S2.

Lemma S2_field_pattern_read line m :
  re_search field_pattern (strip line) = Some m ->
  has_paren (strip line) = false ->
  is_access_keyword (strip (group 2 m)) = false ->
  field_read_from line (strip (group 1 m)) (strip (group 2 m)).
Proof.
  intros H Hp Hk. apply re_search_Some in H.
  destruct H as (pre & suf & E & H).
  unfold field_pattern in H. cbn [seq] in H.
  apply Match_Cat_tail in H. destruct H as (s1 & H & w1 & E1).
  apply Match_Cat_tail in H. destruct H as (s2 & H & w2 & E2).
  change (Match field_tail s2 m) in H.
  apply (field_match_read line s2 m).
  - now destruct s2.
  - cbn [ms_rest] in E1. apply contains_iff.
    exists (pre ++ w1 ++ w2), []. rewrite E, E1, E2, app_nil_r.
    now rewrite <- !app_assoc.
  - exact Hp.
  - exact Hk.
Qed.

Lemma fields_loop_sound lines fld :
  In fld (fields_loop lines) ->
  exists line, In line lines /\ field_read_from line (f_type fld) (f_name fld).
Proof.
  induction lines as [|line rest IH]; intros H; [destruct H|].
  assert (Step : In fld (fields_loop rest) ->
                 exists l, In l (line :: rest)
                           /\ field_read_from l (f_type fld) (f_name fld)).
  { intros H'. destruct (IH H') as (l & Hl & Hf). exists l. split; auto.
    now right. }
  cbn [fields_loop] in H.
  destruct (startswith (py "//") (strip line)
            || startswith (py "/*") (strip line)); [now apply Step|].
  destruct (strip line) as [|c0 s0] eqn:Es; [now apply Step|].
  rewrite <- Es in H.
  destruct (found (re_search access_pattern (strip line)));
    [now apply Step|].
  destruct (re_search field_pattern (strip line)) as [m|] eqn:Em;
    [|now apply Step].
  destruct (negb (has_paren (strip line))) eqn:Hp; [|now apply Step].
  destruct (negb (is_access_keyword (strip (group 2 m)))) eqn:Hk;
    [|now apply Step].
  cbn [andb] in H. destruct H as [<-|H]; [|now apply Step].
  exists line. split; [now left|]. cbn [f_type f_name].
  apply negb_true_iff in Hp, Hk. now apply S2_field_pattern_read.
Qed.

Lemma In_slice {A : Type} (a b : nat) (l : list A) (x : A) :
  In x (slice a b l) -> In x l.
Proof.
  unfold slice. intros H.
  rewrite <- (firstn_skipn a l). apply in_or_app. right.
  rewrite <- (firstn_skipn (b - a) (skipn a l)). apply in_or_app. now left.
Qed.

(** X10.  Every field [extract_all_fields] returns was read from a line of
    the file: its name is an identifier and none of the access keywords,
    its type starts with a letter or an underscore and is made of the
    characters the pattern allows in a type, name and type both stand in
    that line, and the line has no parenthesis. *)
Theorem extract_all_fields_sound text class_name fields fld :
  extract_all_fields (Some text) class_name = Ret fields ->
  In fld fields ->
  exists line,
    In line (readlines text)
    /\ field_read_from line (f_type fld) (f_name fld).
Proof.
  unfold extract_all_fields. cbn [find_class_boundaries bind].
  destruct (boundaries_loop class_name (readlines text) 1 None 0%Z)
    as [[s e]|]; intros H Hin; inversion H; subst fields.
  - apply fields_loop_sound in Hin. destruct Hin as (line & Hl & Hf).
    exists line. split; [|exact Hf]. eapply In_slice. exact Hl.
  - destruct Hin.
Qed.

Lemma extract_all_fields_sound_witness :
  extract_all_fields (Some customer_header) (py "Customer")
  = Ret [Field (py "int") (py "id")]
  /\ In (Field (py "int") (py "id")) [Field (py "int") (py "id")]
  /\ exists line,
       In line (readlines customer_header)
       /\ field_read_from line (py "int") (py "id").
Proof.
  split; [vm_compute; reflexivity|]. split; [now left|].
  apply (extract_all_fields_sound customer_header (py "Customer")
           [Field (py "int") (py "id")] (Field (py "int") (py "id"))).
  - vm_compute. reflexivity.
  - now left.
Defined.

End ExtractAllFieldsSpec.

Section ValidationFieldsSpec.

Import S7.

Lemma access_pattern_group s m :
  re_search access_pattern s = Some m ->
  In (lower (group 1 m)) [py "public"; py "private"; py "protected"].
Proof.
  intros H. apply re_search_Some in H. destruct H as (pre & suf & _ & H).
  unfold access_pattern in H. cbn [seq] in H.
  apply Match_Cat_tail in H. destruct H as (s1 & H & _).
  apply Match_Cat_tail in H. destruct H as (s2 & H & _).
  apply Match_grp_tail in H; [|reflexivity].
  destruct H as (s3 & H & ->).
  unfold access_words in H. cbn [alts] in H.
  assert (L : forall word, Match (liti word) s2 s3 ->
                           lower (consumed s2 s3) = lower word).
  { intros word Hw. pose proof Hw as Hr. apply Match_liti_iff in Hw.
    destruct Hw as (w & t & Er & El & ->).
    rewrite (consumed_rest s2 _ w); auto. }
  apply Match_Alt_iff in H. destruct H as [H|H].
  - left. symmetry. exact (L _ H).
  - apply Match_Alt_iff in H. destruct H as [H|H].
    + right. left. symmetry. exact (L _ H).
    + right. right. left. symmetry. exact (L _ H).
Qed.

Lemma S7_field_pattern_read line m :
  re_search field_pattern (strip line) = Some m ->
  has_paren (strip line) = false ->
  is_access_keyword (strip (group 2 m)) = false ->
  field_read_from line (strip (group 1 m)) (strip (group 2 m)).
Proof.
  intros H Hp Hk. apply re_search_Some in H.
  destruct H as (pre & suf & E & H).
  unfold field_pattern in H. cbn [seq] in H.
  apply Match_Cat_tail in H. destruct H as (s1 & H & w1 & E1).
  apply Match_Cat_tail in H. destruct H as (s2 & H & w2 & E2).
  apply Match_Cat_tail in H. destruct H as (s3 & H & w3 & E3).
  apply Match_Cat_tail in H. destruct H as (s4 & H & w4 & E4).
  change (Match field_tail s4 m) in H.
  apply (field_match_read line s4 m).
  - now destruct s4.
  - cbn [ms_rest] in E1. apply contains_iff.
    exists (pre ++ w1 ++ w2 ++ w3 ++ w4), [].
    rewrite E, E1, E2, E3, E4, app_nil_r. now rewrite <- !app_assoc.
  - exact Hp.
  - exact Hk.
Qed.

Lemma S7_lookahead_sound macro_names current_access info : forall window entry,
  lookahead macro_names current_access info window = Some entry ->
  exists line,
    In line window
    /\ field_read_from line (v_type entry) (v_name entry)
    /\ v_function_name entry = fst info
    /\ v_access entry = match current_access with
                        | Some a => a
                        | None => py "none"
                        end
    /\ (snd info = true -> is_string_type (v_type entry) = true).
Proof.
  induction window as [|l rest IH]; intros entry H; [discriminate|].
  assert (Step : lookahead macro_names current_access info rest = Some entry ->
                 exists line,
                   In line (l :: rest)
                   /\ field_read_from line (v_type entry) (v_name entry)
                   /\ v_function_name entry = fst info
                   /\ v_access entry = match current_access with
                                       | Some a => a
                                       | None => py "none"
                                       end
                   /\ (snd info = true -> is_string_type (v_type entry) = true)).
  { intros H'. destruct (IH _ H') as (line & Hl & R). exists line.
    split; [now right|exact R]. }
  cbn [lookahead] in H.
  destruct (startswith (py "/*") (strip l)); [now apply Step|].
  destruct (startswith (py "//") (strip l)
            && negb (found (re_search builtin_marker_pattern (strip l))));
    [now apply Step|].
  destruct (strip l) as [|c0 s0] eqn:Es; [now apply Step|].
  rewrite <- Es in H.
  destruct (found (re_search (validation_pattern macro_names) (strip l)));
    [now apply Step|].
  destruct (re_search field_pattern (strip l)) as [m|] eqn:Em.
  - destruct (negb (has_paren (strip l))) eqn:Hp; [|discriminate].
    destruct (negb (is_access_keyword (strip (group 2 m)))) eqn:Hk;
      [|discriminate].
    cbn [andb] in H. apply negb_true_iff in Hp, Hk.
    pose proof (S7_field_pattern_read l m Em Hp Hk) as R.
    exists l. split; [now left|].
    destruct (snd info) eqn:Hs.
    + destruct (is_string_type (strip (group 1 m))) eqn:Ht; [|discriminate].
      injection H as <-. cbn [v_type v_name v_function_name v_access].
      split; [exact R|]. split; [reflexivity|]. split; [reflexivity|].
      intros _. exact Ht.
    + injection H as <-. cbn [v_type v_name v_function_name v_access].
      split; [exact R|]. split; [reflexivity|]. split; [reflexivity|].
      intros D. discriminate D.
  - destruct (found (re_search access_pattern (strip l))
              || found (re_search stop_pattern (strip l)));
      [discriminate|now apply Step].
Qed.

Lemma In_firstn {A : Type} (n : nat) (l : list A) (x : A) :
  In x (firstn n l) -> In x l.
Proof.
  intros H. rewrite <- (firstn_skipn n l). apply in_or_app. now left.
Qed.

Lemma get_info_lookup validation_macros macro info :
  get_validation_function_info validation_macros macro = Some info ->
  lookup macro validation_macros = Some (fst info)
  /\ snd info = requires_string_type (fst info).
Proof.
  unfold get_validation_function_info.
  destruct (lookup macro validation_macros) as [fn|]; [|discriminate].
  intros H. inversion H. split; reflexivity.
Qed.

Lemma scan_sound validation_macros macro_names :
  forall class_lines current_access macro fld,
    access_ok current_access ->
    In (macro, fld)
       (scan validation_macros macro_names current_access class_lines) ->
    In macro macro_names
    /\ validated_field_ok validation_macros class_lines macro fld.
Proof.
  induction class_lines as [|line rest IH];
    intros current_access macro fld Hca H; [destruct H|].
  assert (Step : forall ca,
             access_ok ca ->
             In (macro, fld) (scan validation_macros macro_names ca rest) ->
             In macro macro_names
             /\ validated_field_ok validation_macros (line :: rest) macro fld).
  { intros ca Hok H'. destruct (IH ca macro fld Hok H') as [Hm Hv].
    split; [exact Hm|].
    destruct Hv as (fn & l & H1 & H2 & H3 & H4 & H5 & H6). exists fn, l.
    split; [exact H1|]. split; [exact H2|]. split; [now right|].
    split; [exact H4|]. split; [exact H5|exact H6]. }
  cbn [scan] in H.
  destruct (startswith (py "/*") (strip line)); [now apply (Step current_access)|].
  destruct (startswith (py "//") (strip line)
            && negb (found (re_search (validation_pattern macro_names)
                                      (strip line))));
    [now apply (Step current_access)|].
  destruct (strip line) as [|c0 s0] eqn:Es; [now apply (Step current_access)|].
  rewrite <- Es in H.
  destruct (re_search access_pattern (strip line)) as [ma|] eqn:Ea.
  { apply (Step (Some (lower (group 1 ma)))); [|exact H].
    exact (access_pattern_group _ _ Ea). }
  destruct (found (re_search (validation_pattern macro_names) (strip line)));
    [|now apply (Step current_access)].
  destruct (find (fun macro_name =>
                    found (re_search (annotation_pattern macro_name)
                                     (strip line))) macro_names)
    as [matched|] eqn:Ef; [|now apply (Step current_access)].
  destruct matched as [|c1 m1] eqn:Em; [now apply (Step current_access)|].
  rewrite <- Em in *.
  destruct (get_validation_function_info validation_macros matched)
    as [info|] eqn:Ei; [|now apply (Step current_access)].
  destruct (lookahead macro_names current_access info (firstn 10 rest))
    as [entry|] eqn:El; [|now apply (Step current_access)].
  destruct H as [H|H]; [|now apply (Step current_access)].
  inversion H; subst macro fld. clear H.
  apply find_some in Ef. destruct Ef as [Hin _]. split; [exact Hin|].
  apply S7_lookahead_sound in El.
  destruct El as (l & Hl & R & Hfn & Hacc & Hstr).
  apply get_info_lookup in Ei. destruct Ei as [Elk Esnd].
  exists (fst info), l. split; [exact Elk|]. split; [exact Hfn|].
  split; [right; eapply In_firstn; exact Hl|]. split; [exact R|].
  split.
  - rewrite Hacc. unfold access_values. destruct current_access as [a|].
    + right. exact Hca.
    + now left.
  - intros Hr. apply Hstr. now rewrite Esnd.
Qed.

Lemma collect_sound macro_names hits macro flds :
  In (macro, flds) (collect macro_names hits) ->
  In macro macro_names /\ flds <> []
  /\ forall fld, In fld flds -> In (macro, fld) hits.
Proof.
  unfold collect. intros H. apply filter_In in H. destruct H as [H Hne].
  apply in_map_iff in H. destruct H as (k & E & Hk). inversion E; subst.
  split; [exact Hk|]. split.
  - cbn [snd] in Hne. intros E'. rewrite E' in Hne. discriminate.
  - intros fld Hf. apply in_map_iff in Hf. destruct Hf as ([k' f'] & E1 & Hh).
    cbn [snd] in E1. subst f'. apply filter_In in Hh.
    destruct Hh as [Hh Heq]. cbn [fst] in Heq. apply str_eqb_eq in Heq.
    now subst k'.
Qed.

(** X11.  What [extract_validation_fields] returns.  Every key of the
    result is a marker of the table and has at least one field.  Every
    field listed under a marker carries the function the table binds to the
    marker, was read from a line of the file as a field is (an identifier
    for its name, no parenthesis in the line), records the access [none],
    [public], [private] or [protected], and is of a string type when the
    function is one of those applied to strings only. *)
Theorem extract_validation_fields_sound
        text class_name validation_macros result macro flds :
  extract_validation_fields (Some text) class_name validation_macros
  = Ret result ->
  In (macro, flds) result ->
  In macro (map fst validation_macros)
  /\ flds <> []
  /\ forall fld, In fld flds ->
        validated_field_ok validation_macros (readlines text) macro fld.
Proof.
  unfold extract_validation_fields. cbn [S2.find_class_boundaries bind].
  destruct (boundaries_loop class_name (readlines text) 1 None 0%Z)
    as [[s e]|]; intros H Hin; [|inversion H; subst; destruct Hin].
  destruct (map fst validation_macros) as [|k ks] eqn:Ek;
    [inversion H; subst; destruct Hin|].
  rewrite <- Ek in *. inversion H; subst result. clear H.
  apply collect_sound in Hin. destruct Hin as (Hm & Hne & Hall).
  split; [exact Hm|]. split; [exact Hne|].
  intros fld Hf. apply Hall in Hf.
  apply scan_sound in Hf; [|exact I]. destruct Hf as [_ Hv].
  destruct Hv as (fn & l & H1 & H2 & H3 & H4 & H5 & H6). exists fn, l.
  split; [exact H1|]. split; [exact H2|].
  split; [eapply In_slice; exact H3|].
  split; [exact H4|]. split; [exact H5|exact H6].
Qed.

Lemma extract_validation_fields_sound_witness :
  extract_validation_fields (Some user_header) (py "User") user_macros
  = Ret [(py "NotBlank",
          [VField (py "StdString") (py "name") (py "private")
                  (py "ValidateNotBlank")])]
  /\ In (py "NotBlank",
         [VField (py "StdString") (py "name") (py "private")
                 (py "ValidateNotBlank")])
        [(py "NotBlank",
          [VField (py "StdString") (py "name") (py "private")
                  (py "ValidateNotBlank")])]
  /\ In (py "NotBlank") (map fst user_macros)
  /\ [VField (py "StdString") (py "name") (py "private")
             (py "ValidateNotBlank")] <> []
  /\ forall fld,
       In fld [VField (py "StdString") (py "name") (py "private")
                      (py "ValidateNotBlank")] ->
       validated_field_ok user_macros (readlines user_header)
                          (py "NotBlank") fld.
Proof.
  split; [vm_compute; reflexivity|]. split; [now left|].
  apply (extract_validation_fields_sound user_header (py "User") user_macros
           [(py "NotBlank",
             [VField (py "StdString") (py "name") (py "private")
                     (py "ValidateNotBlank")])]).
  - vm_compute. reflexivity.
  - now left.
Defined.

End ValidationFieldsSpec.

Section ExtractIdFieldsSpec.

Import ExtractIdFields.

Lemma Id_field_pattern_read line m :
  re_search field_pattern (strip line) = Some m ->
  has_paren (strip line) = false ->
  is_access_keyword (strip (group 2 m)) = false ->
  field_read_from line (strip (group 1 m)) (strip (group 2 m)).
Proof.
  intros H Hp Hk. apply re_search_Some in H.
  destruct H as (pre & suf & E & H).
  unfold field_pattern in H. cbn [seq] in H.
  apply Match_Cat_tail in H. destruct H as (s1 & H & w1 & E1).
  apply Match_Cat_tail in H. destruct H as (s2 & H & w2 & E2).
  apply Match_Cat_tail in H. destruct H as (s3 & H & w3 & E3).
  apply Match_Cat_tail in H. destruct H as (s4 & H & w4 & E4).
  apply Match_Cat_tail in H. destruct H as (s5 & H & w5 & E5).
  change (Match field_tail s5 m) in H.
  apply (field_match_read line s5 m).
  - now destruct s5.
  - cbn [ms_rest] in E1. apply contains_iff.
    exists (pre ++ w1 ++ w2 ++ w3 ++ w4 ++ w5), [].
    rewrite E, E1, E2, E3, E4, E5, app_nil_r. now rewrite <- !app_assoc.
  - exact Hp.
  - exact Hk.
Qed.

Lemma Id_lookahead_sound macro_names : forall window found_macros fld,
  lookahead macro_names found_macros window = Some fld ->
  (forall k, In k found_macros -> In k macro_names) ->
  (exists line, In line window
                /\ field_read_from line (id_type fld) (id_name fld))
  /\ forall k, In k (id_validation_macros fld) -> In k macro_names.
Proof.
  induction window as [|l rest IH]; intros acc fld H Hacc; [discriminate|].
  assert (Step : forall acc',
             (forall k, In k acc' -> In k macro_names) ->
             lookahead macro_names acc' rest = Some fld ->
             (exists line, In line (l :: rest)
                           /\ field_read_from line (id_type fld) (id_name fld))
             /\ forall k, In k (id_validation_macros fld) -> In k macro_names).
  { intros acc' Hacc' H'. destruct (IH _ _ H' Hacc') as [(line & Hl & R) Hk].
    split; [|exact Hk]. exists line. split; [now right|exact R]. }
  cbn [lookahead] in H.
  destruct (startswith (py "/*") (strip l)
            && negb (found (re_search id_annotation_pattern (strip l))
                     || validation_hit macro_names (strip l)));
    [now apply (Step acc)|].
  destruct (startswith (py "//") (strip l)); [now apply (Step acc)|].
  destruct (strip l) as [|c0 s0] eqn:Es; [now apply (Step acc)|].
  rewrite <- Es in H.
  destruct (validation_hit macro_names (strip l)).
  - destruct (find (fun macro_name =>
                      found (re_search (annotation_pattern macro_name)
                                       (strip l))) macro_names)
      as [matched|] eqn:Ef; [|now apply (Step acc)].
    destruct matched as [|c1 m1] eqn:Em; [now apply (Step acc)|].
    rewrite <- Em in *. apply (Step (acc ++ [matched])); [|exact H].
    intros k Hk. apply in_app_or in Hk. destruct Hk as [Hk|[<-|[]]]; auto.
    apply find_some in Ef. tauto.
  - destruct (re_search field_pattern (strip l)) as [m|] eqn:Em.
    + destruct (negb (has_paren (strip l))) eqn:Hp; [|discriminate].
      destruct (negb (is_access_keyword (strip (group 2 m)))) eqn:Hk;
        [|discriminate].
      cbn [andb] in H. apply negb_true_iff in Hp, Hk.
      injection H as <-. cbn [id_type id_name id_validation_macros].
      split; [|exact Hacc]. exists l. split; [now left|].
      now apply Id_field_pattern_read.
    + destruct (found (re_search access_pattern (strip l))
                || found (re_search stop_pattern (strip l)));
        [discriminate|now apply (Step acc)].
Qed.

Lemma Id_scan_sound macro_names : forall class_lines fld,
  In fld (scan macro_names class_lines) ->
  (exists line, In line class_lines
                /\ field_read_from line (id_type fld) (id_name fld))
  /\ forall k, In k (id_validation_macros fld) -> In k macro_names.
Proof.
  induction class_lines as [|line rest IH]; intros fld H; [destruct H|].
  assert (Step : In fld (scan macro_names rest) ->
                 (exists l, In l (line :: rest)
                            /\ field_read_from l (id_type fld) (id_name fld))
                 /\ forall k, In k (id_validation_macros fld) ->
                              In k macro_names).
  { intros H'. destruct (IH _ H') as [(l & Hl & R) Hk]. split; [|exact Hk].
    exists l. split; [now right|exact R]. }
  cbn [scan] in H.
  destruct (startswith (py "/*") (strip line)
            && negb (found (re_search id_annotation_pattern (strip line))));
    [now apply Step|].
  destruct (startswith (py "//") (strip line)); [now apply Step|].
  destruct (strip line) as [|c0 s0] eqn:Es; [now apply Step|].
  rewrite <- Es in H.
  destruct (found (re_search id_processed_pattern (strip line)));
    [now apply Step|].
  destruct (found (re_search id_annotation_pattern (strip line)));
    [|now apply Step].
  destruct (lookahead macro_names [] (firstn 15 rest)) as [f0|] eqn:El;
    [|now apply Step].
  destruct H as [<-|H]; [|now apply Step].
  apply Id_lookahead_sound in El; [|intros ? []].
  destruct El as [(l & Hl & R) Hk]. split; [|exact Hk].
  exists l. split; [right; eapply In_firstn; exact Hl|exact R].
Qed.

(** X12.  [extract_id_fields] returns no field, and raises nothing, for a
    file that cannot be read.  Every key field it returns for a readable
    file was read from a line of the file as a field is (an identifier for
    its name, no parenthesis in the line), and the validation markers
    listed with it are markers of the table. *)
Theorem extract_id_fields_sound :
  (forall class_name validation_macros,
      extract_id_fields None class_name validation_macros = Ret [])
  /\ (forall text class_name validation_macros,
         exists ids,
           extract_id_fields (Some text) class_name validation_macros
           = Ret ids
           /\ forall fld, In fld ids ->
                (exists line,
                    In line (readlines text)
                    /\ field_read_from line (id_type fld) (id_name fld))
                /\ forall k, In k (id_validation_macros fld) ->
                             In k (map fst validation_macros)).
Proof.
  split; [reflexivity|].
  intros text class_name macros. unfold extract_id_fields.
  cbn [S2.find_class_boundaries bind].
  destruct (boundaries_loop class_name (readlines text) 1 None 0%Z)
    as [[s e]|].
  - eexists. split; [reflexivity|]. intros fld Hf.
    apply Id_scan_sound in Hf. destruct Hf as [(l & Hl & R) Hk].
    split; [|exact Hk]. exists l. split; [eapply In_slice; exact Hl|exact R].
  - exists []. split; [reflexivity|]. intros fld [].
Qed.

End ExtractIdFieldsSpec.

Section SearchFirst.

Lemma search_from_skip r : forall pre prev suf,
  (forall p1 p2 m, pre = p1 ++ p2 -> p2 <> [] ->
                   ~ Match r (MS (prev_after p1 prev) (p2 ++ suf) []) m) ->
  search_from r prev (pre ++ suf) = search_from r (prev_after pre prev) suf.
Proof.
  induction pre as [|c pre IH]; intros prev suf H.
  - now rewrite prev_after_nil.
  - cbn [app search_from].
    destruct (run r (MS prev (c :: pre ++ suf) [])) as [|st l] eqn:E.
    + rewrite IH.
      * now rewrite prev_after_cons.
      * intros p1 p2 m E1 E2 Hm.
        apply (H (c :: p1) p2 m); [now rewrite E1|exact E2|].
        now rewrite prev_after_cons.
    + exfalso. apply (H [] (c :: pre) st); [reflexivity|discriminate|].
      rewrite prev_after_nil. apply run_spec. cbn [app]. rewrite E. now left.
Qed.

(** [re.search] returns a match at the first place that has one. *)
Lemma re_search_at r pre suf :
  (forall p1 p2 m, pre = p1 ++ p2 -> p2 <> [] ->
                   ~ Match r (MS (prev_after p1 None) (p2 ++ suf) []) m) ->
  (exists m, Match r (MS (prev_after pre None) suf []) m) ->
  exists m, re_search r (pre ++ suf) = Some m
            /\ Match r (MS (prev_after pre None) suf []) m.
Proof.
  intros Hno [m0 Hm]. unfold re_search. rewrite search_from_skip by exact Hno.
  apply run_spec in Hm.
  destruct (run r (MS (prev_after pre None) suf [])) as [|st l] eqn:E;
    [destruct Hm|].
  exists st. split.
  - destruct suf; cbn [search_from]; now rewrite E.
  - apply run_spec. rewrite E. now left.
Qed.

End SearchFirst.

Section ExtractParameterNameSpec.

Import ExtractParameterName.

Lemma param_pattern_Match prev params post caps m :
  forallb (not_chr ")"%char) params = true ->
  Match param_pattern (MS prev (py "(" ++ params ++ py ")" ++ post) caps) m ->
  group 1 m = params.
Proof.
  intros Hp H. unfold param_pattern in H. cbn [seq] in H.
  apply Match_Cat_iff in H. destruct H as (s1 & H1 & H).
  apply Match_chr_iff in H1. destruct H1 as (t1 & E1 & ->).
  cbn [ms_rest app py list_ascii_of_string] in E1. inversion E1; subst t1.
  clear E1.
  apply Match_Cat_iff in H. destruct H as (s2 & H2 & H3).
  apply Match_Grp_iff in H2. destruct H2 as (s2' & H2 & ->).
  apply Match_star_chr_iff in H2. destruct H2 as (w2 & t2 & Er2 & Hw2 & ->).
  apply Match_chr_iff in H3. destruct H3 as (t3 & E3 & ->).
  cbn [ms_rest set_cap ms_caps ms_prev] in *. subst t2.
  unfold group. cbn [ms_caps assoc Nat.eqb].
  rewrite (consumed_rest _ _ w2) by (cbn [ms_rest]; exact Er2).
  symmetry.
  apply (run_unique (not_chr ")"%char) params w2 ")"%char post t3 Hp Hw2
                    eq_refl Er2).
Qed.

Lemma param_pattern_matches prev params post :
  forallb (not_chr ")"%char) params = true ->
  exists m,
    Match param_pattern (MS prev (py "(" ++ params ++ py ")" ++ post) []) m.
Proof.
  intros Hp. unfold param_pattern. cbn [seq]. eexists.
  apply Match_Cat_iff. eexists. split.
  { apply Match_chr_iff. eexists. split; [reflexivity|reflexivity]. }
  apply Match_Cat_iff. eexists. split.
  { apply Match_Grp_iff. eexists. split; [|reflexivity].
    apply Match_star_chr_iff. exists params, (py ")" ++ post).
    split; [reflexivity|]. split; [exact Hp|reflexivity]. }
  apply Match_chr_iff. eexists. split; reflexivity.
Qed.

Lemma param_pattern_starts st m :
  Match param_pattern st m -> exists t, ms_rest st = "("%char :: t.
Proof.
  unfold param_pattern. cbn [seq]. intros H.
  apply Match_Cat_iff in H. destruct H as (s1 & H1 & _).
  apply Match_chr_iff in H1. destruct H1 as (t1 & E1 & _). eauto.
Qed.

(** The parameter list the first pattern captures. *)
Lemma param_search pre params post :
  forallb (not_chr "("%char) pre = true ->
  forallb (not_chr ")"%char) params = true ->
  exists m,
    re_search param_pattern (pre ++ py "(" ++ params ++ py ")" ++ post)
    = Some m
    /\ group 1 m = params.
Proof.
  intros Hpre Hp.
  destruct (re_search_at param_pattern pre
              (py "(" ++ params ++ py ")" ++ post)) as (m & E & Hm).
  - intros p1 p2 m -> Hne Hm. apply param_pattern_starts in Hm.
    destruct Hm as [t Et]. destruct p2 as [|c p2]; [congruence|].
    cbn [ms_rest app] in Et. inversion Et; subst c.
    apply forallb_app_true in Hpre. destruct Hpre as [_ Hpre].
    cbn [forallb] in Hpre. discriminate.
  - apply param_pattern_matches. exact Hp.
  - exists m. split; [exact E|].
    eapply param_pattern_Match; [exact Hp|exact Hm].
Qed.

Lemma ident_chr_not_nl c : is_ident c = true -> c <> nl.
Proof. intros H ->. discriminate. Qed.

Lemma tail_ident (A B name ws r2 : str) :
  name <> [] -> forallb is_ident name = true ->
  forallb isspace ws = true -> r2 = [] \/ r2 = [nl] ->
  A ++ name = B ++ ws ++ r2 -> ws = [] /\ r2 = [].
Proof.
  intros Hne Hid Hws Hr E.
  apply (f_equal (@rev _)) in E. rewrite !rev_app_distr in E.
  destruct (rev name) as [|x rn] eqn:En.
  { apply (f_equal (@rev _)) in En. rewrite rev_involutive in En.
    now contradiction Hne. }
  assert (Hx : is_ident x = true).
  { rewrite forallb_forall in Hid. apply Hid. apply in_rev. rewrite En.
    now left. }
  assert (R2 : r2 = []).
  { destruct Hr as [->| ->]; [reflexivity|]. exfalso.
    cbn in E. inversion E. subst x. discriminate. }
  subst r2. split; [|reflexivity]. cbn [rev app] in E.
  destruct (rev ws) as [|y rw] eqn:Ew.
  - apply (f_equal (@rev _)) in Ew. now rewrite rev_involutive in Ew.
  - exfalso. cbn in E. inversion E. subst y.
    assert (Hy : isspace x = true).
    { rewrite forallb_forall in Hws. apply Hws. apply in_rev. rewrite Ew.
      now left. }
    rewrite (ident_not_space x Hx) in Hy. discriminate.
Qed.

Lemma param_name_Match prev A name caps m :
  name <> [] -> forallb is_ident name = true ->
  Match param_name_pattern (MS prev (A ++ name) caps) m ->
  forallb is_ident (A ++ name) = true /\ group 1 m = A ++ name.
Proof.
  intros Hne Hid H. unfold param_name_pattern in H. cbn [seq] in H.
  apply Match_Cat_iff in H. destruct H as (s1 & H1 & H).
  apply Match_Grp_iff in H1. destruct H1 as (s1' & H1 & ->).
  apply Match_ident_iff in H1. destruct H1 as (c & w & t & Er & Hc & Hw & ->).
  apply Match_Cat_iff in H. destruct H as (s2 & H2 & H3).
  apply Match_ws_star_iff in H2. destruct H2 as (ws & t2 & Ews & Hws & ->).
  apply Match_Eol_iff in H3. destruct H3 as [He ->].
  cbn [ms_rest set_cap ms_caps ms_prev] in *. subst t.
  assert (Hr : t2 = [] \/ t2 = [nl]).
  { unfold at_eol in He. cbn [ms_rest] in He. destruct t2 as [|x t2]; auto.
    right. apply andb_true_iff in He. destruct He as [Hx Ht].
    apply chr_eqb_eq in Hx. subst x. destruct t2; [reflexivity|discriminate]. }
  destruct (tail_ident A (c :: w) name ws t2 Hne Hid Hws Hr Er) as [-> ->].
  rewrite app_nil_r in Er.
  split.
  - rewrite Er. cbn [forallb]. now rewrite Hw, (alpha_is_ident c Hc).
  - unfold group. cbn [ms_caps assoc Nat.eqb].
    rewrite (consumed_rest _ _ (c :: w)); [now symmetry|].
    cbn [ms_rest]. rewrite Er. cbn [app]. now rewrite app_nil_r.
Qed.

Lemma param_name_matches prev name :
  (exists c w, name = c :: w /\ is_alpha_ c = true
               /\ forallb is_ident w = true) ->
  exists m, Match param_name_pattern (MS prev name []) m.
Proof.
  intros (c & w & -> & Hc & Hw). unfold param_name_pattern. cbn [seq].
  eexists. apply Match_Cat_iff. eexists. split.
  { apply Match_Grp_iff. eexists. split; [|reflexivity].
    apply Match_ident_iff. exists c, w, []. cbn [ms_rest].
    split; [now rewrite app_nil_r|]. split; [exact Hc|].
    split; [exact Hw|reflexivity]. }
  apply Match_Cat_iff. eexists. split.
  { apply Match_ws_star_iff. exists [], []. cbn [ms_rest set_cap].
    split; [reflexivity|]. split; [reflexivity|reflexivity]. }
  apply Match_Eol_iff. split; reflexivity.
Qed.

(** The name the second pattern finds at the end of a parameter. *)
Lemma param_name_search t name :
  (exists c w, name = c :: w /\ is_alpha_ c = true
               /\ forallb is_ident w = true) ->
  t = [] \/ (exists t' x, t = t' ++ [x] /\ is_ident x = false) ->
  exists m, re_search param_name_pattern (t ++ name) = Some m
            /\ group 1 m = name.
Proof.
  intros Hname Ht.
  assert (Hne : name <> []) by (destruct Hname as (c & w & -> & _); discriminate).
  assert (Hid : forallb is_ident name = true).
  { destruct Hname as (c & w & -> & Hc & Hw). cbn [forallb].
    now rewrite Hw, (alpha_is_ident c Hc). }
  destruct (re_search_at param_name_pattern t name) as (m & E & Hm).
  - intros p1 p2 m -> Hp2 Hm.
    destruct Ht as [Ht|(t' & x & Ht & Hx)].
    { destruct p1; destruct p2; try discriminate. now contradiction Hp2. }
    apply param_name_Match in Hm; auto. destruct Hm as [Hall _].
    assert (Hin : In x p2).
    { destruct (rev p2) as [|y r] eqn:Er.
      { apply (f_equal (@rev _)) in Er. rewrite rev_involutive in Er.
        now contradiction Hp2. }
      apply (f_equal (@rev _)) in Ht. rewrite !rev_app_distr in Ht.
      rewrite Er in Ht. cbn in Ht. inversion Ht. subst y.
      apply in_rev. rewrite Er. now left. }
    rewrite forallb_forall in Hall.
    rewrite (Hall x) in Hx; [discriminate|]. apply in_or_app. now left.
  - now apply param_name_matches.
  - exists m. split; [exact E|].
    change name with ([] ++ name) in Hm.
    apply param_name_Match in Hm; auto. tauto.
Qed.

Lemma declaration_unfold pre params post :
  forallb (not_chr "("%char) pre = true ->
  forallb (not_chr ")"%char) params = true ->
  extract_parameter_name (pre ++ py "(" ++ params ++ py ")" ++ post)
  = match strip params with
    | [] => None
    | _ =>
        match re_search param_name_pattern
                        (strip (first_part (strip params))) with
        | Some param_match => Some (group 1 param_match)
        | None => None
        end
    end.
Proof.
  intros Hpre Hp. unfold extract_parameter_name.
  destruct (param_search pre params post Hpre Hp) as (m & -> & ->).
  destruct (pre ++ py "(" ++ params ++ py ")" ++ post) eqn:E; [|reflexivity].
  destruct pre; discriminate.
Qed.

(** X13.  [extract_parameter_name] returns the identifier that ends the
    first parameter.  For a declaration whose first opening parenthesis is
    followed by a parameter list without a closing parenthesis in it: when
    the list is blank nothing is returned; when the first of its parts
    between commas, stripped, ends with an identifier that stands at its
    start or behind a character that is not one of an identifier, that
    identifier is returned.  Nothing is returned for the empty text and for
    a text without an opening parenthesis.  The rows of the table in the
    source are as stated there. *)
Theorem extract_parameter_name_spec :
  extract_parameter_name [] = None
  /\ (forall d, forallb (not_chr "("%char) d = true ->
                extract_parameter_name d = None)
  /\ (forall pre params post,
         forallb (not_chr "("%char) pre = true ->
         forallb (not_chr ")"%char) params = true ->
         strip params = [] ->
         extract_parameter_name (pre ++ py "(" ++ params ++ py ")" ++ post)
         = None)
  /\ (forall pre params post t name,
         forallb (not_chr "("%char) pre = true ->
         forallb (not_chr ")"%char) params = true ->
         strip (first_part (strip params)) = t ++ name ->
         (exists c w, name = c :: w /\ is_alpha_ c = true
                      /\ forallb is_ident w = true) ->
         t = [] \/ (exists t' x, t = t' ++ [x] /\ is_ident x = false) ->
         extract_parameter_name (pre ++ py "(" ++ params ++ py ")" ++ post)
         = Some name)
  /\ map extract_parameter_name
         [py "Public Virtual SomeClass FindByName(string xyz);";
          py "Public Virtual SomeClass FindByName(std::string xyz);";
          py "Public Virtual SomeClass FindByName(CStdString xyz);";
          py "Public Virtual SomeClass FindByName(int xyz);";
          py "Public Virtual SomeClass FindByName(anything xyz);";
          py "Public Virtual SomeClass FindByName(string abcf_ffd);";
          py "Public Virtual Entity Save(Entity& entity);";
          py "Public Virtual optional<Entity> FindById(ID id);"]
     = [Some (py "xyz"); Some (py "xyz"); Some (py "xyz"); Some (py "xyz");
        Some (py "xyz"); Some (py "abcf_ffd"); Some (py "entity");
        Some (py "id")].
Proof.
  split; [reflexivity|]. split.
  { intros d Hd. unfold extract_parameter_name.
    destruct d as [|c d]; [reflexivity|].
    destruct (re_search param_pattern (c :: d)) as [m|] eqn:E; [|reflexivity].
    exfalso. apply re_search_Some in E. destruct E as (pre & suf & E & Hm).
    apply param_pattern_starts in Hm. destruct Hm as [t Et].
    cbn [ms_rest] in Et. subst suf. rewrite E in Hd.
    apply forallb_app_true in Hd. destruct Hd as [_ Hd]. discriminate. }
  split.
  { intros pre params post Hpre Hp Hs.
    rewrite declaration_unfold by assumption. now rewrite Hs. }
  split.
  { intros pre params post t name Hpre Hp Hs Hname Ht.
    rewrite declaration_unfold by assumption.
    destruct (param_name_search t name Hname Ht) as (m & Em & Hg).
    rewrite Hs, Em, Hg.
    destruct (strip params) eqn:E; [|reflexivity].
    exfalso. destruct Hname as (c & w & -> & _).
    cbn in Hs. destruct t; discriminate. }
  vm_compute. reflexivity.
Qed.

End ExtractParameterNameSpec.

Section RepositoryIncludeSpec.

Import RepositoryInclude.

Lemma scan_endif_spec lines : forall count,
  match scan_endif lines count with
  | Some n =>
      1 <= n <= count
      /\ is_endif_line (nth (n - 1) lines []) = true
      /\ forall j, n <= j < count -> is_endif_line (nth j lines []) = false
  | None => forall j, j < count -> is_endif_line (nth j lines []) = false
  end.
Proof.
  induction count as [|i IH]; cbn [scan_endif].
  - intros j Hj. lia.
  - destruct (is_endif_line (nth i lines [])) eqn:E.
    + replace (i + 1 - 1) with i by lia. split; [lia|]. split; [exact E|].
      intros j Hj. lia.
    + destruct (scan_endif lines i) as [n|].
      * destruct IH as (Hn & Hp & Hl). split; [lia|]. split; [exact Hp|].
        intros j Hj. destruct (Nat.eq_dec j i) as [->|Hne]; [exact E|].
        apply Hl. lia.
      * intros j Hj. destruct (Nat.eq_dec j i) as [->|Hne]; [exact E|].
        apply IH. lia.
Qed.

Lemma include_statement_found a b include_path :
  found (re_search (include_pattern include_path)
                   (a ++ include_statement include_path ++ b)) = true.
Proof.
  apply re_search_found. exists a. eexists. eexists.
  split; [reflexivity|]. unfold include_pattern. cbn [seq].
  apply Match_Cat_iff. eexists. split.
  { apply Match_lit_iff. exists (py " " ++ [dq] ++ include_path ++ [dq] ++ b).
    split; [|reflexivity]. cbn [ms_rest]. unfold include_statement.
    rewrite <- !app_assoc. reflexivity. }
  apply Match_Cat_iff. eexists. split.
  { apply Match_ws_plus_iff. exists (py " "), ([dq] ++ include_path ++ [dq] ++ b).
    cbn [ms_rest]. split; [reflexivity|]. split; [reflexivity|].
    split; [discriminate|reflexivity]. }
  apply Match_Cat_iff. eexists. split.
  { apply Match_Chr_iff. exists dq, (include_path ++ [dq] ++ b).
    cbn [ms_rest]. split; [reflexivity|]. split; [reflexivity|reflexivity]. }
  apply Match_Cat_iff. eexists. split.
  { apply Match_lit_iff. exists ([dq] ++ b). cbn [ms_rest].
    split; [reflexivity|reflexivity]. }
  apply Match_Chr_iff. exists dq, b. cbn [ms_rest].
  split; [reflexivity|]. split; [reflexivity|reflexivity].
Qed.

(** X14.  What [add_include_to_file] writes.  A file that already has an
    include of the path, in quotes or angle brackets, is left as it is and
    the call reports failure.  Otherwise a dry run reports success and
    writes nothing, and a real run on a file that can be written puts the
    line [#include "PATH"] right before the last line that is an [#endif]
    line, or, when the file has none, after a newline at the end of the
    file; every other line is kept.  A real run on a file that cannot be
    written reports failure and leaves the file as it is. *)
Theorem add_include_to_file_spec :
  forall content include_path,
    (found (re_search (include_pattern include_path) content) = true ->
     forall writable dry_run,
       add_include_to_file writable (Some content) include_path dry_run
       = (Some content, false))
    /\ (found (re_search (include_pattern include_path) content) = false ->
        (forall writable,
            add_include_to_file writable (Some content) include_path true
            = (Some content, true))
        /\ add_include_to_file false (Some content) include_path false
           = (Some content, false)
        /\ ((exists k,
                k < length (split_nl content)
                /\ is_endif_line (nth k (split_nl content) []) = true
                /\ (forall j, k < j < length (split_nl content) ->
                      is_endif_line (nth j (split_nl content) []) = false)
                /\ add_include_to_file true (Some content) include_path false
                   = (Some (join [nl]
                              (firstn k (split_nl content)
                               ++ include_statement include_path
                                  :: skipn k (split_nl content))),
                      true))
            \/ ((forall l, In l (split_nl content) -> is_endif_line l = false)
                /\ add_include_to_file true (Some content) include_path false
                   = (Some (content ++ [nl]
                            ++ include_statement include_path), true)))).
Proof.
  intros content include_path. unfold add_include_to_file.
  split; [intros -> writable dry_run; reflexivity|]. intros ->.
  split; [reflexivity|]. split; [reflexivity|].
  cbn [negb write_file]. unfold find_last_endif_position.
  pose proof (scan_endif_spec (split_nl content)
                              (length (split_nl content))) as HS.
  destruct (scan_endif (split_nl content) (length (split_nl content)))
    as [n|].
  - left. destruct HS as (Hn & Hp & Hl). exists (n - 1).
    split; [lia|]. split; [exact Hp|]. split; [|reflexivity].
    intros j Hj. apply Hl. lia.
  - right. split.
    + intros l Hl. destruct (In_nth _ _ [] Hl) as (j & Hj & <-).
      now apply HS.
    + rewrite join_app; [|apply split_nl_nonempty|discriminate].
      now rewrite join_split_nl.
Qed.

(** X15.  [add_include_to_file] adds an include once: after a real run
    that reported success, a further call for the same path, dry or real,
    reports failure and leaves the file as it is. *)
Theorem add_include_to_file_once writable f include_path f' :
  add_include_to_file writable f include_path false = (f', true) ->
  forall writable' dry_run,
    add_include_to_file writable' f' include_path dry_run = (f', false).
Proof.
  intros H writable' dry_run. destruct f as [content|]; [|discriminate].
  assert (G : exists a b,
             f' = Some (a ++ include_statement include_path ++ b)).
  { unfold add_include_to_file in H.
    destruct (found (re_search (include_pattern include_path) content));
      [discriminate|].
    destruct writable; [|discriminate H]. cbn [write_file] in H.
    apply (f_equal fst) in H. cbn [fst negb] in H. subst f'.
    match goal with
    | |- exists a b, Some (join [nl] ?ls) = _ =>
        destruct (join_inside [nl] ls (include_statement include_path))
          as (a & b & E)
    end.
    - destruct (find_last_endif_position content) as [n|].
      + unfold S3.insert_at. apply in_or_app. right. now left.
      + apply in_or_app. right. now left.
    - exists a, b. now rewrite E. }
  destruct G as (a & b & ->). unfold add_include_to_file.
  now rewrite include_statement_found.
Qed.

Lemma add_include_to_file_once_witness :
  add_include_to_file true (Some guarded_header) (py "/x/RImpl.h") false
  = (Some (py "#ifndef REPO_H
#define REPO_H
class R {};
#include " ++ [dq] ++ py "/x/RImpl.h" ++ [dq] ++ py "
#endif // REPO_H
"), true)
  /\ forall writable' dry_run,
       add_include_to_file writable'
         (Some (py "#ifndef REPO_H
#define REPO_H
class R {};
#include " ++ [dq] ++ py "/x/RImpl.h" ++ [dq] ++ py "
#endif // REPO_H
")) (py "/x/RImpl.h") dry_run
       = (Some (py "#ifndef REPO_H
#define REPO_H
class R {};
#include " ++ [dq] ++ py "/x/RImpl.h" ++ [dq] ++ py "
#endif // REPO_H
"), false).
Proof.
  split; [vm_compute; reflexivity|].
  apply (add_include_to_file_once true (Some guarded_header)
                                  (py "/x/RImpl.h")).
  vm_compute. reflexivity.
Defined.

End RepositoryIncludeSpec.

Section RemoveCommentsProps.

Import DetectRepository.

Lemma Subseq_refl s : Subseq s s.
Proof. induction s; [apply Subseq_nil|now apply Subseq_keep]. Qed.

Lemma Subseq_drop w : forall a b, Subseq a b -> Subseq a (w ++ b).
Proof.
  induction w; intros a0 b H; simpl; [exact H|apply Subseq_skip; auto].
Qed.

Lemma Subseq_trans a b c : Subseq a b -> Subseq b c -> Subseq a c.
Proof.
  intros H1 H2. revert a H1. induction H2; intros x H1.
  - exact H1.
  - apply Subseq_skip. auto.
  - inversion H1; subst.
    + apply Subseq_skip. auto.
    + apply Subseq_keep. auto.
Qed.

Lemma Subseq_length a b : Subseq a b -> length a <= length b.
Proof. induction 1; simpl; lia. Qed.

Lemma sub_empty_aux_Subseq r : forall fuel prev s,
  Subseq (sub_empty_aux r fuel prev s) s.
Proof.
  induction fuel as [|f IH]; intros prev s; [apply Subseq_refl|].
  cbn [sub_empty_aux].
  assert (Skip : Subseq match s with
                        | [] => []
                        | c :: t => c :: sub_empty_aux r f (Some c) t
                        end s).
  { destruct s as [|c t]; [apply Subseq_nil|apply Subseq_keep, IH]. }
  destruct (run r (MS prev s [])) as [|st l] eqn:E; [exact Skip|].
  destruct (progress (MS prev s []) st); [|exact Skip].
  assert (M : Match r (MS prev s []) st)
    by (apply run_spec; rewrite E; now left).
  apply Match_rest in M. destruct M as (w & Ew & _). cbn [ms_rest] in Ew.
  rewrite Ew. apply Subseq_drop, IH.
Qed.

Lemma sub_empty_aux_id r : forall fuel prev s,
  (forall pre suf p m, s = pre ++ suf -> ~ Match r (MS p suf []) m) ->
  sub_empty_aux r fuel prev s = s.
Proof.
  induction fuel as [|f IH]; intros prev s H; [reflexivity|].
  cbn [sub_empty_aux].
  destruct (run r (MS prev s [])) as [|st l] eqn:E.
  - destruct s as [|c t]; [reflexivity|]. f_equal. apply IH.
    intros pre suf p m Es. apply (H (c :: pre) suf p m). now rewrite Es.
  - exfalso. apply (H [] s prev st); [reflexivity|].
    apply run_spec. rewrite E. now left.
Qed.

Lemma line_comment_starts st m :
  Match line_comment st m -> exists t, ms_rest st = py "//" ++ t.
Proof.
  unfold line_comment. cbn [seq]. intros H.
  apply Match_Cat_iff in H. destruct H as (s1 & H1 & _).
  apply Match_lit_iff in H1. destruct H1 as (t & E & _). eauto.
Qed.

Lemma block_comment_starts st m :
  Match block_comment st m -> exists t, ms_rest st = py "/*" ++ t.
Proof.
  unfold block_comment. cbn [seq]. intros H.
  apply Match_Cat_iff in H. destruct H as (s1 & H1 & _).
  apply Match_lit_iff in H1. destruct H1 as (t & E & _). eauto.
Qed.

(** X16.  [remove_comments] only takes characters away: what it returns
    is the text with some of its characters left out, in the same order,
    and a text that has neither two slashes in a row nor a slash followed
    by a star is returned as it is. *)
Theorem remove_comments_only_deletes :
  (forall content,
      Subseq (remove_comments content) content
      /\ length (remove_comments content) <= length content)
  /\ (forall content,
         contains (py "//") content = false ->
         contains (py "/*") content = false ->
         remove_comments content = content).
Proof.
  split.
  - intros content.
    assert (S : Subseq (remove_comments content) content).
    { unfold remove_comments, re_sub_empty.
      eapply Subseq_trans; apply sub_empty_aux_Subseq. }
    split; [exact S|now apply Subseq_length].
  - intros content H1 H2. unfold remove_comments, re_sub_empty.
    rewrite (sub_empty_aux_id line_comment).
    + apply sub_empty_aux_id. intros pre suf p m E Hm.
      apply block_comment_starts in Hm. destruct Hm as [t Et].
      cbn [ms_rest] in Et. subst suf.
      rewrite E, contains_mid in H2. discriminate.
    + intros pre suf p m E Hm.
      apply line_comment_starts in Hm. destruct Hm as [t Et].
      cbn [ms_rest] in Et. subst suf.
      rewrite E, contains_mid in H1. discriminate.
Qed.

End RemoveCommentsProps.

Section DetectRepositorySound.

Import DetectRepository.

Lemma forallb_strip (p : ascii -> bool) (s : str) :
  forallb p s = true -> forallb p (strip s) = true.
Proof.
  intros H. destruct (strip_inside s) as (a & b & E). rewrite E in H.
  apply forallb_app_true in H. destruct H as [_ H].
  apply forallb_app_true in H. tauto.
Qed.

Lemma Match_grp_plus_chr_tail n g p tail st m :
  mentions n tail = false ->
  Match (Cat (Grp n (plus g (Chr p))) tail) st m ->
  group n m <> [] /\ forallb p (group n m) = true.
Proof.
  intros G H. apply Match_grp_tail in H; [|exact G].
  destruct H as (s' & Hp & ->). apply Match_plus_chr_iff in Hp.
  destruct Hp as (w & t & Er & Hw & Hne & ->).
  rewrite (consumed_rest _ _ w) by (cbn [ms_rest]; exact Er). auto.
Qed.

Lemma define_pattern_name content m :
  re_search define_pattern content = Some m ->
  group 1 m <> [] /\ forallb isword (group 1 m) = true.
Proof.
  intros H. apply re_search_Some in H. destruct H as (pre & suf & _ & H).
  unfold define_pattern in H. cbn [seq] in H.
  do 4 (apply Match_Cat_tail in H; destruct H as (? & H & _)).
  apply Match_grp_plus_chr_tail in H; [exact H|reflexivity].
Qed.

Lemma cpa_pattern_types class_name content m :
  re_search (cpa_pattern class_name) content = Some m ->
  forallb not_sep (group 1 m) = true /\ forallb not_sep (group 2 m) = true.
Proof.
  intros H. apply re_search_Some in H. destruct H as (pre & suf & _ & H).
  unfold cpa_pattern in H. cbn [seq] in H.
  do 14 (apply Match_Cat_tail in H; destruct H as (? & H & _)).
  pose proof H as H1. apply Match_grp_plus_chr_tail in H1; [|reflexivity].
  split; [tauto|].
  do 4 (apply Match_Cat_tail in H; destruct H as (? & H & _)).
  apply Match_grp_plus_chr_tail in H; [tauto|reflexivity].
Qed.

(** X17.  What [detect_repository] reports is there.  Nothing is
    reported for a file that cannot be read.  When a repository is
    reported, the file holds the annotation and no processed marker; the
    class name is a word, not empty; the entity type and the key type have
    no comma and no angle bracket in them; and the flag tells whether the
    class is declared behind a template header. *)
Theorem detect_repository_sound :
  detect_repository None = None
  /\ forall content class_name entity_type id_type is_templated,
       detect_repository (Some content)
       = Some (class_name, entity_type, id_type, is_templated) ->
       find_repository_annotation content = true
       /\ found (re_search pattern content) = true
       /\ found (re_search processed_pattern content) = false
       /\ class_name <> [] /\ forallb isword class_name = true
       /\ extract_class_name_from_define_standard_pointers content
          = Some class_name
       /\ forallb not_sep entity_type = true
       /\ forallb not_sep id_type = true
       /\ extract_cpaRepository_info (remove_comments content) class_name
          = Some (entity_type, id_type)
       /\ is_templated = is_class_templated content class_name.
Proof.
  split; [reflexivity|].
  intros content class_name entity_type id_type is_templated H.
  unfold detect_repository in H.
  destruct (find_repository_annotation content) eqn:Ea; [|discriminate].
  cbn [negb] in H.
  unfold extract_class_name_from_define_standard_pointers in *.
  destruct (re_search define_pattern content) as [md|] eqn:Ed;
    [|discriminate].
  destruct (define_pattern_name _ _ Ed) as [Hne Hw].
  destruct (group 1 md) as [|c0 n0] eqn:Eg; [discriminate|].
  rewrite <- Eg in *.
  unfold extract_cpaRepository_info in *.
  destruct (re_search (cpa_pattern (group 1 md)) (remove_comments content))
    as [mc|] eqn:Ec; [|discriminate].
  inversion H; subst. clear H.
  destruct (cpa_pattern_types _ _ _ Ec) as [H1 H2].
  split; [reflexivity|].
  unfold find_repository_annotation in Ea.
  destruct (found (re_search pattern content)); [|discriminate].
  destruct (found (re_search processed_pattern content)); [discriminate|].
  split; [reflexivity|]. split; [reflexivity|].
  split; [exact Hne|]. split; [exact Hw|]. split; [reflexivity|].
  split; [now apply forallb_strip|]. split; [now apply forallb_strip|].
  split; [now rewrite Ec|reflexivity].
Qed.

End DetectRepositorySound.

Section MunchLemmas.

(** Two readings of the longest run of characters of a class agree. *)
Lemma munch (p : ascii -> bool) : forall l l' x x',
  forallb p l = true -> forallb p l' = true ->
  stops p x -> stops p x' ->
  l ++ x = l' ++ x' -> l = l' /\ x = x'.
Proof.
  induction l as [|c l IH]; intros l' x x' Hl Hl' Hx Hx' E.
  - destruct l' as [|c' l']; [auto|]. exfalso. cbn [app] in E. subst x.
    cbn [stops forallb] in *. apply andb_true_iff in Hl'.
    destruct Hl' as [Hc _]. congruence.
  - destruct l' as [|c' l'].
    + exfalso. cbn [app] in E. subst x'. cbn [stops forallb] in *.
      apply andb_true_iff in Hl. destruct Hl as [Hc _]. congruence.
    + cbn [app] in E. inversion E; subst c'. cbn [forallb] in Hl, Hl'.
      apply andb_true_iff in Hl, Hl'.
      destruct (IH l' x x') as [-> ->]; tauto.
Qed.

Lemma word_not_space c : isword c = true -> isspace c = false.
Proof. destruct c as [[] [] [] [] [] [] [] []]; vm_compute; congruence. Qed.

Lemma space_not_word c : isspace c = true -> isword c = false.
Proof. destruct c as [[] [] [] [] [] [] [] []]; vm_compute; congruence. Qed.

Lemma space_lower c : isspace c = true -> lower_chr c = c.
Proof. destruct c as [[] [] [] [] [] [] [] []]; vm_compute; congruence. Qed.

Lemma lower_not_space x k :
  lower_chr x = k -> isspace k = false -> isspace x = false.
Proof.
  intros E Hk. destruct (isspace x) eqn:Hx; [|reflexivity].
  rewrite (space_lower x Hx) in E. congruence.
Qed.

Lemma strip_space_cons c s : isspace c = true -> strip (c :: s) = strip s.
Proof.
  intros Hc. unfold strip.
  destruct (rstrip s) as [|y r] eqn:E.
  - assert (R : rstrip (c :: s) = []).
    { unfold rstrip in *. simpl rev.
      assert (D : dropwhile isspace (rev s) = []).
      { destruct (dropwhile isspace (rev s)) as [|z l] eqn:D; auto.
        simpl in E. destruct (rev l); discriminate. }
      rewrite dropwhile_app_nil by exact D. simpl. now rewrite Hc. }
    now rewrite R.
  - change (c :: s) with ([c] ++ s). rewrite rstrip_app by (rewrite E; discriminate).
    rewrite E. unfold lstrip. simpl. now rewrite Hc.
Qed.

Lemma strip_ws_l ws s : forallb isspace ws = true -> strip (ws ++ s) = strip s.
Proof.
  induction ws as [|c ws IH]; intros H; [reflexivity|].
  cbn [forallb] in H. apply andb_true_iff in H. destruct H as [Hc Hw].
  cbn [app]. rewrite strip_space_cons by exact Hc. now apply IH.
Qed.

Lemma strip_ws_r ws s : forallb isspace ws = true -> strip (s ++ ws) = strip s.
Proof.
  intros H. unfold strip. f_equal. unfold rstrip. f_equal.
  rewrite rev_app_distr.
  assert (G : forall a b, forallb isspace a = true ->
                          dropwhile isspace (a ++ b) = dropwhile isspace b).
  { induction a as [|c a IH]; intros b Ha; [reflexivity|].
    cbn [forallb] in Ha. apply andb_true_iff in Ha. destruct Ha as [Hc Ha].
    simpl. rewrite Hc. now apply IH. }
  apply G. rewrite forallb_forall in *. intros x Hx. apply H.
  now apply in_rev.
Qed.

End MunchLemmas.

Section DiscoverySpec.

Import S6.

Ltac peel H s Hn :=
  apply Match_Cat_iff in H; destruct H as (s & Hn & H).

Ltac tidy H := cbn [ms_rest ms_prev ms_caps set_cap] in H.

Ltac tidy_goal := cbn [ms_rest ms_prev ms_caps set_cap].

Ltac next_part := tidy_goal; apply Match_Cat_iff; eexists; split.

(** Every reading of a definition by the shared part of the patterns
    captures the marker and, up to white space, the function. *)
Lemma definition_tail_groups prev name fn rest caps m :
  name <> [] -> forallb isword name = true ->
  forallb not_star fn = true ->
  Match definition_tail
        (MS prev (py "#define " ++ name ++ py " /* Validation Function -> "
                  ++ fn ++ py " */" ++ rest) caps) m ->
  group 1 m = name /\ strip (group 2 m) = strip fn.
Proof.
  intros Hne Hname Hfn H. unfold definition_tail in H. cbn [seq] in H.
  peel H s1 H1. apply Match_liti_iff in H1.
  destruct H1 as (w0 & t0 & E0 & L0 & ->). tidy H.
  peel H s2 H2. apply Match_ws_plus_iff in H2.
  destruct H2 as (ws1 & t1 & E1 & W1 & N1 & ->). tidy H.
  peel H s3 H3. apply Match_Grp_iff in H3.
  destruct H3 as (s3' & H3 & ->). tidy H. apply Match_plus_chr_iff in H3.
  destruct H3 as (w1 & t2 & E2 & Hw1 & Nw1 & ->). tidy H.
  peel H s4 H4. apply Match_ws_plus_iff in H4.
  destruct H4 as (ws2 & t3 & E3 & W2 & N2 & ->). tidy H.
  peel H s5 H5. apply Match_lit_iff in H5.
  destruct H5 as (t4 & E4 & ->). tidy H.
  peel H s6 H6. apply Match_ws_star_iff in H6.
  destruct H6 as (ws3 & t5 & E5 & W3 & ->). tidy H.
  peel H s7 H7. apply Match_liti_iff in H7.
  destruct H7 as (v & t6 & E6 & Lv & ->). tidy H.
  peel H s8 H8. apply Match_ws_plus_iff in H8.
  destruct H8 as (ws4 & t7 & E7 & W4 & N4 & ->). tidy H.
  peel H s9 H9. apply Match_liti_iff in H9.
  destruct H9 as (f & t8 & E8 & Lf & ->). tidy H.
  peel H s10 H10. apply Match_ws_star_iff in H10.
  destruct H10 as (ws5 & t9 & E9 & W5 & ->). tidy H.
  peel H s11 H11. apply Match_lit_iff in H11.
  destruct H11 as (t10 & E10 & ->). tidy H.
  peel H s12 H12. apply Match_ws_star_iff in H12.
  destruct H12 as (ws6 & t11 & E11 & W6 & ->). tidy H.
  peel H s13 H13. apply Match_Grp_iff in H13.
  destruct H13 as (s13' & H13 & ->). tidy H. apply Match_plus_chr_iff in H13.
  destruct H13 as (w2 & t12 & E12 & Hw2 & Nw2 & ->). tidy H.
  peel H s14 H14. apply Match_ws_star_iff in H14.
  destruct H14 as (ws7 & t13 & E13 & W7 & ->). tidy H.
  apply Match_lit_iff in H. destruct H as (t14 & E14 & ->).
  cbn [ms_rest ms_prev ms_caps set_cap] in *.
  (* the groups *)
  unfold group. cbn [ms_caps assoc Nat.eqb].
  rewrite (consumed_rest _ _ w1) by (cbn [ms_rest]; exact E2).
  rewrite (consumed_rest _ _ w2) by (cbn [ms_rest]; exact E12).
  (* #define *)
  assert (A0 : w0 = py "#define" /\ t0 = py " " ++ name
                 ++ py " /* Validation Function -> " ++ fn ++ py " */" ++ rest).
  { apply lower_length in L0.
    change (py "#define " ++ name ++ py " /* Validation Function -> "
            ++ fn ++ py " */" ++ rest)
      with (py "#define" ++ py " " ++ name ++ py " /* Validation Function -> "
            ++ fn ++ py " */" ++ rest) in E0.
    destruct (app_same_length _ _ _ _ L0 (eq_sym E0)) as [-> ->]. auto. }
  destruct A0 as [-> ->]. clear E0 L0.
  destruct name as [|n0 name']; [congruence|].
  cbn [forallb] in Hname. apply andb_true_iff in Hname.
  destruct Hname as [Hn0 Hname'].
  destruct w1 as [|x1 w1']; [congruence|].
  cbn [forallb] in Hw1. apply andb_true_iff in Hw1. destruct Hw1 as [Hx1 Hw1'].
  destruct ws2 as [|y2 ws2']; [congruence|].
  cbn [forallb] in W2. apply andb_true_iff in W2. destruct W2 as [Hy2 W2'].
  (* the white space before the marker *)
  subst t1.
  destruct (munch isspace (py " ") ws1
                  ((n0 :: name') ++ py " /* Validation Function -> "
                   ++ fn ++ py " */" ++ rest)
                  ((x1 :: w1') ++ t2)) as [<- Ea]; auto.
  { exact (word_not_space _ Hn0). }
  { exact (word_not_space _ Hx1). }
  (* the marker *)
  subst t2.
  destruct (munch isword (n0 :: name') (x1 :: w1')
                  (py " /* Validation Function -> " ++ fn ++ py " */" ++ rest)
                  ((y2 :: ws2') ++ t3)) as [<- Eb].
  { cbn [forallb]. now rewrite Hn0. }
  { cbn [forallb]. now rewrite Hx1. }
  { reflexivity. }
  { exact (space_not_word _ Hy2). }
  { exact Ea. }
  split; [reflexivity|]. clear Ea.
  (* the white space and the opening of the comment *)
  subst t3.
  destruct (munch isspace (py " ") (y2 :: ws2')
                  (py "/* Validation Function -> " ++ fn ++ py " */" ++ rest)
                  (py "/*" ++ t4)) as [_ Ec].
  { reflexivity. } { cbn [forallb]. now rewrite Hy2. }
  { reflexivity. } { reflexivity. } { exact Eb. }
  clear Eb. cbn [py list_ascii_of_string app] in Ec.
  inversion Ec as [Ed]. clear Ec. subst t4.
  (* Validation *)
  destruct v as [|xv v']; [discriminate|].
  assert (Sv : isspace xv = false).
  { cbn in Lv. injection Lv as Hx _.
    eapply lower_not_space; [exact Hx|reflexivity]. }
  destruct (munch isspace (py " ") ws3
                  (py "Validation Function -> " ++ fn ++ py " */" ++ rest)
                  ((xv :: v') ++ t6)) as [_ Ee].
  { reflexivity. } { exact W3. } { reflexivity. } { exact Sv. }
  { rewrite <- E6. exact Ed. }
  clear Ed. apply lower_length in Lv.
  change (py "Validation Function -> " ++ fn ++ py " */" ++ rest)
    with (py "Validation" ++ py " Function -> " ++ fn ++ py " */" ++ rest)
    in Ee.
  destruct (app_same_length _ _ _ _ (eq_sym Lv) Ee) as [_ Ef]. clear Ee.
  (* Function *)
  subst t6 t5.
  destruct f as [|xf f']; [discriminate|].
  assert (Sf : isspace xf = false).
  { cbn in Lf. injection Lf as Hx _.
    eapply lower_not_space; [exact Hx|reflexivity]. }
  destruct ws4 as [|y4 ws4']; [congruence|].
  destruct (munch isspace (py " ") (y4 :: ws4')
                  (py "Function -> " ++ fn ++ py " */" ++ rest)
                  ((xf :: f') ++ t8)) as [_ Eg].
  { reflexivity. } { exact W4. } { reflexivity. } { exact Sf. }
  { rewrite <- E8. exact Ef. }
  clear Ef. apply lower_length in Lf.
  change (py "Function -> " ++ fn ++ py " */" ++ rest)
    with (py "Function" ++ py " -> " ++ fn ++ py " */" ++ rest) in Eg.
  destruct (app_same_length _ _ _ _ (eq_sym Lf) Eg) as [_ Eh]. clear Eg.
  (* the arrow *)
  subst t8 t7.
  destruct (munch isspace (py " ") ws5
                  (py "-> " ++ fn ++ py " */" ++ rest)
                  (py "->" ++ t10)) as [_ Ei].
  { reflexivity. } { exact W5. } { reflexivity. } { reflexivity. }
  { rewrite <- E10. exact Eh. }
  clear Eh. cbn [py list_ascii_of_string app] in Ei.
  inversion Ei as [Ej]. clear Ei.
  (* the function, up to the star *)
  subst t10 t9 t11 t12 t13.
  assert (Ek : (py " " ++ fn ++ py " ") ++ "*"%char :: (py "/" ++ rest)
               = (ws6 ++ w2 ++ ws7) ++ "*"%char :: (py "/" ++ t14)).
  { rewrite <- !app_assoc. cbn [py list_ascii_of_string app] in *.
    exact Ej. }
  assert (NS : forall ws, forallb isspace ws = true ->
                          forallb not_star ws = true).
  { intros ws Hws. apply (forallb_impl isspace); [|exact Hws].
    intros c Hc. destruct c as [[] [] [] [] [] [] [] []];
      vm_compute in Hc |- *; congruence. }
  destruct (run_unique not_star (py " " ++ fn ++ py " ") (ws6 ++ w2 ++ ws7)
                       "*"%char (py "/" ++ rest) (py "/" ++ t14))
    as [El _].
  { rewrite !forallb_app. rewrite Hfn. reflexivity. }
  { rewrite !forallb_app. rewrite Hw2, (NS ws6 W6), (NS ws7 W7). reflexivity. }
  { reflexivity. }
  { exact Ek. }
  assert (S1 : strip (ws6 ++ w2 ++ ws7) = strip w2).
  { rewrite strip_ws_l by exact W6. now apply strip_ws_r. }
  rewrite <- S1, <- El.
  change (py " " ++ fn ++ py " ") with ([" "%char] ++ fn ++ [" "%char]).
  rewrite strip_ws_l by reflexivity. now apply strip_ws_r.
Qed.

Lemma definition_tail_matches prev name fn rest :
  name <> [] -> forallb isword name = true ->
  forallb not_star fn = true ->
  exists m,
    Match definition_tail
          (MS prev (py "#define " ++ name ++ py " /* Validation Function -> "
                    ++ fn ++ py " */" ++ rest) []) m.
Proof.
  intros Hne Hname Hfn. unfold definition_tail. cbn [seq]. eexists.
  next_part.
  { apply Match_liti_iff.
    exists (py "#define"),
           (py " " ++ name ++ py " /* Validation Function -> " ++ fn
            ++ py " */" ++ rest).
    split; [reflexivity|]. split; reflexivity. }
  next_part.
  { apply Match_ws_plus_iff.
    exists (py " "),
           (name ++ py " /* Validation Function -> " ++ fn ++ py " */" ++ rest).
    split; [reflexivity|]. split; [reflexivity|].
    split; [discriminate|reflexivity]. }
  next_part.
  { apply Match_Grp_iff. eexists. split; [|reflexivity].
    apply Match_plus_chr_iff.
    exists name, (py " /* Validation Function -> " ++ fn ++ py " */" ++ rest).
    split; [reflexivity|]. split; [exact Hname|]. split; [exact Hne|].
    reflexivity. }
  next_part.
  { apply Match_ws_plus_iff.
    exists (py " "), (py "/* Validation Function -> " ++ fn ++ py " */" ++ rest).
    split; [reflexivity|]. split; [reflexivity|].
    split; [discriminate|reflexivity]. }
  next_part.
  { apply Match_lit_iff.
    exists (py " Validation Function -> " ++ fn ++ py " */" ++ rest).
    split; reflexivity. }
  next_part.
  { apply Match_ws_star_iff.
    exists (py " "), (py "Validation Function -> " ++ fn ++ py " */" ++ rest).
    split; [reflexivity|]. split; reflexivity. }
  next_part.
  { apply Match_liti_iff.
    exists (py "Validation"), (py " Function -> " ++ fn ++ py " */" ++ rest).
    split; [reflexivity|]. split; reflexivity. }
  next_part.
  { apply Match_ws_plus_iff.
    exists (py " "), (py "Function -> " ++ fn ++ py " */" ++ rest).
    split; [reflexivity|]. split; [reflexivity|].
    split; [discriminate|reflexivity]. }
  next_part.
  { apply Match_liti_iff.
    exists (py "Function"), (py " -> " ++ fn ++ py " */" ++ rest).
    split; [reflexivity|]. split; reflexivity. }
  next_part.
  { apply Match_ws_star_iff.
    exists (py " "), (py "-> " ++ fn ++ py " */" ++ rest).
    split; [reflexivity|]. split; reflexivity. }
  next_part.
  { apply Match_lit_iff. exists (py " " ++ fn ++ py " */" ++ rest).
    split; reflexivity. }
  next_part.
  { apply Match_ws_star_iff.
    exists [], (py " " ++ fn ++ py " */" ++ rest).
    split; [reflexivity|]. split; reflexivity. }
  next_part.
  { apply Match_Grp_iff. eexists. split; [|reflexivity].
    apply Match_plus_chr_iff.
    exists (py " " ++ fn ++ py " "), (py "*/" ++ rest).
    split; [cbn [ms_rest]; now rewrite <- !app_assoc|].
    split; [rewrite !forallb_app, Hfn; reflexivity|].
    split; [discriminate|reflexivity]. }
  next_part.
  { apply Match_ws_star_iff. exists [], (py "*/" ++ rest).
    split; [reflexivity|]. split; reflexivity. }
  tidy_goal. apply Match_lit_iff. exists rest. split; reflexivity.
Qed.

Lemma definition_tail_starts st m :
  Match definition_tail st m ->
  exists x t, ms_rest st = x :: t /\ lower_chr x = "#"%char.
Proof.
  unfold definition_tail. cbn [seq]. intros H.
  apply Match_Cat_iff in H. destruct H as (s1 & H1 & _).
  apply Match_liti_iff in H1. destruct H1 as (w & t & E & L & _).
  destruct w as [|x w]; [discriminate|]. cbn in L. inversion L.
  exists x, (w ++ t). split; auto.
Qed.

Lemma In_spaces c n : In c (spaces n) -> c = " "%char.
Proof. intros H. now apply repeat_spec in H. Qed.

(** The search of the file pattern in a definition line. *)
Lemma definition_line_search n name fn rest :
  name <> [] -> forallb isword name = true ->
  forallb not_star fn = true ->
  exists m,
    re_search file_pattern (definition_line n name fn rest) = Some m
    /\ group 1 m = name /\ strip (group 2 m) = strip fn.
Proof.
  intros Hne Hname Hfn. unfold definition_line, file_pattern.
  destruct (re_search_at definition_tail (spaces n)
              (py "#define " ++ name ++ py " /* Validation Function -> "
               ++ fn ++ py " */" ++ rest)) as (m & E & Hm).
  - intros p1 p2 m E Hp2 Hm. apply definition_tail_starts in Hm.
    destruct Hm as (x & t & Et & Hx). destruct p2 as [|c p2]; [congruence|].
    cbn [ms_rest app] in Et. inversion Et; subst x.
    assert (Hc : c = " "%char).
    { apply (In_spaces c n). rewrite E. apply in_or_app. right. now left. }
    subst c. discriminate.
  - now apply definition_tail_matches.
  - exists m. split; [exact E|].
    eapply definition_tail_groups; eauto.
Qed.

Lemma find_sub_ge sub : forall s i j, find_sub sub s i = Some j -> i <= j.
Proof.
  induction s as [|c s IH]; intros i j H; cbn [find_sub] in H.
  - destruct (startswith sub []); inversion H; lia.
  - destruct (startswith sub (c :: s)); [inversion H; lia|].
    apply IH in H. lia.
Qed.

Lemma find_sub_spaces sub x : forall n i,
  match sub with [] => False | c :: _ => c <> " "%char end ->
  find_sub sub (spaces n ++ x) i = find_sub sub x (i + n).
Proof.
  induction n as [|n IH]; intros i Hs.
  - cbn [spaces repeat app]. now rewrite Nat.add_0_r.
  - change (spaces (S n) ++ x) with (" "%char :: spaces n ++ x).
    cbn [find_sub].
    destruct sub as [|c sub]; [destruct Hs|].
    cbn [startswith]. destruct (chr_eqb c " "%char) eqn:E.
    + apply chr_eqb_eq in E. congruence.
    + cbn [andb]. rewrite IH by exact Hs. f_equal. lia.
Qed.

Lemma word_strip name : forallb isword name = true -> strip name = name.
Proof.
  intros H. apply strip_clean. apply (forallb_impl isword); [|exact H].
  intros c Hc. now rewrite (word_not_space c Hc).
Qed.

Lemma definition_line_scanned n name fn rest acc :
  name <> [] -> forallb isword name = true ->
  forallb not_star fn = true ->
  scan_line file_pattern (definition_line n name fn rest) acc
  = dict_set name (strip fn) acc.
Proof.
  intros Hne Hname Hfn. unfold scan_line.
  destruct (definition_line_search n name fn rest Hne Hname Hfn)
    as (m & -> & -> & ->).
  rewrite (word_strip name Hname).
  assert (S1 : startswith (py "//") (strip (definition_line n name fn rest))
               = false).
  { unfold definition_line. rewrite strip_ws_l.
    - unfold strip. cbn [py list_ascii_of_string app].
      rewrite rstrip_cons by reflexivity. reflexivity.
    - clear. induction n; simpl; auto. }
  rewrite S1.
  assert (S2 : (if contains (py "//") (definition_line n name fn rest)
                then
                  match find_sub (py "#define")
                                 (definition_line n name fn rest) 0,
                        find_sub (py "//")
                                 (definition_line n name fn rest) 0 with
                  | Some define_pos, Some comment_pos =>
                      Nat.ltb comment_pos define_pos
                  | _, _ => false
                  end
                else false) = false).
  { destruct (contains (py "//") (definition_line n name fn rest));
      [|reflexivity].
    unfold definition_line.
    rewrite !find_sub_spaces by (cbn; discriminate).
    cbn [Nat.add]. cbn [py list_ascii_of_string app find_sub startswith].
    rewrite !chr_eqb_refl. cbn [andb].
    match goal with
    | |- match ?F with _ => _ end = false => destruct F as [j|] eqn:Ej
    end; [|reflexivity].
    apply find_sub_ge in Ej. apply Nat.ltb_ge. lia. }
  rewrite S2. reflexivity.
Qed.

Lemma dropwhile_idem (p : ascii -> bool) s :
  dropwhile p (dropwhile p s) = dropwhile p s.
Proof.
  induction s as [|c s IH]; [reflexivity|]. simpl.
  destruct (p c) eqn:E; [exact IH|]. simpl. now rewrite E.
Qed.

Lemma rstrip_idem s : rstrip (rstrip s) = rstrip s.
Proof. unfold rstrip. now rewrite rev_involutive, dropwhile_idem. Qed.

Lemma dropwhile_head_stop (p : ascii -> bool) s :
  match dropwhile p s with [] => True | c :: _ => p c = false end.
Proof.
  induction s as [|c s IH]; [exact I|]. simpl.
  destruct (p c) eqn:E; [exact IH|exact E].
Qed.

Lemma rstrip_lstrip y : rstrip y = y -> rstrip (lstrip y) = lstrip y.
Proof.
  intros H. destruct (dropwhile_suffix isspace y) as [a Ha].
  fold (lstrip y) in Ha.
  destruct (lstrip y) as [|c r] eqn:E; [reflexivity|].
  assert (Hc : isspace c = false).
  { pose proof (dropwhile_head_stop isspace y) as D. fold (lstrip y) in D.
    now rewrite E in D. }
  assert (R : rstrip (c :: r) <> [])
    by (rewrite rstrip_cons by exact Hc; discriminate).
  assert (H' : rstrip (a ++ c :: r) = a ++ c :: r)
    by (rewrite <- Ha; exact H).
  rewrite rstrip_app in H' by exact R. now apply app_inv_head in H'.
Qed.

Lemma strip_strip s : strip (strip s) = strip s.
Proof.
  unfold strip. rewrite rstrip_lstrip by apply rstrip_idem.
  unfold lstrip. apply dropwhile_idem.
Qed.

Lemma definition_tail_shape st m :
  Match definition_tail st m ->
  macro_entry_ok (strip (group 1 m), strip (group 2 m)).
Proof.
  unfold definition_tail. cbn [seq]. intros H.
  do 2 (apply Match_Cat_tail in H; destruct H as (? & H & _)).
  pose proof H as H1. apply Match_grp_plus_chr_tail in H1; [|reflexivity].
  destruct H1 as [N1 W1].
  do 10 (apply Match_Cat_tail in H; destruct H as (? & H & _)).
  apply Match_grp_plus_chr_tail in H; [|reflexivity].
  destruct H as [_ W2].
  unfold macro_entry_ok. cbn [fst snd]. rewrite (word_strip _ W1).
  split; [exact N1|]. split; [exact W1|].
  split; [now apply forallb_strip|apply strip_strip].
Qed.

Lemma pattern_shape pattern s m :
  pattern = file_pattern \/ pattern = discovery_pattern ->
  re_search pattern s = Some m ->
  macro_entry_ok (strip (group 1 m), strip (group 2 m)).
Proof.
  intros Hp H. apply re_search_Some in H. destruct H as (pre & suf & _ & H).
  destruct Hp as [-> | ->].
  - now apply definition_tail_shape in H.
  - unfold discovery_pattern in H.
    do 2 (apply Match_Cat_tail in H; destruct H as (? & H & _)).
    now apply definition_tail_shape in H.
Qed.

Lemma dict_set_In {V : Type} k (v : V) d k0 v0 :
  In (k0, v0) (dict_set k v d) ->
  In (k0, v0) d \/ (k0 = k /\ v0 = v).
Proof.
  induction d as [|[k' v'] d IH]; cbn [dict_set].
  - intros [E|[]]. inversion E. auto.
  - destruct (str_eqb k k') eqn:E.
    + apply str_eqb_eq in E. subst k'. intros [H|H].
      * inversion H. auto.
      * left. now right.
    + intros [H|H].
      * left. now left.
      * destruct (IH H) as [H'|H']; [left; now right|now right].
Qed.

Lemma dict_set_keys {V : Type} k (v : V) d :
  NoDup (map fst d) -> NoDup (map fst (dict_set k v d))
  /\ forall x, In x (map fst (dict_set k v d)) -> x = k \/ In x (map fst d).
Proof.
  induction d as [|[k' v'] d IH]; cbn [dict_set map fst]; intros H.
  - split; [constructor; [intros []|constructor]|].
    intros x [<-|[]]. now left.
  - inversion H as [|? ? Hn Hd]; subst. destruct (IH Hd) as [IH1 IH2].
    destruct (str_eqb k k') eqn:E.
    + cbn [map fst]. split; [exact H|]. intros x Hx. now right.
    + cbn [map fst]. split.
      * constructor; [|exact IH1]. intros Hin.
        destruct (IH2 _ Hin) as [->|Hin']; [|contradiction].
        rewrite str_eqb_refl in E. discriminate.
      * intros x [<-|Hx]; [right; now left|].
        destruct (IH2 _ Hx); [now left|right; now right].
Qed.

Lemma lookup_dict_set {V : Type} k (v : V) d :
  S7.lookup k (dict_set k v d) = Some v
  /\ forall k', k' <> k -> S7.lookup k' (dict_set k v d) = S7.lookup k' d.
Proof.
  induction d as [|[k0 v0] d [IH1 IH2]]; cbn [dict_set S7.lookup].
  - rewrite str_eqb_refl. split; [reflexivity|]. intros k' Hk.
    destruct (str_eqb k' k) eqn:E; [|reflexivity].
    apply str_eqb_eq in E. contradiction.
  - destruct (str_eqb k k0) eqn:E.
    + apply str_eqb_eq in E. subst k0. cbn [S7.lookup].
      rewrite str_eqb_refl. split; [reflexivity|]. intros k' Hk.
      destruct (str_eqb k' k) eqn:E'; [|reflexivity].
      apply str_eqb_eq in E'. contradiction.
    + cbn [S7.lookup]. rewrite E. split; [exact IH1|].
      intros k' Hk. destruct (str_eqb k' k0); [reflexivity|now apply IH2].
Qed.

Lemma scan_line_ok pattern line d :
  pattern = file_pattern \/ pattern = discovery_pattern ->
  table_ok d -> table_ok (scan_line pattern line d).
Proof.
  intros Hp [Hn He]. unfold scan_line.
  destruct (startswith (py "//") (strip line)); [split; assumption|].
  match goal with
  | |- table_ok (if ?c then _ else _) => destruct c
  end; [split; assumption|].
  destruct (re_search pattern line) as [m|] eqn:E; [|split; assumption].
  pose proof (pattern_shape pattern line m Hp E) as Hm. split.
  - now apply dict_set_keys.
  - intros [k v] Hin. apply dict_set_In in Hin.
    destruct Hin as [Hin|[-> ->]]; [now apply He|exact Hm].
Qed.

Lemma scan_lines_ok pattern lines : forall d,
  pattern = file_pattern \/ pattern = discovery_pattern ->
  table_ok d -> table_ok (scan_lines pattern lines d).
Proof.
  unfold scan_lines. induction lines as [|l lines IH]; intros d Hp Hd;
    [exact Hd|].
  cbn [fold_left]. apply IH; [exact Hp|]. now apply scan_line_ok.
Qed.

Lemma scan_lines_keep name lines : forall acc,
  (forall l acc', In l lines ->
                  S7.lookup name (scan_line file_pattern l acc')
                  = S7.lookup name acc') ->
  S7.lookup name (scan_lines file_pattern lines acc) = S7.lookup name acc.
Proof.
  unfold scan_lines. induction lines as [|l lines IH]; intros acc H;
    [reflexivity|].
  cbn [fold_left]. rewrite IH.
  - apply H. now left.
  - intros l' acc' Hin. apply H. now right.
Qed.

(** X18.  A definition line is read back.  When a file has a line
    [#define NAME], a comment [Validation Function -> FN] behind it, the
    marker a word and the function without a star, and no later line of
    the file changes the entry of the marker, then the table
    [extract_validation_macros_from_file] returns binds the marker to the
    function, stripped; the line may be indented by spaces and may go on
    after the comment. *)
Theorem validation_macro_read_back text lines1 lines2 n name fn rest :
  name <> [] -> forallb isword name = true ->
  forallb not_star fn = true ->
  readlines text = lines1 ++ definition_line n name fn rest :: lines2 ->
  (forall l acc, In l lines2 ->
                 S7.lookup name (scan_line file_pattern l acc)
                 = S7.lookup name acc) ->
  S7.lookup name (extract_validation_macros_from_file (Some text))
  = Some (strip fn).
Proof.
  intros Hne Hname Hfn E Hlater. unfold extract_validation_macros_from_file.
  rewrite E. unfold scan_lines. rewrite fold_left_app. cbn [fold_left].
  fold (scan_lines file_pattern lines2
          (scan_line file_pattern (definition_line n name fn rest)
             (fold_left (fun acc line => scan_line file_pattern line acc)
                        lines1 []))).
  rewrite scan_lines_keep by exact Hlater.
  rewrite definition_line_scanned by assumption.
  apply lookup_dict_set.
Qed.

Lemma validation_macro_read_back_witness :
  py "NotNull" <> []
  /\ forallb isword (py "NotNull") = true
  /\ forallb not_star (py "ValidateNotNull") = true
  /\ readlines macros_header
     = [] ++ definition_line 2 (py "NotNull") (py "ValidateNotNull")
                             (py " // marker
") :: [py "int x;
"]
  /\ S7.lookup (py "NotNull")
               (extract_validation_macros_from_file (Some macros_header))
     = Some (strip (py "ValidateNotNull")).
Proof.
  split; [discriminate|]. split; [reflexivity|]. split; [reflexivity|].
  split; [vm_compute; reflexivity|].
  apply (validation_macro_read_back macros_header []
           [py "int x;
"] 2 (py "NotNull") (py "ValidateNotNull") (py " // marker
")).
  - discriminate.
  - reflexivity.
  - reflexivity.
  - vm_compute. reflexivity.
  - intros l acc [<-|[]]. vm_compute. reflexivity.
Defined.

(** X19.  The tables of validation markers are well formed.  In the table
    of one file and in the table gathered over any list of header files,
    the markers are distinct, every marker is a word, not empty, and every
    function name is free of stars and of white space at its ends; a file
    that cannot be read adds nothing. *)
Theorem validation_tables_well_formed :
  (forall f, table_ok (extract_validation_macros_from_file f))
  /\ (forall header_files,
         table_ok (find_validation_macro_definitions header_files))
  /\ extract_validation_macros_from_file None = []
  /\ (forall header_files,
         find_validation_macro_definitions (None :: header_files)
         = find_validation_macro_definitions header_files).
Proof.
  assert (E0 : table_ok []).
  { split; [constructor|intros e []]. }
  split.
  { intros [text|]; [|exact E0]. apply scan_lines_ok; [now left|exact E0]. }
  split.
  { intros files. unfold find_validation_macro_definitions.
    generalize E0. generalize (@nil (str * str)).
    induction files as [|f files IH]; intros d Hd; [exact Hd|].
    cbn [fold_left]. apply IH. destruct f as [text|]; [|exact Hd].
    apply scan_lines_ok; [now right|exact Hd]. }
  split; reflexivity.
Qed.

End DiscoverySpec.

(** ** What the generator writes for the fields *)

Section GeneratorEmission.

Import S3.










End GeneratorEmission.

(** ** The method name of a declaration *)

Section DeclarationSpec.

Import ExtractFindby.

Lemma Match_reads q r st st' :
  reads_only q r -> Match r st st' ->
  exists w, ms_rest st = w ++ ms_rest st' /\ forallb q w = true
            /\ min_len r <= length w.
Proof.
  intros Hq H. induction H; cbn [reads_only min_len] in *;
    try (exists []; split; [reflexivity|split; [reflexivity|apply Nat.le_refl]]).
  - exists [c]. split; [reflexivity|]. cbn [forallb]. rewrite (Hq c H).
    split; [reflexivity|apply Nat.le_refl].
  - destruct Hq as [Ha Hb].
    destruct (IHMatch1 Ha) as (w1 & E1 & Q1 & L1).
    destruct (IHMatch2 Hb) as (w2 & E2 & Q2 & L2).
    exists (w1 ++ w2). rewrite E1, E2, <- app_assoc. split; [reflexivity|].
    rewrite forallb_app, Q1, Q2, length_app. split; [reflexivity|lia].
  - destruct (IHMatch (proj1 Hq)) as (w & E & Q & L).
    exists w. repeat split; auto. lia.
  - destruct (IHMatch (proj2 Hq)) as (w & E & Q & L).
    exists w. repeat split; auto. lia.
  - destruct (IHMatch1 Hq) as (w1 & E1 & Q1 & L1).
    destruct (IHMatch2 Hq) as (w2 & E2 & Q2 & L2).
    exists (w1 ++ w2). rewrite E1, E2, <- app_assoc. split; [reflexivity|].
    rewrite forallb_app, Q1, Q2. split; [reflexivity|lia].
  - destruct (IHMatch Hq) as (w & E & Q & L). exists w. repeat split; auto.
Qed.

Ltac class_case :=
  let c := fresh "c" in
  let H := fresh "H" in
  intros c H;
  first [ apply chr_eqb_eq in H; subst c; reflexivity
        | destruct c as [[] [] [] [] [] [] [] []]; try reflexivity;
          vm_compute in H; discriminate H ].

Lemma declaration_head_reads :
  reads_only not_paren declaration_head.
Proof.
  unfold declaration_head, opt, ws_star, ws_plus, plus, ws.
  cbn [seq alts lit py list_ascii_of_string reads_only chr].
  repeat split; class_case.
Qed.


Lemma space_not_paren c : isspace c = true -> not_paren c = true.
Proof. destruct c as [[] [] [] [] [] [] [] []]; vm_compute; congruence. Qed.

Lemma ident_chr_not_paren c : is_ident c = true -> not_paren c = true.
Proof. destruct c as [[] [] [] [] [] [] [] []]; vm_compute; congruence. Qed.

Lemma ret_chr_not_paren c : ret_chr c = true -> not_paren c = true.
Proof. destruct c as [[] [] [] [] [] [] [] []]; vm_compute; congruence. Qed.

Lemma space_not_ident c : isspace c = true -> is_ident c = false.
Proof. destruct c as [[] [] [] [] [] [] [] []]; vm_compute; congruence. Qed.

(** [re.search] returns a match that starts at or before every place that
    has one. *)
Lemma search_from_leftmost r : forall pre prev suf m0,
  Match r (MS (prev_after pre prev) suf []) m0 ->
  exists p1 p2 m,
    pre = p1 ++ p2
    /\ search_from r prev (pre ++ suf) = Some m
    /\ Match r (MS (prev_after p1 prev) (p2 ++ suf) []) m.
Proof.
  induction pre as [|c pre IH]; intros prev suf m0 H.
  - rewrite prev_after_nil in H. apply run_spec in H.
    exists [], []. cbn [app]. rewrite prev_after_nil.
    destruct (run r (MS prev suf [])) as [|st l] eqn:E; [destruct H|].
    exists st. split; [reflexivity|]. split.
    + destruct suf; cbn [search_from]; now rewrite E.
    + apply run_spec. rewrite E. now left.
  - cbn [app search_from].
    destruct (run r (MS prev (c :: pre ++ suf) [])) as [|st l] eqn:E.
    + rewrite prev_after_cons in H.
      destruct (IH (Some c) suf m0 H) as (p1 & p2 & m & -> & Hs & Hm).
      exists (c :: p1), p2, m. split; [reflexivity|]. split; [exact Hs|].
      now rewrite prev_after_cons.
    + exists [], (c :: pre), st. split; [reflexivity|].
      split; [reflexivity|]. rewrite prev_after_nil. apply run_spec.
      cbn [app]. rewrite E. now left.
Qed.

Ltac tidy H := cbn [ms_rest ms_prev ms_caps set_cap] in H.

(** What a match of the declaration pattern reads: text without an
    opening parenthesis that ends with white space, the identifier it
    captures, white space, and the opening parenthesis. *)
Lemma declaration_shape st m :
  Match declaration_pattern st m ->
  exists P x G W3 t,
    ms_rest st = (P ++ [x]) ++ G ++ W3 ++ "("%char :: t
    /\ forallb not_paren P = true /\ 2 <= length P /\ isspace x = true
    /\ (exists c g, G = c :: g /\ is_alpha_ c = true
                    /\ forallb is_ident g = true)
    /\ forallb isspace W3 = true
    /\ group 1 m = G.
Proof.
  intros H.
  assert (H' : exists s5,
             Match declaration_head st s5
             /\ Match (Cat ws_plus
                         (Cat (Grp 1 ident) (Cat ws_star (chr "("%char))))
                      s5 m).
  { unfold declaration_pattern in H. cbn [seq] in H.
    apply Match_Cat_iff in H. destruct H as (s1 & H1 & H).
    apply Match_Cat_iff in H. destruct H as (s2 & H2 & H).
    apply Match_Cat_iff in H. destruct H as (s3 & H3 & H).
    apply Match_Cat_iff in H. destruct H as (s4 & H4 & H).
    apply Match_Cat_iff in H. destruct H as (s5 & H5 & H).
    exists s5. split; [|exact H]. unfold declaration_head. cbn [seq].
    apply Match_Cat_iff. exists s1. split; [exact H1|].
    apply Match_Cat_iff. exists s2. split; [exact H2|].
    apply Match_Cat_iff. exists s3. split; [exact H3|].
    apply Match_Cat_iff. exists s4. split; [exact H4|exact H5]. }
  clear H. destruct H' as (s5 & Hh & H).
  destruct (Match_reads _ _ _ _ declaration_head_reads Hh)
    as (w0 & E0 & Q0 & L0).
  change (min_len declaration_head) with 2 in L0.
  clear Hh.
  apply Match_Cat_iff in H. destruct H as (s6 & H6 & H).
  apply Match_ws_plus_iff in H6.
  destruct H6 as (W2 & t6 & E6 & HW2 & N2 & ->).
  apply Match_Cat_iff in H. destruct H as (s7 & H7 & H). tidy H7.
  apply Match_Grp_iff in H7. destruct H7 as (s6' & H7 & ->).
  apply Match_ident_iff in H7. tidy H7.
  destruct H7 as (c & g & t7 & E7 & Hc & Hg & ->). tidy H.
  apply Match_Cat_iff in H. destruct H as (s8 & H8 & H9).
  apply Match_ws_star_iff in H8. tidy H8.
  destruct H8 as (W3 & t8 & E8 & HW3 & ->).
  apply Match_chr_iff in H9. tidy H9.
  destruct H9 as (t9 & E9 & ->).
  destruct (exists_last N2) as (W2' & x & EW). subst W2.
  rewrite forallb_app in HW2. apply andb_true_iff in HW2.
  destruct HW2 as [HW2' Hx]. cbn [forallb] in Hx. rewrite andb_true_r in Hx.
  exists (w0 ++ W2'), x, (c :: g), W3, t9.
  split.
  { rewrite E0, E6, E7, E8, E9. rewrite <- !app_assoc. reflexivity. }
  split.
  { rewrite forallb_app, Q0. cbn [andb]. revert HW2'.
    apply forallb_impl. exact space_not_paren. }
  split; [rewrite length_app; lia|].
  split; [exact Hx|]. split; [exists c, g; auto|]. split; [exact HW3|].
  unfold group. cbn [ms_caps assoc Nat.eqb].
  apply consumed_rest. cbn [ms_rest]. exact E7.
Qed.

Lemma forallb_rev (p : ascii -> bool) (s : str) :
  forallb p (rev s) = forallb p s.
Proof.
  induction s as [|c s IH]; [reflexivity|]. cbn [rev forallb].
  rewrite forallb_app, IH. cbn [forallb]. rewrite andb_true_r.
  apply andb_comm.
Qed.

(** The method name of a declaration: the identifier in front of the
    first opening parenthesis, when white space and, before it, a return
    type of two characters or more stand in front of the identifier. *)
Lemma declaration_name lead a r w c n sp rest :
  forallb not_paren lead = true ->
  is_alpha_ a = true -> r <> [] -> forallb ret_chr r = true ->
  isspace w = true ->
  is_alpha_ c = true -> forallb is_ident n = true ->
  forallb isspace sp = true ->
  extract_method_name_from_declaration
    (lead ++ a :: r ++ w :: (c :: n) ++ sp ++ "("%char :: rest)
  = Some (c :: n).
Proof.
  intros Hlead Ha Hr Hret Hw Hc Hn Hsp.
  set (suf := a :: r ++ w :: (c :: n) ++ sp ++ "("%char :: rest).
  assert (M0 : exists m0,
             Match declaration_pattern (MS (prev_after lead None) suf []) m0).
  { unfold declaration_pattern, suf. cbn [seq]. eexists.
    apply Match_Cat_iff. eexists. split; [apply MAltR; apply MEps|].
    apply Match_Cat_iff. eexists. split; [apply MStar0|].
    apply Match_Cat_iff. eexists. split; [apply MAltR; apply MEps|].
    apply Match_Cat_iff. eexists. split.
    { apply Match_Chr_iff. exists a, (r ++ w :: (c :: n) ++ sp
                                          ++ "("%char :: rest).
      split; [reflexivity|]. split; [exact Ha|reflexivity]. }
    cbn [ms_caps].
    apply Match_Cat_iff. eexists. split.
    { apply Match_plus_chr_iff.
      exists r, (w :: (c :: n) ++ sp ++ "("%char :: rest).
      split; [reflexivity|]. split; [exact Hret|]. split; [exact Hr|].
      reflexivity. }
    cbn [ms_prev ms_caps].
    apply Match_Cat_iff. eexists. split.
    { apply Match_ws_plus_iff.
      exists [w], ((c :: n) ++ sp ++ "("%char :: rest).
      split; [reflexivity|]. split; [cbn [forallb]; now rewrite Hw|].
      split; [discriminate|reflexivity]. }
    cbn [ms_prev ms_caps].
    apply Match_Cat_iff. eexists. split.
    { apply Match_Grp_iff. eexists. split; [|reflexivity].
      apply Match_ident_iff. exists c, n, (sp ++ "("%char :: rest).
      split; [reflexivity|]. split; [exact Hc|]. split; [exact Hn|].
      reflexivity. }
    cbn [ms_rest ms_prev ms_caps set_cap].
    apply Match_Cat_iff. eexists. split.
    { apply Match_ws_star_iff. exists sp, ("("%char :: rest).
      split; [reflexivity|]. split; [exact Hsp|reflexivity]. }
    cbn [ms_rest ms_prev ms_caps].
    apply Match_chr_iff. eexists. split; reflexivity. }
  destruct M0 as [m0 M0].
  destruct (search_from_leftmost declaration_pattern lead None suf m0 M0)
    as (p1 & p2 & m & El & Hs & Hm).
  unfold extract_method_name_from_declaration.
  fold (re_search declaration_pattern (lead ++ suf)) in Hs.
  replace (lead ++ a :: r ++ w :: (c :: n) ++ sp ++ "("%char :: rest)
    with (lead ++ suf) by reflexivity.
  assert (Hne : lead ++ suf <> []).
  { unfold suf. destruct lead; discriminate. }
  destruct (lead ++ suf) as [|x0 s0] eqn:Es; [congruence|].
  rewrite Hs. f_equal.
  apply declaration_shape in Hm.
  destruct Hm as (P & x & G & W3 & t & E & HP & _ & Hx
                  & (c' & g' & EG & Hc' & Hg') & HW3 & Hgrp).
  rewrite Hgrp. cbn [ms_rest] in E. clear Hs Es Hgrp m M0 m0.
  assert (Hp2 : forallb not_paren p2 = true).
  { rewrite El, forallb_app in Hlead. apply andb_true_iff in Hlead. tauto. }
  assert (HG : forallb is_ident G = true).
  { rewrite EG. cbn [forallb]. now rewrite (alpha_is_ident c' Hc'), Hg'. }
  assert (Hcn : forallb is_ident (c :: n) = true).
  { cbn [forallb]. now rewrite (alpha_is_ident c Hc), Hn. }
  assert (E1 : ((P ++ [x]) ++ G ++ W3) ++ "("%char :: t
               = ((p2 ++ a :: r ++ [w]) ++ (c :: n) ++ sp)
                 ++ "("%char :: rest).
  { rewrite <- !app_assoc. rewrite <- !app_assoc in E. rewrite <- E.
    unfold suf. cbn [app]. rewrite <- !app_assoc. reflexivity. }
  apply run_unique with (p := not_paren) in E1; [| | |reflexivity].
  2:{ rewrite !forallb_app, HP. cbn [forallb]. rewrite (space_not_paren x Hx).
      cbn [andb]. apply andb_true_iff. split.
      - revert HG. apply forallb_impl. exact ident_chr_not_paren.
      - revert HW3. apply forallb_impl. exact space_not_paren. }
  2:{ rewrite !forallb_app, Hp2. cbn [forallb andb].
      rewrite (ident_chr_not_paren a (alpha_is_ident a Ha)).
      rewrite forallb_app. cbn [forallb andb].
      rewrite (space_not_paren w Hw).
      rewrite (ident_chr_not_paren c (alpha_is_ident c Hc)).
      cbn [andb]. rewrite andb_true_r.
      apply andb_true_iff. split; [|apply andb_true_iff; split].
      - revert Hret. apply forallb_impl. exact ret_chr_not_paren.
      - revert Hn. apply forallb_impl. exact ident_chr_not_paren.
      - revert Hsp. apply forallb_impl. exact space_not_paren. }
  destruct E1 as [E1 _].
  apply (f_equal (@rev ascii)) in E1. rewrite !rev_app_distr in E1.
  rewrite <- !app_assoc in E1.
  assert (Slast : forall (y : str) z,
             y <> [] -> forallb is_ident y = true ->
             stops isspace (rev y ++ z)).
  { intros y z Hy Hi. destruct (exists_last Hy) as (y' & l & ->).
    rewrite rev_app_distr. cbn [rev app stops].
    rewrite forallb_app in Hi. apply andb_true_iff in Hi.
    destruct Hi as [_ Hi]. cbn [forallb] in Hi. rewrite andb_true_r in Hi.
    now apply ident_not_space. }
  apply munch with (p := isspace) in E1.
  2:{ now rewrite forallb_rev. }
  2:{ now rewrite forallb_rev. }
  2:{ apply Slast; [rewrite EG; discriminate|exact HG]. }
  2:{ apply Slast; [discriminate|exact Hcn]. }
  destruct E1 as [_ E1].
  apply munch with (p := is_ident) in E1.
  2:{ now rewrite forallb_rev. }
  2:{ now rewrite forallb_rev. }
  2:{ cbn [rev app stops]. now apply space_not_ident. }
  2:{ change (a :: r ++ [w]) with ((a :: r) ++ [w]). rewrite rev_app_distr.
      cbn [rev app stops]. now apply space_not_ident. }
  destruct E1 as [E1 _]. apply (f_equal (@rev ascii)) in E1.
  now rewrite !rev_involutive in E1.
Qed.


(** The one opening parenthesis of a text. *)
Lemma only_paren : forall A B rest t,
  forallb not_paren A = true -> forallb not_paren rest = true ->
  A ++ "("%char :: rest = B ++ "("%char :: t -> B = A /\ t = rest.
Proof.
  induction A as [|y A IH]; intros B rest t HA Hrest E.
  - destruct B as [|b B]; cbn [app] in E.
    + inversion E. auto.
    + exfalso. inversion E as [[Eb Er]]. rewrite Er in Hrest.
      rewrite forallb_app in Hrest. apply andb_true_iff in Hrest.
      destruct Hrest as [_ Hrest]. discriminate Hrest.
  - cbn [forallb] in HA. apply andb_true_iff in HA. destruct HA as [Hy HA].
    destruct B as [|b B]; cbn [app] in E.
    + exfalso. inversion E as [[Ey Er]]. subst y. discriminate Hy.
    + inversion E as [[Ey Er]]. destruct (IH B rest t HA Hrest Er) as [-> ->].
      auto.
Qed.

(** A declaration whose return type is one character is not read as a
    declaration. *)
Lemma one_letter_type_not_read a w c n sp rest :
  is_alpha_ a = true -> isspace w = true ->
  is_alpha_ c = true -> forallb is_ident n = true ->
  forallb isspace sp = true -> forallb not_paren rest = true ->
  extract_method_name_from_declaration
    (a :: w :: (c :: n) ++ sp ++ "("%char :: rest) = None.
Proof.
  intros Ha Hw Hc Hn Hsp Hrest.
  unfold extract_method_name_from_declaration. cbn [app].
  destruct (re_search declaration_pattern
              (a :: w :: c :: n ++ sp ++ "("%char :: rest)) as [m|] eqn:Es;
    [|reflexivity].
  exfalso. apply re_search_Some in Es. destruct Es as (pre & suf & E & Hm).
  apply declaration_shape in Hm.
  destruct Hm as (P & x & G & W3 & t & Er & HP & LP & Hx
                  & (c' & g' & EG & Hc' & Hg') & HW3 & _).
  cbn [ms_rest] in Er. subst suf.
  assert (HG : forallb is_ident G = true).
  { rewrite EG. cbn [forallb]. now rewrite (alpha_is_ident c' Hc'), Hg'. }
  assert (Hcn : forallb is_ident (c :: n) = true).
  { cbn [forallb]. now rewrite (alpha_is_ident c Hc), Hn. }
  assert (E1 : ([a; w] ++ (c :: n) ++ sp) ++ "("%char :: rest
               = (pre ++ (P ++ [x]) ++ G ++ W3) ++ "("%char :: t).
  { rewrite <- !app_assoc. cbn [app]. rewrite E. rewrite <- !app_assoc.
    reflexivity. }
  apply only_paren in E1; [|clear E1|exact Hrest].
  2:{ cbn [app forallb].
      rewrite (ident_chr_not_paren a (alpha_is_ident a Ha)).
      rewrite (space_not_paren w Hw).
      rewrite (ident_chr_not_paren c (alpha_is_ident c Hc)).
      cbn [andb]. rewrite forallb_app.
      apply andb_true_iff. split.
      - revert Hn. apply forallb_impl. exact ident_chr_not_paren.
      - revert Hsp. apply forallb_impl. exact space_not_paren. }
  destruct E1 as [E1 _].
  apply (f_equal (@rev ascii)) in E1. rewrite !rev_app_distr in E1.
  rewrite <- !app_assoc in E1.
  assert (Slast : forall (y : str) z,
             y <> [] -> forallb is_ident y = true ->
             stops isspace (rev y ++ z)).
  { intros y z Hy Hi. destruct (exists_last Hy) as (y' & l & ->).
    rewrite rev_app_distr. cbn [rev app stops].
    rewrite forallb_app in Hi. apply andb_true_iff in Hi.
    destruct Hi as [_ Hi]. cbn [forallb] in Hi. rewrite andb_true_r in Hi.
    now apply ident_not_space. }
  apply munch with (p := isspace) in E1.
  2:{ now rewrite forallb_rev. }
  2:{ now rewrite forallb_rev. }
  2:{ apply Slast; [rewrite EG; discriminate|exact HG]. }
  2:{ apply Slast; [discriminate|exact Hcn]. }
  destruct E1 as [_ E1].
  apply munch with (p := is_ident) in E1.
  2:{ now rewrite forallb_rev. }
  2:{ now rewrite forallb_rev. }
  2:{ cbn [rev app stops]. now apply space_not_ident. }
  2:{ cbn [rev app stops]. now apply space_not_ident. }
  destruct E1 as [_ E1]. apply (f_equal (@length ascii)) in E1.
  cbn [rev app length] in E1. rewrite !length_app, !length_rev in E1.
  cbn [length] in E1. lia.
Qed.

(** And nothing is returned for it. *)
Lemma one_letter_type_no_variable a w c n sp rest :
  is_alpha_ a = true -> isspace w = true ->
  is_alpha_ c = true -> forallb is_ident n = true ->
  forallb isspace sp = true -> forallb not_paren rest = true ->
  extract_findby_variable_name
    (a :: w :: (c :: n) ++ sp ++ "("%char :: rest) = None.
Proof.
  intros Ha Hw Hc Hn Hsp Hrest.
  unfold extract_findby_variable_name.
  rewrite (one_letter_type_not_read a w c n sp rest Ha Hw Hc Hn Hsp Hrest).
  cbn [app].
  assert (S : exists z, strip (a :: w :: c :: n ++ sp ++ "("%char :: rest)
                        = a :: w :: z).
  { unfold strip.
    rewrite (rstrip_cons a) by now apply alpha_not_space.
    change (w :: c :: n ++ sp ++ "("%char :: rest)
      with ([w] ++ c :: n ++ sp ++ "("%char :: rest).
    rewrite rstrip_app.
    - unfold lstrip. cbn [app dropwhile]. rewrite (alpha_not_space a Ha).
      eexists. reflexivity.
    - rewrite (rstrip_cons c) by now apply alpha_not_space. discriminate. }
  destruct S as [z ->].
  destruct (re_match findby_pattern (a :: w :: z)) as [m|] eqn:Em;
    [|reflexivity].
  exfalso. apply re_match_Some in Em. apply findby_match in Em.
  destruct Em as (p & suffix & t & En & Hp & _).
  destruct p as [|p0 [|p1 p]]; try discriminate Hp.
  cbn [app] in En. inversion En as [[E0 E1 E2]]. subst p1.
  cbn [lower map] in Hp. inversion Hp as [[H0 H1 H2]].
  rewrite (space_lower w Hw) in H1. subst w. discriminate Hw.
Qed.

(** C6, the behaviour on the failing input and around it.
    [pascal_to_camel] lowercases the first character when it is uppercase
    and nothing else.  On a bare name (identifier characters only) the
    result is [pascal_to_camel] of the suffix when the name is FindBy, in
    any letter case, followed by a non-empty suffix, and [None] for every
    other name.  On a declaration in which the method name, an identifier,
    stands before the first opening parenthesis, behind white space and a
    return type of two characters or more, the method name is found and
    the result is the result on that name; and whenever the grammar finds
    a name, the name is an identifier and the result is the result on it.
    The rows of the specification follow.  A declaration with a return
    type of one character is not read as a declaration, the pattern asking
    for two characters where its comment allows one, and nothing is
    returned for it although its method is a FindBy method. *)
Theorem extract_findby_variable_name_spec :
  pascal_to_camel [] = []
  /\ (forall c t,
        pascal_to_camel (c :: t)
        = (if isupper c then lower_chr c else c) :: t)
  /\ (forall name v,
        forallb is_ident name = true ->
        (extract_findby_variable_name name = Some v <->
         exists p suffix, name = p ++ suffix /\ lower p = py "findby"
                          /\ suffix <> [] /\ v = pascal_to_camel suffix))
  /\ (forall lead a r w c n sp rest,
        forallb not_paren lead = true ->
        is_alpha_ a = true -> r <> [] -> forallb ret_chr r = true ->
        isspace w = true ->
        is_alpha_ c = true -> forallb is_ident n = true ->
        forallb isspace sp = true ->
        extract_method_name_from_declaration
          (lead ++ a :: r ++ w :: (c :: n) ++ sp ++ "("%char :: rest)
        = Some (c :: n)
        /\ extract_findby_variable_name
             (lead ++ a :: r ++ w :: (c :: n) ++ sp ++ "("%char :: rest)
           = extract_findby_variable_name (c :: n))
  /\ (forall input n,
        extract_method_name_from_declaration input = Some n ->
        n <> [] /\ forallb is_ident n = true
        /\ extract_findby_variable_name input
           = extract_findby_variable_name n)
  /\ extract_method_name_from_declaration
       (py "Public Virtual Entity FindByRollNo(int rollNo) = 0;")
     = Some (py "FindByRollNo")
  /\ extract_findby_variable_name (py "FindByLastName") = Some (py "lastName")
  /\ extract_findby_variable_name
       (py "Public Virtual Entity FindByRollNo(int rollNo) = 0;")
     = Some (py "rollNo")
  /\ extract_findby_variable_name (py "findbyName") = Some (py "name")
  /\ extract_findby_variable_name (py "DeleteByName") = None
  /\ extract_findby_variable_name
       (py "Public Virtual Entity DeleteByRollNo(int rollNo) = 0;")
     = None
  /\ (forall a w c n sp rest,
        is_alpha_ a = true -> isspace w = true ->
        is_alpha_ c = true -> forallb is_ident n = true ->
        forallb isspace sp = true -> forallb not_paren rest = true ->
        extract_method_name_from_declaration
          (a :: w :: (c :: n) ++ sp ++ "("%char :: rest) = None
        /\ extract_findby_variable_name
             (a :: w :: (c :: n) ++ sp ++ "("%char :: rest) = None)
  /\ extract_findby_variable_name (py "T FindByX(int a)") = None
  /\ extract_findby_variable_name (py "Id FindByX(int a)") = Some (py "x").
Proof.
  split; [reflexivity|]. split.
  { intros c t. simpl. destruct (isupper c); reflexivity. }
  split; [exact bare_name_result|]. split.
  { intros lead a r w c n sp rest Hl Ha Hr Hret Hw Hc Hn Hsp.
    pose proof (declaration_name lead a r w c n sp rest
                  Hl Ha Hr Hret Hw Hc Hn Hsp) as E.
    split; [exact E|]. now apply declaration_result. }
  split.
  { intros input n H. destruct (declaration_name_ident input n H).
    repeat split; auto. now apply declaration_result. }
  do 6 (split; [vm_compute; reflexivity|]).
  split.
  { intros a w c n sp rest Ha Hw Hc Hn Hsp Hrest. split.
    - now apply one_letter_type_not_read.
    - now apply one_letter_type_no_variable. }
  split; vm_compute; reflexivity.
Qed.

End DeclarationSpec.
